(** * RepoViewer: the content retrieval and normalization pipeline

    A shallow embedding of the GitHub service module ([services/github.ts]),
    of the repository content viewer ([RepoContentViewer.tsx]) and of the
    profile README viewer ([ReadmeViewer.tsx]), with the properties of the
    pipeline stated and proved over it; and of what the callers of the
    service compute themselves: the filter and search of the project list
    ([ProjectList.tsx]), the live link of a project card
    ([ProjectCard.tsx]), and the handling of the links of the profile
    sidebar ([ProfileSidebar.tsx]).

    JavaScript strings are modelled as [string] (sequences of 8-bit
    characters): a binary string as produced by [atob] is exactly such a
    sequence, and every literal the code compares against is ASCII.
    [toLowerCase] and [trim] are modelled on that range.

    The answers of the provider have the shapes the TypeScript interfaces
    declare; values the code treats as [any] and inspects at run time keep
    their dynamic shape ([json], optional fields).  Asynchronous calls are
    run in program order on the single event loop; console output is left
    out. *)

From Stdlib Require Import ZArith List String Ascii Bool Lia.
From Stdlib.Strings Require Import Byte.
From stdpp Require Import gmap strings list pretty.

Open Scope string_scope.
Open Scope nat_scope.
Open Scope list_scope.

(** ** Character and string primitives *)

Module Str.

Definition chars (s : string) : list ascii := list_ascii_of_string s.
Definition of_chars (l : list ascii) : string := string_of_list_ascii l.

(** [s.replace(/c/g, '')]: every occurrence of the character is dropped. *)
Fixpoint remove_char (c : ascii) (s : string) : string :=
  match s with
  | EmptyString => EmptyString
  | String d s' =>
      if Ascii.eqb d c then remove_char c s' else String d (remove_char c s')
  end.

(** ASCII range of [String.prototype.toLowerCase]. *)
Definition lower_char (c : ascii) : ascii :=
  let n := nat_of_ascii c in
  if (65 <=? n) && (n <=? 90) then ascii_of_nat (n + 32) else c.

Fixpoint toLowerCase (s : string) : string :=
  match s with
  | EmptyString => EmptyString
  | String c s' => String (lower_char c) (toLowerCase s')
  end.

(** [s.startsWith(p)] *)
Fixpoint startsWith (p s : string) : bool :=
  match p, s with
  | EmptyString, _ => true
  | String a p', String b s' => Ascii.eqb a b && startsWith p' s'
  | String _ _, EmptyString => false
  end.

(** [s.endsWith(p)] *)
Definition endsWith (p s : string) : bool :=
  startsWith (of_chars (rev (chars p))) (of_chars (rev (chars s))).

(** [s.split('.')]: the pieces between the separators; never empty. *)
Fixpoint split (sep : ascii) (s : string) : list string :=
  match s with
  | EmptyString => [EmptyString]
  | String c s' =>
      if Ascii.eqb c sep then EmptyString :: split sep s'
      else match split sep s' with
           | p :: ps => String c p :: ps
           | [] => [String c EmptyString]
           end
  end.

(** White space and line terminators removed by [String.prototype.trim],
    on the 8-bit range: TAB, LF, VT, FF, CR, SPACE and NBSP. *)
Definition is_js_space (c : ascii) : bool :=
  let n := nat_of_ascii c in
  ((9 <=? n) && (n <=? 13)) || (n =? 32) || (n =? 160).

Fixpoint trimStart (s : string) : string :=
  match s with
  | String c s' => if is_js_space c then trimStart s' else s
  | EmptyString => EmptyString
  end.

Definition trim (s : string) : string :=
  of_chars (rev (chars (trimStart (of_chars (rev (chars (trimStart s))))))).

(** [s.includes(p)] *)
Fixpoint includes (p s : string) : bool :=
  startsWith p s ||
  match s with
  | EmptyString => false
  | String _ s' => includes p s'
  end.

(** JavaScript truthiness of a string value. *)
Definition nonempty (s : string) : bool :=
  match s with EmptyString => false | String _ _ => true end.

(** [parts.join(sep)] *)
Fixpoint join (sep : string) (parts : list string) : string :=
  match parts with
  | [] => EmptyString
  | p :: rest =>
      match rest with
      | [] => p
      | _ :: _ => p +:+ sep +:+ join sep rest
      end
  end.

End Str.

(** ** Base64

    [atob] is a platform built-in; it is modelled after the "forgiving-base64
    decode" algorithm of the WHATWG Infra standard, which works on the bit
    buffer of the 6-bit groups.  The encoding side is the provider's,
    RFC 4648 section 4 (with padding). *)

Module Base64.

(** A 6-bit group, most significant bit first. *)
Definition sextet : Type := (bool * bool * bool * bool * bool * bool)%type.

Definition alphabet : string :=
  "ABCDEFGHIJKLMNOPQRSTUVWXYZabcdefghijklmnopqrstuvwxyz0123456789+/".

Definition bit (b : bool) : nat := if b then 1 else 0.

Definition sextet_index (s : sextet) : nat :=
  let '(b5, b4, b3, b2, b1, b0) := s in
  32 * bit b5 + 16 * bit b4 + 8 * bit b3 + 4 * bit b2 + 2 * bit b1 + bit b0.

Definition sextet_of_index (n : nat) : sextet :=
  (Nat.testbit n 5, Nat.testbit n 4, Nat.testbit n 3,
   Nat.testbit n 2, Nat.testbit n 1, Nat.testbit n 0).

Definition char_of_sextet (s : sextet) : ascii :=
  match String.get (sextet_index s) alphabet with
  | Some c => c
  | None => "="%char
  end.

Fixpoint index_of (c : ascii) (s : string) : option nat :=
  match s with
  | EmptyString => None
  | String d s' => if Ascii.eqb c d then Some 0 else option_map S (index_of c s')
  end.

Definition sextet_of_char (c : ascii) : option sextet :=
  option_map sextet_of_index (index_of c alphabet).

(** Three octets are the concatenation of four 6-bit groups. *)
Definition group3 (a b c : ascii) : sextet * sextet * sextet * sextet :=
  let '(Ascii a0 a1 a2 a3 a4 a5 a6 a7) := a in
  let '(Ascii b0 b1 b2 b3 b4 b5 b6 b7) := b in
  let '(Ascii c0 c1 c2 c3 c4 c5 c6 c7) := c in
  ((a7, a6, a5, a4, a3, a2), (a1, a0, b7, b6, b5, b4),
   (b3, b2, b1, b0, c7, c6), (c5, c4, c3, c2, c1, c0)).

Definition zero : ascii := Ascii false false false false false false false false.

(** RFC 4648: 24-bit groups; a final group of 8 or 16 bits is completed with
    zero bits and padded with "==" or "=". *)
Fixpoint encode_chars (bs : list ascii) : list ascii :=
  match bs with
  | [] => []
  | [a] =>
      let '(s1, s2, _, _) := group3 a zero zero in
      [char_of_sextet s1; char_of_sextet s2; "="%char; "="%char]
  | [a; b] =>
      let '(s1, s2, s3, _) := group3 a b zero in
      [char_of_sextet s1; char_of_sextet s2; char_of_sextet s3; "="%char]
  | a :: b :: c :: rest =>
      let '(s1, s2, s3, s4) := group3 a b c in
      char_of_sextet s1 :: char_of_sextet s2 :: char_of_sextet s3
        :: char_of_sextet s4 :: encode_chars rest
  end.

(** The 6-bit groups and the padding of an encoding, taken apart. *)
Fixpoint sextets_of_octets (bs : list ascii) : list sextet :=
  match bs with
  | [] => []
  | [a] => let '(s1, s2, _, _) := group3 a zero zero in [s1; s2]
  | [a; b] => let '(s1, s2, s3, _) := group3 a b zero in [s1; s2; s3]
  | a :: b :: c :: rest =>
      let '(s1, s2, s3, s4) := group3 a b c in
      s1 :: s2 :: s3 :: s4 :: sextets_of_octets rest
  end.

Fixpoint padding_of (bs : list ascii) : list ascii :=
  match bs with
  | [] => []
  | [_] => ["="%char; "="%char]
  | [_; _] => ["="%char]
  | _ :: _ :: _ :: rest => padding_of rest
  end.

Definition encode (bs : list byte) : string :=
  Str.of_chars (encode_chars (map ascii_of_byte bs)).

(** ASCII whitespace of the Infra standard: TAB, LF, FF, CR, SPACE. *)
Definition is_ascii_whitespace (c : ascii) : bool :=
  let n := nat_of_ascii c in
  (n =? 9) || (n =? 10) || (n =? 12) || (n =? 13) || (n =? 32).

(** Step 2: if the length is a multiple of four, one or two trailing "="
    are removed. *)
Definition remove_trailing_pad (l : list ascii) : list ascii :=
  match rev l with
  | c :: r => if Ascii.eqb c "="%char then rev r else l
  | [] => l
  end.

Definition strip_padding (l : list ascii) : list ascii :=
  if length l mod 4 =? 0 then remove_trailing_pad (remove_trailing_pad l) else l.

Fixpoint sextets_of_chars (l : list ascii) : option (list sextet) :=
  match l with
  | [] => Some []
  | c :: l' =>
      match sextet_of_char c, sextets_of_chars l' with
      | Some s, Some ss => Some (s :: ss)
      | _, _ => None
      end
  end.

Definition octet1 (s1 s2 : sextet) : ascii :=
  let '(a7, a6, a5, a4, a3, a2) := s1 in
  let '(a1, a0, _, _, _, _) := s2 in
  Ascii a0 a1 a2 a3 a4 a5 a6 a7.

Definition octet2 (s2 s3 : sextet) : ascii :=
  let '(_, _, b7, b6, b5, b4) := s2 in
  let '(b3, b2, b1, b0, _, _) := s3 in
  Ascii b0 b1 b2 b3 b4 b5 b6 b7.

Definition octet3 (s3 s4 : sextet) : ascii :=
  let '(_, _, _, _, c7, c6) := s3 in
  let '(c5, c4, c3, c2, c1, c0) := s4 in
  Ascii c0 c1 c2 c3 c4 c5 c6 c7.

(** Steps 3 and 5 to 10: 24 bits of the buffer give three octets; 12 left
    over bits give one octet and 18 give two (the last four, resp. two, bits
    are discarded); a single left over group (length 1 modulo 4) fails. *)
Fixpoint decode_sextets (l : list sextet) : option (list ascii) :=
  match l with
  | [] => Some []
  | [_] => None
  | [s1; s2] => Some [octet1 s1 s2]
  | [s1; s2; s3] => Some [octet1 s1 s2; octet2 s2 s3]
  | s1 :: s2 :: s3 :: s4 :: rest =>
      option_map (fun t => octet1 s1 s2 :: octet2 s2 s3 :: octet3 s3 s4 :: t)
                 (decode_sextets rest)
  end.

Definition forgiving_decode (l : list ascii) : option (list ascii) :=
  let data := strip_padding (List.filter (fun c => negb (is_ascii_whitespace c)) l) in
  match sextets_of_chars data with
  | Some ss => decode_sextets ss
  | None => None
  end.

(** [atob(data)]: [None] stands for the InvalidCharacterError exception. *)
Definition atob (data : string) : option string :=
  option_map Str.of_chars (forgiving_decode (Str.chars data)).

End Base64.


(** ** Data model ([services/github.ts], [RepoContentViewer.tsx]) *)

Record Repository := {
  repo_id : Z;
  repo_name : string;
  repo_description : option string;
  repo_html_url : string;
  repo_homepage : option string;
  repo_language : option string;
  repo_topics : list string;
  repo_updated_at : string;
  repo_stargazers_count : Z;
  repo_forks_count : Z
}.

(** ['file' | 'dir' | 'symlink'] *)
Inductive ItemType := TFile | TDir | TSymlink.

Record RepoContentItem := {
  item_name : string;
  item_path : string;
  item_type : ItemType;
  item_size : Z;
  item_download_url : option string
}.

(** The viewer's own view of a content entry; [content], [encoding], [size]
    and [url] are optional. *)
Record RepoContent := {
  rc_type : string;
  rc_name : string;
  rc_path : string;
  rc_sha : string;
  rc_content : option string;
  rc_encoding : option string;
  rc_size : option Z;
  rc_url : option string
}.

Record Branch := {
  branch_name : string;
  branch_commit_sha : string
}.

(** The contents endpoint answers with an array for a directory and with a
    single object for a file. *)
Inductive Contents (A : Type) :=
  | IsArray (items : list A)
  | IsObject (item : A).
Arguments IsArray {A} items.
Arguments IsObject {A} item.

(** Values of type [any] produced by [JSON.parse].  Numbers are only ever
    tested for truthiness, for which their integer value is enough. *)
#[warnings="-register-all"]
Inductive json :=
  | JNull
  | JBool (b : bool)
  | JNum (n : Z)
  | JStr (s : string)
  | JArr (elements : list json)
  | JObj (fields : list (string * json)).

(** ** Exceptions, requests and the world the code runs in *)

Inductive exn :=
  | Error (message : string)
  | TypeError (message : string)
  | SyntaxError (message : string)
  | InvalidCharacterError (message : string).

Definition exn_message (e : exn) : string :=
  match e with
  | Error m | TypeError m | SyntaxError m | InvalidCharacterError m => m
  end.

Record Request := {
  req_url : string;
  req_accept : string;
  req_authorization : option string
}.

Record Response (A : Type) := {
  status : nat;
  statusText : string;
  json_body : option A;     (* what [response.json()] resolves to; [None]: not JSON *)
  text_body : string        (* what [response.text()] resolves to *)
}.
Arguments status {A} _.
Arguments statusText {A} _.
Arguments json_body {A} _.
Arguments text_body {A} _.

(** [response.ok]: the status is in the range 200-299. *)
Definition ok {A} (r : Response A) : bool :=
  (200 <=? status r) && (status r <=? 299).

Inductive FetchResult (A : Type) :=
  | NetworkFailure
  | Responded (r : Response A).
Arguments NetworkFailure {A}.
Arguments Responded {A} r.

(** The provider, as seen through [fetch]: the answer to a request, given
    how many requests the session has issued before it. *)
Definition Provider (A : Type) : Type := nat -> Request -> FetchResult A.

(** State of the [RepoContentViewer] component. *)
Record ViewerState := {
  contents : list RepoContent;
  currentPath : string;
  loading : bool;
  error : option string;
  selectedFile : option RepoContent;
  fileContent : string;
  isSidebarCollapsed : bool;
  branches : list Branch;
  currentBranch : string;
  showBranchSelector : bool
}.

(** State of the [ReadmeViewer] component. *)
Record ReadmeState := {
  readme : string;
  readme_loading : bool;
  readme_error : option string
}.

Record World := {
  env_token : option string;              (* process.env.REACT_APP_GITHUB_TOKEN *)
  localStorage : gmap string string;
  prompt_answers : list (option string);  (* answers to the coming prompt() dialogs; [None]: dismissed *)
  requests : list Request;                (* the fetches issued so far, oldest first *)
  viewer : ViewerState;
  readme_view : ReadmeState
}.

Definition set_localStorage (f : gmap string string -> gmap string string) (w : World) : World :=
  {| env_token := env_token w; localStorage := f (localStorage w);
     prompt_answers := prompt_answers w; requests := requests w;
     viewer := viewer w; readme_view := readme_view w |}.

Definition set_prompt_answers (l : list (option string)) (w : World) : World :=
  {| env_token := env_token w; localStorage := localStorage w;
     prompt_answers := l; requests := requests w;
     viewer := viewer w; readme_view := readme_view w |}.

Definition set_requests (l : list Request) (w : World) : World :=
  {| env_token := env_token w; localStorage := localStorage w;
     prompt_answers := prompt_answers w; requests := l;
     viewer := viewer w; readme_view := readme_view w |}.

Definition set_viewer (f : ViewerState -> ViewerState) (w : World) : World :=
  {| env_token := env_token w; localStorage := localStorage w;
     prompt_answers := prompt_answers w; requests := requests w;
     viewer := f (viewer w); readme_view := readme_view w |}.

Definition set_readme_view (f : ReadmeState -> ReadmeState) (w : World) : World :=
  {| env_token := env_token w; localStorage := localStorage w;
     prompt_answers := prompt_answers w; requests := requests w;
     viewer := viewer w; readme_view := f (readme_view w) |}.

(** ** The monad of effectful code: state, exceptions, and fuel for the
    recursive retries.  A thrown exception keeps the state changes made
    before it; [Diverged] (fuel exhausted) is not an exception and cannot
    be caught. *)

Inductive Outcome (A : Type) :=
  | Returned (a : A)
  | Thrown (e : exn)
  | Diverged.
Arguments Returned {A} a.
Arguments Thrown {A} e.
Arguments Diverged {A}.

Definition M (A : Type) : Type := World -> Outcome A * World.

#[export] Instance M_ret : MRet M := fun A a w => (Returned a, w).

#[export] Instance M_bind : MBind M := fun A B f m w =>
  match m w with
  | (Returned a, w') => f a w'
  | (Thrown e, w') => (Thrown e, w')
  | (Diverged, w') => (Diverged, w')
  end.

#[export] Instance M_throw : MThrow exn M := fun A e w => (Thrown e, w).

Definition diverge {A} : M A := fun w => (Diverged, w).

(** [try { body } catch (e) { handler e }] *)
Definition try_catch {A} (body : M A) (handler : exn -> M A) : M A := fun w =>
  match body w with
  | (Thrown e, w') => handler e w'
  | r => r
  end.

(** [try { body } finally { final }]: [final] runs when the body has
    returned or thrown. *)
Definition try_finally {A} (body : M A) (final : M unit) : M A := fun w =>
  match body w with
  | (Diverged, w') => (Diverged, w')
  | (r, w') =>
      match final w' with
      | (Returned _, w'') => (r, w'')
      | (Thrown e, w'') => (Thrown e, w'')
      | (Diverged, w'') => (Diverged, w'')
      end
  end.

Definition get_world : M World := fun w => (Returned w, w).
Definition modify (f : World -> World) : M unit := fun w => (Returned tt, f w).

(** JavaScript truthiness of a [string | null]. *)
Definition truthy (o : option string) : bool :=
  match o with
  | Some s => Str.nonempty s
  | None => false
  end.

(** [localStorage.getItem], [setItem], [removeItem] *)
Definition getItem (key : string) : M (option string) :=
  w ← get_world; mret (localStorage w !! key).
Definition setItem (key value : string) : M unit :=
  modify (set_localStorage (insert key value)).
Definition removeItem (key : string) : M unit :=
  modify (set_localStorage (delete key)).

(** [prompt(...)]: the next answer of the user; dismissed when none is left. *)
Definition prompt : M (option string) := fun w =>
  match prompt_answers w with
  | [] => (Returned None, w)
  | a :: rest => (Returned a, set_prompt_answers rest w)
  end.

(** [fetch(url, { headers })]: the request is issued and recorded; a network
    failure rejects with a TypeError. *)
Definition fetch {A} (provider : Provider A) (url accept : string)
    (authorization : option string) : M (Response A) := fun w =>
  let req := {| req_url := url; req_accept := accept;
                req_authorization := authorization |} in
  let w' := set_requests (requests w ++ [req]) w in
  match provider (length (requests w)) req with
  | NetworkFailure => (Thrown (TypeError "Failed to fetch"), w')
  | Responded r => (Returned r, w')
  end.

(** [await response.json()] *)
Definition json_of {A} (r : Response A) : M A :=
  match json_body r with
  | Some a => mret a
  | None => mthrow (SyntaxError "Unexpected token in JSON")
  end.

(** ** [services/github.ts] *)

Module GitHub.

Definition GITHUB_API_BASE : string := "https://api.github.com".
Definition v3_json : string := "application/vnd.github.v3+json".

(** [typeof process !== 'undefined' && process.env?.REACT_APP_GITHUB_TOKEN],
    as a condition: the variable is set and not empty. *)
Definition envToken : M (option string) :=
  w ← get_world; mret (if truthy (env_token w) then env_token w else None).

Definition getGitHubToken : M (option string) :=
  env ← envToken;
  if truthy env then mret env else getItem "github_token".

Definition setGitHubToken (token : string) : M unit :=
  setItem "github_token" token.

(** The headers differ in the Authorization field only, present when the
    token is truthy. *)
Definition createHeaders : M (option string) :=
  token ← getGitHubToken;
  mret (if truthy token then token else None).

Definition api_error {A} (response : Response A) : exn :=
  Error ("GitHub API error: " +:+ pretty (status response) +:+ " " +:+ statusText response).

Definition handleApiError {A} (response : Response A) : M unit :=
  (if (status response =? 401) || (status response =? 403) then
     existingToken ← getGitHubToken;
     (if truthy existingToken then removeItem "github_token" else mret tt);;
     env ← envToken;
     if truthy env then mthrow (api_error response)
     else
       token ← prompt;
       if truthy token then setGitHubToken (default "" token) else mret tt
   else mret tt);;
  mthrow (api_error response).

Section UserRepositories.
Variable provider : Provider (list Repository).

Fixpoint fetchUserRepositories (fuel : nat) (username : string) : M (list Repository) :=
  match fuel with
  | 0 => diverge
  | S fuel' =>
      try_catch
        (headers ← createHeaders;
         response ← fetch provider
           (GITHUB_API_BASE +:+ "/users/" +:+ username +:+ "/repos?sort=updated&per_page=100")
           v3_json headers;
         if negb (ok response) then
           handleApiError response;;
           if (status response =? 401) || (status response =? 403)
           then fetchUserRepositories fuel' username
           else mret []
         else json_of response)
        (fun error => mthrow error)
  end.
End UserRepositories.

Section RepoContents.
Variable provider : Provider (Contents RepoContentItem).

Definition fetchRepoContents (username repoName path : string) : M (list RepoContentItem) :=
  try_catch
    (headers ← createHeaders;
     response ← fetch provider
       (GITHUB_API_BASE +:+ "/repos/" +:+ username +:+ "/" +:+ repoName +:+ "/contents/" +:+ path)
       v3_json headers;
     if negb (ok response) then
       handleApiError response;;
       mret []
     else
       contents ← json_of response;
       mret (match contents with
             | IsArray items => items
             | IsObject item => [item]
             end))
    (fun error => mthrow error).
End RepoContents.

(** *** [detectProgrammingLanguages] *)

Definition is_file (item : RepoContentItem) : bool :=
  match item_type item with TFile => true | _ => false end.

(** [parts.length > 1 ? parts[parts.length - 1].toLowerCase() : null] *)
Definition extension (name : string) : option string :=
  let parts := Str.split "."%char name in
  if 1 <? length parts then Some (Str.toLowerCase (List.last parts "")) else None.

Definition fileExtensions (contents : list RepoContentItem) : list string :=
  omap id (map (fun file => extension (item_name file)) (List.filter is_file contents)).

(** The own properties of the [languageMap] object literal. *)
Definition languageMap : list (string * string) :=
  [ ("py", "Python"); ("js", "JavaScript"); ("ts", "TypeScript");
    ("jsx", "JavaScript"); ("tsx", "TypeScript"); ("html", "HTML");
    ("css", "CSS"); ("cpp", "C++"); ("c", "C"); ("h", "C"); ("hpp", "C++");
    ("java", "Java"); ("rs", "Rust"); ("go", "Golang"); ("rb", "Ruby");
    ("php", "PHP"); ("cs", "C#"); ("swift", "Swift"); ("kt", "Kotlin") ].

Fixpoint assoc {V} (key : string) (l : list (string * V)) : option V :=
  match l with
  | [] => None
  | (k, v) :: rest => if String.eqb k key then Some v else assoc key rest
  end.

(** What [languageMap[ext]] finds on the prototype chain when [ext] is not
    an own property: [languageMap] is a plain object literal, so the members
    of [Object.prototype] are visible through it.  Of their names only
    "constructor" and "__proto__" can come out of [toLowerCase]; they yield
    the [Object] function and the prototype object, both truthy.  The result
    is the string such a value is converted to when it is used as the
    property key [languageCounts[language]]. *)
Definition Object_prototype_key (ext : string) : option string :=
  if String.eqb ext "constructor" then Some "function Object() { [native code] }"
  else if String.eqb ext "__proto__" then Some "[object Object]"
  else None.

(** [languageMap[ext]], when truthy, as the key it is tallied under. *)
Definition languageMap_get (ext : string) : option string :=
  match assoc ext languageMap with
  | Some language => Some language
  | None => Object_prototype_key ext
  end.

(** [languageCounts[language] = (languageCounts[language] || 0) + 1]: an
    existing key keeps its place, a new one is added last. *)
Fixpoint increment (language : string) (counts : list (string * nat)) : list (string * nat) :=
  match counts with
  | [] => [(language, 1)]
  | (l, n) :: rest =>
      if String.eqb l language then (l, n + 1) :: rest
      else (l, n) :: increment language rest
  end.

Definition languageCounts (exts : list string) : list (string * nat) :=
  fold_left (fun counts ext =>
               match languageMap_get ext with
               | Some language => increment language counts
               | None => counts
               end) exts [].

(** The loop over [Object.entries(languageCounts)], from
    [primaryLanguage = ''] and [maxCount = 0]. *)
Definition mostCommon (entries : list (string * nat)) : string * nat :=
  fold_left (fun '(primaryLanguage, maxCount) '(language, count) =>
               if maxCount <? count then (language, count)
               else (primaryLanguage, maxCount)) entries ("", 0).

Definition primaryLanguageOf (contents : list RepoContentItem) : string :=
  fst (mostCommon (languageCounts (fileExtensions contents))).

Section Languages.
Variable provider : Provider (Contents RepoContentItem).

Definition detectProgrammingLanguages (username repoName : string) : M string :=
  try_catch
    (contents ← fetchRepoContents provider username repoName "";
     mret (primaryLanguageOf contents))
    (fun error => mret "").
End Languages.

(** *** [checkRepoContents] *)

Section LivePage.
Variable provider : Provider (list RepoContentItem).

Definition checkRepoContents (username repoName : string) : M bool :=
  try_catch
    (headers ← createHeaders;
     rootResponse ← fetch provider
       (GITHUB_API_BASE +:+ "/repos/" +:+ username +:+ "/" +:+ repoName +:+ "/contents/index.html")
       v3_json headers;
     if ok rootResponse then mret true
     else
       headers ← createHeaders;
       contentsResponse ← fetch provider
         (GITHUB_API_BASE +:+ "/repos/" +:+ username +:+ "/" +:+ repoName +:+ "/contents")
         v3_json headers;
       if negb (ok contentsResponse) then mret false
       else
         contents ← json_of contentsResponse;
         mret (existsb (fun item =>
                          is_file item &&
                          Str.endsWith ".html" (Str.toLowerCase (item_name item)))
                       contents))
    (fun error => mret false).
End LivePage.

(** *** [checkForPackageJson] *)

Record PackageJsonInfo := {
  hasPackageJson : bool;
  packageJsonHomepage : option string
}.

Definition not_found : PackageJsonInfo :=
  {| hasPackageJson := false; packageJsonHomepage := None |}.

Definition json_truthy (v : json) : bool :=
  match v with
  | JNull => false
  | JBool b => b
  | JNum n => negb (n =? 0)%Z
  | JStr s => Str.nonempty s
  | JArr _ | JObj _ => true
  end.

(** [content.homepage]: [None] is [undefined]. *)
Definition get_homepage (content : json) : M (option json) :=
  match content with
  | JNull => mthrow (TypeError "Cannot read properties of null (reading 'homepage')")
  | JObj fields => mret (assoc "homepage" fields)
  | _ => mret None
  end.

(** [atob(x)] for an [x] that may be [undefined]: the argument is first
    converted to a string. *)
Definition atob_js (x : option string) : M string :=
  match Base64.atob (default "undefined" x) with
  | Some s => mret s
  | None => mthrow (InvalidCharacterError "The string to be decoded is not correctly encoded.")
  end.

Section PackageJson.
(** [JSON.parse], a platform built-in: [None] is a SyntaxError. *)
Variable JSON_parse : string -> option json.
Variable branches_provider : Provider (list Branch).
Variable package_provider : Provider RepoContent.

Definition JSON_parse_js (text : string) : M json :=
  match JSON_parse text with
  | Some v => mret v
  | None => mthrow (SyntaxError "Unexpected token in JSON")
  end.

(** The body of the inner [try]: [Some h] when it returns from the
    function with homepage [h], [None] when it falls through to the next
    branch. *)
Definition checkBranch (username repoName : string) (branch : Branch) : M (option string) :=
  headers ← createHeaders;
  response ← fetch package_provider
    (GITHUB_API_BASE +:+ "/repos/" +:+ username +:+ "/" +:+ repoName
       +:+ "/contents/package.json?ref=" +:+ branch_name branch)
    v3_json headers;
  if ok response then
    data ← json_of response;
    decoded ← atob_js (rc_content data);
    content ← JSON_parse_js decoded;
    homepage ← get_homepage content;
    match homepage with
    | Some v =>
        if json_truthy v then
          match v with
          | JStr h => mret (Some (Str.remove_char "`"%char (Str.trim h)))
          | _ => mthrow (TypeError "content.homepage.trim is not a function")
          end
        else mret None
    | None => mret None
    end
  else mret None.

Fixpoint checkBranches (username repoName : string) (branches : list Branch) : M PackageJsonInfo :=
  match branches with
  | [] => mret not_found
  | branch :: rest =>
      found ← try_catch (checkBranch username repoName branch)
                        (fun branchError => mret None);
      match found with
      | Some h => mret {| hasPackageJson := true; packageJsonHomepage := Some h |}
      | None => checkBranches username repoName rest
      end
  end.

Definition checkForPackageJson (username repoName : string) : M PackageJsonInfo :=
  try_catch
    (headers ← createHeaders;
     branchesResponse ← fetch branches_provider
       (GITHUB_API_BASE +:+ "/repos/" +:+ username +:+ "/" +:+ repoName +:+ "/branches")
       v3_json headers;
     if negb (ok branchesResponse) then
       mthrow (Error ("Failed to fetch branches: " +:+ pretty (status branchesResponse)))
     else
       branches ← json_of branchesResponse;
       checkBranches username repoName branches)
    (fun error => mret not_found).
End PackageJson.

End GitHub.

(** ** [RepoContentViewer.tsx] *)

Module Viewer.

(** The state setters of the component ([useState]). *)
Definition setContents (v : list RepoContent) : M unit :=
  modify (set_viewer (fun st =>
    {| contents := v; currentPath := currentPath st; loading := loading st; error := error st;
       selectedFile := selectedFile st; fileContent := fileContent st; isSidebarCollapsed := isSidebarCollapsed st;
       branches := branches st; currentBranch := currentBranch st; showBranchSelector := showBranchSelector st |})).

Definition setLoading (v : bool) : M unit :=
  modify (set_viewer (fun st =>
    {| contents := contents st; currentPath := currentPath st; loading := v; error := error st;
       selectedFile := selectedFile st; fileContent := fileContent st; isSidebarCollapsed := isSidebarCollapsed st;
       branches := branches st; currentBranch := currentBranch st; showBranchSelector := showBranchSelector st |})).

Definition setError (v : option string) : M unit :=
  modify (set_viewer (fun st =>
    {| contents := contents st; currentPath := currentPath st; loading := loading st; error := v;
       selectedFile := selectedFile st; fileContent := fileContent st; isSidebarCollapsed := isSidebarCollapsed st;
       branches := branches st; currentBranch := currentBranch st; showBranchSelector := showBranchSelector st |})).

Definition setSelectedFile (v : option RepoContent) : M unit :=
  modify (set_viewer (fun st =>
    {| contents := contents st; currentPath := currentPath st; loading := loading st; error := error st;
       selectedFile := v; fileContent := fileContent st; isSidebarCollapsed := isSidebarCollapsed st;
       branches := branches st; currentBranch := currentBranch st; showBranchSelector := showBranchSelector st |})).

Definition setFileContent (v : string) : M unit :=
  modify (set_viewer (fun st =>
    {| contents := contents st; currentPath := currentPath st; loading := loading st; error := error st;
       selectedFile := selectedFile st; fileContent := v; isSidebarCollapsed := isSidebarCollapsed st;
       branches := branches st; currentBranch := currentBranch st; showBranchSelector := showBranchSelector st |})).

Definition setBranches (v : list Branch) : M unit :=
  modify (set_viewer (fun st =>
    {| contents := contents st; currentPath := currentPath st; loading := loading st; error := error st;
       selectedFile := selectedFile st; fileContent := fileContent st; isSidebarCollapsed := isSidebarCollapsed st;
       branches := v; currentBranch := currentBranch st; showBranchSelector := showBranchSelector st |})).

Definition setCurrentBranch (v : string) : M unit :=
  modify (set_viewer (fun st =>
    {| contents := contents st; currentPath := currentPath st; loading := loading st; error := error st;
       selectedFile := selectedFile st; fileContent := fileContent st; isSidebarCollapsed := isSidebarCollapsed st;
       branches := branches st; currentBranch := v; showBranchSelector := showBranchSelector st |})).

Definition setCurrentPath (v : string) : M unit :=
  modify (set_viewer (fun st =>
    {| contents := contents st; currentPath := v; loading := loading st; error := error st;
       selectedFile := selectedFile st; fileContent := fileContent st; isSidebarCollapsed := isSidebarCollapsed st;
       branches := branches st; currentBranch := currentBranch st; showBranchSelector := showBranchSelector st |})).

Definition setIsSidebarCollapsed (v : bool) : M unit :=
  modify (set_viewer (fun st =>
    {| contents := contents st; currentPath := currentPath st; loading := loading st; error := error st;
       selectedFile := selectedFile st; fileContent := fileContent st; isSidebarCollapsed := v;
       branches := branches st; currentBranch := currentBranch st; showBranchSelector := showBranchSelector st |})).

Definition setShowBranchSelector (v : bool) : M unit :=
  modify (set_viewer (fun st =>
    {| contents := contents st; currentPath := currentPath st; loading := loading st; error := error st;
       selectedFile := selectedFile st; fileContent := fileContent st; isSidebarCollapsed := isSidebarCollapsed st;
       branches := branches st; currentBranch := currentBranch st; showBranchSelector := v |})).

(** [currentPath.split('/').slice(0, -1).join('/')]: the path without its
    last segment. *)
Definition parentPath (currentPath : string) : string :=
  Str.join "/" (removelast (Str.split "/"%char currentPath)).

(** [getAuthHeaders]: the Authorization field, from persisted storage only. *)
Definition getAuthHeaders : M (option string) :=
  token ← getItem "github_token";
  mret (if truthy token then token else None).

Definition v3_json : string := "application/vnd.github.v3+json".

Definition named (n : string) (b : Branch) : bool := String.eqb (branch_name b) n.

(** [data.find(b => b.name === 'main') || data.find(b => b.name === 'master') || data[0]];
    [None] is [undefined]. *)
Definition defaultBranch (data : list Branch) : option Branch :=
  match List.find (named "main") data with
  | Some b => Some b
  | None =>
      match List.find (named "master") data with
      | Some b => Some b
      | None => head data
      end
  end.

(** [atob], throwing. *)
Definition atob_js (x : string) : M string :=
  match Base64.atob x with
  | Some s => mret s
  | None => mthrow (InvalidCharacterError "The string to be decoded is not correctly encoded.")
  end.

(** The decode step of [fetchFileContent], on the parsed metadata [data]. *)
Definition decodeContent (file data : RepoContent) : M string :=
  if bool_decide (rc_encoding data = Some "base64") && truthy (rc_content data) then
    atob_js (Str.remove_char "010"%char (default "" (rc_content data)))
  else
    match rc_content data with
    | Some content => mret content
    | None => mret ("Could not decode or retrieve content for " +:+ rc_name file)
    end.

(** *** [processMarkdownContent] *)

(** The longest prefix without the character [c], and what follows it. *)
Fixpoint span_not (c : ascii) (s : string) : string * string :=
  match s with
  | EmptyString => (EmptyString, EmptyString)
  | String d s' =>
      if Ascii.eqb d c then (EmptyString, s)
      else let '(a, r) := span_not c s' in (String d a, r)
  end.

(** A match of the image pattern at the start of [s]: an exclamation mark
    and an opening bracket, a run of characters other than the closing
    bracket (first capture), the closing bracket and an opening parenthesis
    not followed by http (negative lookahead), a run of characters other
    than the closing parenthesis (second capture), the closing parenthesis.
    The result is the two captures and the text after the match.  The runs
    are greedy, and what follows each of them is the character the run
    excludes, so the only run that can lead to a match is the longest one. *)
Definition match_image (s : string) : option (string * string * string) :=
  match s with
  | String c1 (String c2 s1) =>
      if Ascii.eqb c1 "!"%char && Ascii.eqb c2 "["%char then
        let '(alt, s2) := span_not "]"%char s1 in
        match s2 with
        | String c3 (String c4 s3) =>
            if Ascii.eqb c3 "]"%char && Ascii.eqb c4 "("%char then
              if Str.startsWith "http" s3 then None
              else
                let '(path, s4) := span_not ")"%char s3 in
                match s4 with
                | String c5 rest =>
                    if Ascii.eqb c5 ")"%char then Some (alt, path, rest) else None
                | EmptyString => None
                end
            else None
        | _ => None
        end
      else None
  | _ => None
  end.

(** The value of a decimal digit. *)
Definition digit (c : ascii) : option nat :=
  if Ascii.eqb c "0"%char then Some 0
  else if Ascii.eqb c "1"%char then Some 1
  else if Ascii.eqb c "2"%char then Some 2
  else if Ascii.eqb c "3"%char then Some 3
  else if Ascii.eqb c "4"%char then Some 4
  else if Ascii.eqb c "5"%char then Some 5
  else if Ascii.eqb c "6"%char then Some 6
  else if Ascii.eqb c "7"%char then Some 7
  else if Ascii.eqb c "8"%char then Some 8
  else if Ascii.eqb c "9"%char then Some 9
  else None.

(** The [n]th capture, for [1 <= n <= captures.length]. *)
Definition capture (captures : list string) (n : nat) : option string :=
  match n with
  | 0 => None
  | S k => nth_error captures k
  end.

(** The replacement text for one match (GetSubstitution of ECMA-262), for a
    pattern without named groups: [$$], [$&], [$`], [$'], [$n] and [$nn]
    are replacement patterns, any other [$] is literal. *)
Fixpoint expand (template : string) (captures : list string)
    (matched before after : string) : string :=
  match template with
  | EmptyString => EmptyString
  | String c t =>
      if negb (Ascii.eqb c "$"%char) then String c (expand t captures matched before after)
      else
        match t with
        | EmptyString => "$"
        | String d t' =>
            if Ascii.eqb d "$"%char then String "$"%char (expand t' captures matched before after)
            else if Ascii.eqb d "&"%char then matched +:+ expand t' captures matched before after
            else if Ascii.eqb d "`"%char then before +:+ expand t' captures matched before after
            else if Ascii.eqb d "'"%char then after +:+ expand t' captures matched before after
            else
              match digit d with
              | Some n =>
                  let one :=
                    match capture captures n with
                    | Some g => g +:+ expand t' captures matched before after
                    | None => String "$"%char (expand t captures matched before after)
                    end in
                  match t' with
                  | String e t'' =>
                      match digit e with
                      | Some k =>
                          match capture captures (10 * n + k) with
                          | Some g => g +:+ expand t'' captures matched before after
                          | None => one
                          end
                      | None => one
                      end
                  | EmptyString => one
                  end
              | None => String "$"%char (expand t captures matched before after)
              end
        end
  end.

(** [content.replace(regex, template)] with the global flag: the matches are
    searched from left to right and do not overlap; [skip] counts the
    characters of the current match still to pass over, [before] holds the
    text already passed, latest character first. *)
Fixpoint replace_images (template : string) (before : list ascii) (skip : nat)
    (s : string) : string :=
  match s with
  | EmptyString => EmptyString
  | String c s' =>
      match skip with
      | S k => replace_images template (c :: before) k s'
      | 0 =>
          match match_image s with
          | Some (alt, path, rest) =>
              let matched := "![" +:+ alt +:+ "](" +:+ path +:+ ")" in
              expand template [alt; path] matched (Str.of_chars (rev before)) rest
                +:+ replace_images template (c :: before) (String.length matched - 1) s'
          | None => String c (replace_images template (c :: before) 0 s')
          end
      end
  end.

Section Component.
(** The props of the component. *)
Variables username repoName : string.

Definition image_template (currentBranch : string) : string :=
  "![$1](https://raw.githubusercontent.com/" +:+ username +:+ "/" +:+ repoName
    +:+ "/" +:+ currentBranch +:+ "/$2)".

Definition processMarkdownContent (currentBranch content : string) : string :=
  replace_images (image_template currentBranch) [] 0 content.

Variable branches_provider : Provider (list Branch).
Variable contents_provider : Provider (Contents RepoContent).
Variable file_provider : Provider RepoContent.

(** The component's callbacks read the state captured by the render that
    created them ([captured]) and write through the setters. *)
Definition fetchBranches (captured : ViewerState) : M unit :=
  try_catch
    (headers ← getAuthHeaders;
     response ← fetch branches_provider
       ("https://api.github.com/repos/" +:+ username +:+ "/" +:+ repoName +:+ "/branches")
       v3_json headers;
     if negb (ok response) then mthrow (Error "Failed to fetch branches")
     else
       data ← json_of response;
       setBranches data;;
       if String.eqb (currentBranch captured) "main" && (0 <? length data) then
         match defaultBranch data with
         | Some b => setCurrentBranch (branch_name b)
         | None => mthrow (TypeError "Cannot read properties of undefined (reading 'name')")
         end
       else mret tt)
    (fun err => mret tt).

Definition fetchFileContent (file : RepoContent) : M unit :=
  try_finally
    (try_catch
       (setLoading true;;
        content ←
          try_catch
            (headers ← getAuthHeaders;
             response ← fetch file_provider (default "undefined" (rc_url file)) v3_json headers;
             if negb (ok response) then
               mthrow (Error ("Failed to fetch file details for " +:+ rc_name file))
             else
               data ← json_of response;
               decodeContent file data)
            (fun jsonError =>
               headers ← getAuthHeaders;
               textResponse ← fetch file_provider (default "undefined" (rc_url file)) v3_json headers;
               if negb (ok textResponse) then
                 mthrow (Error ("Failed to fetch plain text content for " +:+ rc_name file))
               else mret (text_body textResponse));
        setFileContent content;;
        setSelectedFile (Some file))
       (fun err =>
          setError (Some (exn_message err));;
          setSelectedFile None))
    (setLoading false).

Definition is_readme (item : RepoContent) : bool :=
  String.eqb (rc_type item) "file" && Str.startsWith "readme" (Str.toLowerCase (rc_name item)).

(** The call [fetchFileContent(readmeFile)] is not awaited: it runs to its
    first [await], and resumes after this function has finished.  Its
    writes after that point are the last ones, as they are when the call
    is run to completion where it is made. *)
Definition fetchRepoContents (captured : ViewerState) : M unit :=
  try_finally
   (try_catch
    (setLoading true;;
     setSelectedFile None;;
     setFileContent "";;
     headers ← getAuthHeaders;
     response ← fetch contents_provider
       ("https://api.github.com/repos/" +:+ username +:+ "/" +:+ repoName +:+ "/contents/"
          +:+ currentPath captured +:+ "?ref=" +:+ currentBranch captured)
       v3_json headers;
     if negb (ok response) then mthrow (Error "Failed to fetch repository contents")
     else
       data ← json_of response;
       let contents := match data with
                       | IsArray items => items
                       | IsObject item => [item]
                       end in
       setContents contents;;
       if String.eqb (currentPath captured) "" && negb (bool_decide (is_Some (selectedFile captured))) then
         match List.find is_readme contents with
         | Some readmeFile => fetchFileContent readmeFile
         | None => mret tt
         end
       else mret tt)
    (fun err => setError (Some (exn_message err))))
   (setLoading false).

Definition navigateToFolder (path : string) : M unit :=
  setCurrentPath path.

(** [goBack] reads the state of the render it belongs to ([captured]).  The
    [fetchRepoContents] it calls is the memoized callback, which carries
    the state of the render that created it ([memo]): the same path and
    branch, since these are its dependencies, and possibly an older
    selection.  The call is not awaited; it is the last statement. *)
Definition goBack (captured memo : ViewerState) : M unit :=
  if truthy (error captured) then
    setError None;;
    if bool_decide (is_Some (selectedFile captured)) then
      setSelectedFile None;;
      setFileContent ""
    else fetchRepoContents memo
  else if bool_decide (is_Some (selectedFile captured)) then
    setSelectedFile None;;
    setFileContent ""
  else
    setCurrentPath (parentPath (currentPath captured)).

Definition handleItemClick (item : RepoContent) : M unit :=
  if String.eqb (rc_type item) "dir" then navigateToFolder (rc_path item)
  else fetchFileContent item.

Definition toggleSidebar (captured : ViewerState) : M unit :=
  setIsSidebarCollapsed (negb (isSidebarCollapsed captured)).

Definition toggleBranchSelector (captured : ViewerState) : M unit :=
  setShowBranchSelector (negb (showBranchSelector captured)).

Definition changeBranch (branchName : string) : M unit :=
  setCurrentBranch branchName;;
  setCurrentPath "";;
  setSelectedFile None;;
  setFileContent "";;
  setShowBranchSelector false.
End Component.

End Viewer.

(** ** [ReadmeViewer.tsx] *)

Module Readme.

Definition setReadme (v : string) : M unit :=
  modify (set_readme_view (fun st =>
    {| readme := v; readme_loading := readme_loading st; readme_error := readme_error st |})).

Definition setLoading (v : bool) : M unit :=
  modify (set_readme_view (fun st =>
    {| readme := readme st; readme_loading := v; readme_error := readme_error st |})).

Definition setError (v : option string) : M unit :=
  modify (set_readme_view (fun st =>
    {| readme := readme st; readme_loading := readme_loading st; readme_error := v |})).

Definition dquote : string := String "034"%char EmptyString.

Section Component.
Variable username : string.
(** The README is read with [response.text()]; the JSON view is unused. *)
Variable provider : Provider unit.
(** The three presentation rewrites applied to the fetched HTML (anchors,
    images, preformatted blocks); nothing below depends on them. *)
Variable enhanceHtml : string -> string.

(** The retries [fetchReadme(); return;] are not awaited; as in the
    viewer, running them to completion in place leaves the same final
    state, since the only statement after them is [setLoading(false)],
    which each call ends with. *)
Fixpoint fetchReadme (fuel : nat) : M unit :=
  match fuel with
  | 0 => diverge
  | S fuel' =>
      try_finally
        (try_catch
           (setLoading true;;
            setError None;;
            headers ← GitHub.createHeaders;
            response ← fetch provider
              ("https://api.github.com/repos/" +:+ username +:+ "/" +:+ username +:+ "/readme")
              "application/vnd.github.v3.html" headers;
            if negb (ok response) then
              if (status response =? 401) || (status response =? 403) then
                try_catch
                  (GitHub.handleApiError response;;
                   fetchReadme fuel')
                  (fun authError => mthrow authError)
              else mthrow (Error ("GitHub API error: " +:+ pretty (status response)))
            else setReadme (enhanceHtml (text_body response)))
           (fun error =>
              let errorMessage := exn_message error in
              returned ←
                (if Str.includes "404" errorMessage then
                   setError (Some "README not found. This user may not have a profile README.");;
                   mret false
                 else if Str.includes "401" errorMessage || Str.includes "403" errorMessage then
                   token ← GitHub.getGitHubToken;
                   retried ←
                     (if negb (truthy token) then
                        newToken ← prompt;
                        if truthy newToken then
                          GitHub.setGitHubToken (default "" newToken);;
                          fetchReadme fuel';;
                          mret true
                        else mret false
                      else mret false);
                   if retried : bool then mret true
                   else
                     setError (Some "Authentication error. Please try logging in with a GitHub token.");;
                     mret false
                 else
                   setError (Some ("Failed to load README: " +:+ errorMessage));;
                   mret false);
              if returned : bool then mret tt
              else setReadme ("<div class=" +:+ dquote +:+ "readme-error" +:+ dquote +:+ ">"
                                +:+ errorMessage +:+ "</div>")))
        (setLoading false)
  end.
End Component.

(** *** The three rewrites of the fetched HTML *)

(** A pattern character against a character of the text under the [i]
    flag.  The patterns below hold lower-case letters and ASCII symbols
    only. *)
Definition ci (x c : ascii) : bool := Ascii.eqb (Str.lower_char c) x.

(** The pattern [p], case-insensitively, at the start of [s]: what follows
    the match. *)
Fixpoint ci_prefix (p s : string) : option string :=
  match p with
  | EmptyString => Some s
  | String x p' =>
      match s with
      | EmptyString => None
      | String c s' => if ci x c then ci_prefix p' s' else None
      end
  end.

(** [s.replace(regex, ...)] with the global flag, for a pattern that never
    matches the empty string: [matcher s] gives, for a match at the start of
    [s], the text that replaces it and the number of characters matched;
    [skip] counts the characters of the current match still to pass over. *)
Fixpoint gsub (matcher : string -> option (string * nat)) (skip : nat) (s : string) : string :=
  match s with
  | EmptyString => EmptyString
  | String c s' =>
      match skip with
      | S k => gsub matcher k s'
      | 0 =>
          match matcher s with
          | Some (replacement, n) => replacement +:+ gsub matcher (n - 1) s'
          | None => String c (gsub matcher 0 s')
          end
      end
  end.

(** A word character of a regular expression. *)
Definition is_word (c : ascii) : bool :=
  let n := nat_of_ascii c in
  ((48 <=? n) && (n <=? 57)) || ((65 <=? n) && (n <=? 90)) || (n =? 95)
  || ((97 <=? n) && (n <=? 122)).

Definition is_quote (c : ascii) : bool :=
  Ascii.eqb c "'"%char || Ascii.eqb c "034"%char.

(** The text target= then a quote, _blank and the same quote again (the
    back-reference), at the start of [s]. *)
Definition target_blank_here (s : string) : bool :=
  match ci_prefix "target=" s with
  | Some (String q s1) =>
      is_quote q &&
      match ci_prefix "_blank" s1 with
      | Some (String q' _) => Ascii.eqb q' q
      | _ => false
      end
  | _ => false
  end.

(** The body of the negative lookahead at a position preceded by [prev]: a
    run of characters other than the closing angle bracket, a word
    boundary, and the target text.  The target text starts with a word
    character, so the boundary holds when the character before it is not
    one. *)
Fixpoint lookahead (prev : ascii) (s : string) : bool :=
  (negb (is_word prev) && target_blank_here s)
  || match s with
     | EmptyString => false
     | String c s' => if Ascii.eqb c ">"%char then false else lookahead c s'
     end.

(** The ways the run of white space after the tag name can be matched, the
    longest first: whether one of them is followed by a text on which the
    lookahead fails.  [prev] is the last white space character taken. *)
Fixpoint some_attempt_passes (prev : ascii) (s : string) : bool :=
  match s with
  | String c s' =>
      (Str.is_js_space c && some_attempt_passes c s') || negb (lookahead prev s)
  | EmptyString => negb (lookahead prev s)
  end.

Definition anchor_attributes : string :=
  "a target=" +:+ dquote +:+ "_blank" +:+ dquote +:+ " rel=" +:+ dquote
    +:+ "noopener noreferrer" +:+ dquote +:+ " ".

(** The callback [(match) => match.replace(/<a\s/, ...)]: the first place
    in the matched text where an opening angle bracket, a lower-case a and
    a white space character follow each other is replaced. *)
Fixpoint add_target (matched : string) : string :=
  match matched with
  | EmptyString => EmptyString
  | String c0 rest0 =>
      match rest0 with
      | String c1 (String c2 rest) =>
          if Ascii.eqb c0 "<"%char && Ascii.eqb c1 "a"%char && Str.is_js_space c2
          then "<" +:+ anchor_attributes +:+ rest
          else String c0 (add_target rest0)
      | _ => matched
      end
  end.

(** A match of the anchor pattern at the start of [s]: an opening angle
    bracket, the letter a, a run of white space after which the lookahead
    fails, and everything up to the first closing angle bracket. *)
Definition match_anchor (s : string) : option (string * nat) :=
  match s with
  | String c0 (String c1 (String c2 rest)) =>
      if Ascii.eqb c0 "<"%char && ci "a" c1 && Str.is_js_space c2 then
        let '(attributes, tail) := Viewer.span_not ">"%char (String c2 rest) in
        match tail with
        | String _ _ =>
            if some_attempt_passes c2 rest then
              let matched := String c0 (String c1 attributes) +:+ ">" in
              Some (add_target matched, String.length matched)
            else None
        | EmptyString => None
        end
      else None
  | _ => None
  end.

Definition img_attributes : string :=
  "img class=" +:+ dquote +:+ "readme-img" +:+ dquote +:+ " ".

(** A match of the image pattern: the tag name and one white space
    character. *)
Definition match_img (s : string) : option (string * nat) :=
  match s with
  | String c0 s1 =>
      if Ascii.eqb c0 "<"%char then
        match ci_prefix "img" s1 with
        | Some (String c4 _) =>
            if Str.is_js_space c4 then Some ("<" +:+ img_attributes, 5) else None
        | _ => None
        end
      else None
  | EmptyString => None
  end.

Definition pre_attributes : string :=
  "pre class=" +:+ dquote +:+ "code-block" +:+ dquote.

(** A match of the pattern for a bare preformatted block. *)
Definition match_pre (s : string) : option (string * nat) :=
  match s with
  | String c0 s1 =>
      if Ascii.eqb c0 "<"%char then
        match ci_prefix "pre>" s1 with
        | Some _ => Some ("<" +:+ pre_attributes +:+ ">", 5)
        | None => None
        end
      else None
  | EmptyString => None
  end.

(** The HTML shown for a fetched README: anchors, then images, then
    preformatted blocks. *)
Definition processHtml (html : string) : string :=
  gsub match_pre 0 (gsub match_img 0 (gsub match_anchor 0 html)).

End Readme.

(** ** [ProjectCard.tsx] *)

Module ProjectCard.


End ProjectCard.

(** ** [ProjectList.tsx] *)

Module ProjectList.

(** [interface Project extends Repository] *)
Record Project := {
  repository : Repository;
  hasHtmlFile : bool;
  primaryLanguage : option string;        (* optional *)
  hasPackageJson : bool;
  packageJsonHomepage : option string
}.

Definition name (project : Project) : string := repo_name (repository project).
Definition language (project : Project) : option string := repo_language (repository project).
Definition description (project : Project) : option string :=
  repo_description (repository project).
Definition topics (project : Project) : list string := repo_topics (repository project).

(** [a || b] on values of type [string | null]. *)
Definition or_else (a b : option string) : option string :=
  if truthy a then a else b.

(** The record [loadProjects] builds for a repository from the results of
    the three probes, with
    [primaryLanguage: primaryLanguage || repo.language || 'Unknown']. *)
Definition enhanced (repo : Repository) (hasHtml : bool) (detected : string)
    (packageJsonInfo : GitHub.PackageJsonInfo) : Project :=
  {| repository := repo;
     hasHtmlFile := hasHtml;
     primaryLanguage := or_else (Some detected) (or_else (repo_language repo) (Some "Unknown"));
     hasPackageJson := GitHub.hasPackageJson packageJsonInfo;
     packageJsonHomepage := GitHub.packageJsonHomepage packageJsonInfo |}.

(** The record built when processing the repository threw. *)
Definition unprobed (repo : Repository) : Project :=
  {| repository := repo;
     hasHtmlFile := false;
     primaryLanguage := or_else (repo_language repo) (Some "Unknown");
     hasPackageJson := false;
     packageJsonHomepage := None |}.

(** [langSet.add(x)]: a [Set] keeps the order of insertion and ignores a
    value it already holds. *)
Definition add (x : string) (langSet : list string) : list string :=
  if existsb (String.eqb x) langSet then langSet else langSet ++ [x].

Definition collect (langSet : list string) (project : Project) : list string :=
  let langSet :=
    if truthy (language project) then add (default "" (language project)) langSet
    else langSet in
  if truthy (primaryLanguage project)
     && negb (bool_decide (primaryLanguage project = language project))
  then add (default "" (primaryLanguage project)) langSet
  else langSet.

(** The [languages] memo: the filter buttons. *)
Definition languages (projects : list Project) : list string :=
  List.filter Str.nonempty ("all" :: fold_left collect projects []).

Definition matchesLanguage (filter : string) (project : Project) : bool :=
  String.eqb filter "all"
  || bool_decide (language project = Some filter)
  || bool_decide (primaryLanguage project = Some filter).

Definition matchesSearch (searchTerm : string) (project : Project) : bool :=
  negb (Str.nonempty searchTerm)
  || Str.includes (Str.toLowerCase searchTerm) (Str.toLowerCase (name project))
  || (truthy (description project)
      && Str.includes (Str.toLowerCase searchTerm)
           (Str.toLowerCase (default "" (description project))))
  || existsb (fun topic => Str.includes (Str.toLowerCase searchTerm) (Str.toLowerCase topic))
       (topics project).

(** The [filteredProjects] memo. *)
Definition filteredProjects (filter searchTerm : string) (projects : list Project) : list Project :=
  List.filter (fun project => matchesLanguage filter project && matchesSearch searchTerm project)
    projects.

(** What a project contributes to the set of languages: a non-empty name
    that is its language or its primary language. *)
Definition speaks (project : Project) (lang : string) : Prop :=
  Str.nonempty lang = true
  /\ (language project = Some lang \/ primaryLanguage project = Some lang).

(** The props [ProjectList] passes to the card of a project:
    [language={project.language || project.primaryLanguage || 'Unknown'}] *)
Definition cardLanguage (project : Project) : string :=
  default "" (or_else (language project) (or_else (primaryLanguage project) (Some "Unknown"))).

End ProjectList.

(** ** [ProfileSidebar.tsx]: the links and their order *)

Module Sidebar.

Record CustomLink := {
  icon : string;
  url : string;
  title : string;
  order : Z
}.

(** The link objects are shared between the arrays of the component and
    written in place, so the arrays hold references into a store of
    objects; [allocated] is the next free reference.  The three refs of the
    drag gesture and the part of the browser the handlers use (persisted
    storage, the coming prompt answers) complete the state.  The animations
    the handlers start are left out; they write nothing of this state. *)
Record State := {
  objects : nat -> CustomLink;
  allocated : nat;
  socialLinks : list nat;
  customLinks : list nat;
  savedLinkOrder : list (string * Z);
  dragItem : option nat;
  dragOverItem : option nat;
  isDragging : bool;
  storage : gmap string string;
  answers : list (option string)
}.

Definition set_objects (v : nat -> CustomLink) (n : nat) (st : State) : State :=
  {| objects := v; allocated := n; socialLinks := socialLinks st; customLinks := customLinks st;
     savedLinkOrder := savedLinkOrder st; dragItem := dragItem st; dragOverItem := dragOverItem st;
     isDragging := isDragging st; storage := storage st; answers := answers st |}.

Definition setSocialLinks (v : list nat) (st : State) : State :=
  {| objects := objects st; allocated := allocated st; socialLinks := v; customLinks := customLinks st;
     savedLinkOrder := savedLinkOrder st; dragItem := dragItem st; dragOverItem := dragOverItem st;
     isDragging := isDragging st; storage := storage st; answers := answers st |}.

Definition setCustomLinks (v : list nat) (st : State) : State :=
  {| objects := objects st; allocated := allocated st; socialLinks := socialLinks st; customLinks := v;
     savedLinkOrder := savedLinkOrder st; dragItem := dragItem st; dragOverItem := dragOverItem st;
     isDragging := isDragging st; storage := storage st; answers := answers st |}.

Definition setSavedLinkOrder (v : list (string * Z)) (st : State) : State :=
  {| objects := objects st; allocated := allocated st; socialLinks := socialLinks st;
     customLinks := customLinks st;
     savedLinkOrder := v; dragItem := dragItem st; dragOverItem := dragOverItem st;
     isDragging := isDragging st; storage := storage st; answers := answers st |}.

Definition set_drag (item over : option nat) (dragging : bool) (st : State) : State :=
  {| objects := objects st; allocated := allocated st; socialLinks := socialLinks st;
     customLinks := customLinks st;
     savedLinkOrder := savedLinkOrder st; dragItem := item; dragOverItem := over;
     isDragging := dragging; storage := storage st; answers := answers st |}.

Definition setItem (key value : string) (st : State) : State :=
  {| objects := objects st; allocated := allocated st; socialLinks := socialLinks st;
     customLinks := customLinks st;
     savedLinkOrder := savedLinkOrder st; dragItem := dragItem st; dragOverItem := dragOverItem st;
     isDragging := isDragging st; storage := <[key := value]> (storage st); answers := answers st |}.

Definition set_answers (v : list (option string)) (st : State) : State :=
  {| objects := objects st; allocated := allocated st; socialLinks := socialLinks st;
     customLinks := customLinks st;
     savedLinkOrder := savedLinkOrder st; dragItem := dragItem st; dragOverItem := dragOverItem st;
     isDragging := isDragging st; storage := storage st; answers := v |}.

(** [prompt(...)] *)
Definition prompt (st : State) : option string * State :=
  match answers st with
  | [] => (None, st)
  | a :: rest => (a, set_answers rest st)
  end.

(** *** [getLinkIcon] *)

Definition svg (family name : string) : string :=
  "https://cdn.jsdelivr.net/npm/@fortawesome/fontawesome-free@6.0.0-beta3/svgs/"
    +:+ family +:+ "/" +:+ name +:+ ".svg".

Definition getLinkIcon (url : string) : string :=
  let lowerUrl := Str.toLowerCase url in
  let includes p := Str.includes p lowerUrl in
  if includes "twitter.com" || includes "x.com" then svg "brands" "twitter"
  else if includes "github.com" then svg "brands" "github"
  else if includes "linkedin.com" then svg "brands" "linkedin"
  else if includes "instagram.com" then svg "brands" "instagram"
  else if includes "facebook.com" then svg "brands" "facebook"
  else if includes "medium.com" then svg "brands" "medium"
  else if includes "dev.to" then svg "brands" "dev"
  else if includes "stackoverflow.com" then svg "brands" "stack-overflow"
  else if includes "gitlab.com" then svg "brands" "gitlab"
  else if includes "bitbucket.org" then svg "brands" "bitbucket"
  else if includes "youtube.com/watch" then svg "solid" "play"
  else if includes "youtube.com/c/" && includes "sub_confirmation=1" then svg "solid" "bell"
  else if includes "youtube.com/channel" || includes "youtube.com/c/" || includes "youtube.com/@"
       then svg "solid" "user"
  else if includes "youtube.com" then svg "brands" "youtube"
  else if includes "discord.com" || includes "discord.gg" then svg "brands" "discord"
  else if includes "devfolio.co" then svg "brands" "dev"
  else if includes "unstop.com" then svg "solid" "bolt"
  else if Str.startsWith "mailto:" lowerUrl || includes "@" then svg "solid" "envelope"
  else svg "solid" "globe".

(** *** The order of the links *)

(** [orderMap[key] = value] on an object literal: an own property keeps its
    place, a new one is added last. *)
Fixpoint assign (key : string) (value : Z) (orderMap : list (string * Z)) : list (string * Z) :=
  match orderMap with
  | [] => [(key, value)]
  | (k, v) :: rest =>
      if String.eqb k key then (k, value) :: rest else (k, v) :: assign key value rest
  end.

(** The key __proto__ names the prototype, not an own property; giving it a
    number changes nothing. *)
Definition set_property (key : string) (value : Z) (orderMap : list (string * Z))
    : list (string * Z) :=
  if String.eqb key "__proto__" then orderMap else assign key value orderMap.

(** [links.forEach((link, index) => { orderMap[link.url] = index })] *)
Fixpoint orderMapOf (objects : nat -> CustomLink) (index : nat) (links : list nat)
    (orderMap : list (string * Z)) : list (string * Z) :=
  match links with
  | [] => orderMap
  | link :: rest =>
      orderMapOf objects (S index) rest
        (set_property (url (objects link)) (Z.of_nat index) orderMap)
  end.

(** [array.splice(start, 1)] and [array.splice(start, 0, item)]; a start
    beyond the end is the end. *)
Definition splice_remove {A} (start : nat) (array : list A) : list A :=
  take start array ++ drop (S start) array.

Definition splice_insert {A} (start : nat) (item : A) (array : list A) : list A :=
  take start array ++ item :: drop start array.

(** [link.order = index] *)
Definition set_order (link index : nat) (objects : nat -> CustomLink) : nat -> CustomLink :=
  fun r =>
    if Nat.eqb r link then
      {| icon := icon (objects r); url := url (objects r); title := title (objects r);
         order := Z.of_nat index |}
    else objects r.

(** [newLinks.forEach((link, index) => { link.order = index })]: the
    assignments are made in order, up to the first element that is
    [undefined] ([None]), where the loop throws; the flag tells whether it
    ran to the end. *)
Fixpoint renumber (index : nat) (links : list (option nat)) (objects : nat -> CustomLink)
    : bool * (nat -> CustomLink) :=
  match links with
  | [] => (true, objects)
  | None :: _ => (false, objects)
  | Some link :: rest => renumber (S index) rest (set_order link index objects)
  end.

Definition same_url (objects : nat -> CustomLink) (a b : nat) : bool :=
  String.eqb (url (objects b)) (url (objects a)).

(** [customLinks.map(customLink => matchingLink ? { ...customLink, order:
    matchingLink.order } : customLink)]: a copy is a new object. *)
Fixpoint updateCustomLinks (newLinks customLinks : list nat)
    (objects : nat -> CustomLink) (allocated : nat)
    : list nat * (nat -> CustomLink) * nat :=
  match customLinks with
  | [] => ([], objects, allocated)
  | customLink :: rest =>
      match List.find (same_url objects customLink) newLinks with
      | Some matchingLink =>
          let copy := {| icon := icon (objects customLink); url := url (objects customLink);
                         title := title (objects customLink);
                         order := order (objects matchingLink) |} in
          let '(updated, objects', allocated') :=
            updateCustomLinks newLinks rest
              (fun r => if Nat.eqb r allocated then copy else objects r) (S allocated) in
          (allocated :: updated, objects', allocated')
      | None =>
          let '(updated, objects', allocated') :=
            updateCustomLinks newLinks rest objects allocated in
          (customLink :: updated, objects', allocated')
      end
  end.

Section Component.
(** [JSON.stringify] on the order map, on an array of links and on a value
    read back from storage, and [JSON.parse] ([None]: a SyntaxError). *)
Variable stringify_order : list (string * Z) -> string.
Variable stringify_links : list CustomLink -> string.
Variable JSON_stringify : json -> string.
Variable JSON_parse : string -> option json.

Definition saveLinkOrder (links : list nat) (st : State) : State :=
  let orderMap := orderMapOf (objects st) 0 links [] in
  setSavedLinkOrder orderMap (setItem "linkOrder" (stringify_order orderMap) st).

Definition handleDragStart (index : nat) (st : State) : State :=
  set_drag (Some index) (dragOverItem st) true st.

Definition handleDragEnter (index : nat) (st : State) : State :=
  if negb (isDragging st) || bool_decide (dragItem st = Some index) then st
  else set_drag (dragItem st) (Some index) (isDragging st) st.

(** The handlers read [socialLinks] and [customLinks] from the render that
    created them (the first two arguments), and the refs and the objects
    from the state as it is. *)
Definition handleDragEnd (socialLinks customLinks : list nat) (st : State) : Outcome unit * State :=
  if negb (isDragging st) then (Returned tt, st)
  else
    let st := set_drag (dragItem st) (dragOverItem st) false st in
    match dragItem st, dragOverItem st with
    | Some item, Some over =>
        if negb (item =? over) then
          let draggedItem := socialLinks !! item in
          let newLinks :=
            splice_insert over draggedItem (splice_remove item (map Some socialLinks)) in
          match renumber 0 newLinks (objects st) with
          | (false, objects1) =>
              (Thrown (TypeError "Cannot set properties of undefined (setting 'order')"),
               set_objects objects1 (allocated st) st)
          | (true, objects1) =>
              let newLinks := omap id newLinks in
              let st := setSocialLinks newLinks (set_objects objects1 (allocated st) st) in
              let st := saveLinkOrder newLinks st in
              let '(updatedCustomLinks, objects2, allocated2) :=
                updateCustomLinks newLinks customLinks (objects st) (allocated st) in
              let st := set_objects objects2 allocated2 st in
              let st :=
                if negb (String.eqb (stringify_links (map (objects st) updatedCustomLinks))
                                    (stringify_links (map (objects st) customLinks)))
                then setItem "customLinks"
                       (stringify_links (map (objects st) updatedCustomLinks))
                       (setCustomLinks updatedCustomLinks st)
                else st in
              (Returned tt, set_drag None None (isDragging st) st)
          end
        else (Returned tt, set_drag None None (isDragging st) st)
    | _, _ => (Returned tt, set_drag None None (isDragging st) st)
    end.

Definition handleDrop (socialLinks customLinks : list nat) (index : nat) (st : State)
    : Outcome unit * State :=
  handleDragEnd socialLinks customLinks (set_drag (dragItem st) (Some index) (isDragging st) st).

Definition addCustomLink (socialLinks customLinks : list nat) (st : State) : State :=
  let '(url, st) := prompt st in
  let '(title, st) := prompt st in
  if truthy url && truthy title then
    let newUrl := if Str.startsWith "http" (default "" url) then default "" url
                  else "https://" +:+ default "" url in
    let newLink := {| icon := getLinkIcon newUrl; url := newUrl; title := default "" title;
                      order := Z.of_nat (length socialLinks) |} in
    let reference := allocated st in
    let st := set_objects (fun r => if Nat.eqb r reference then newLink else objects st r)
                (S reference) st in
    let updatedLinks := customLinks ++ [reference] in
    let st := setItem "customLinks" (stringify_links (map (objects st) updatedLinks))
                (setCustomLinks updatedLinks st) in
    let updatedSocialLinks := socialLinks ++ [reference] in
    saveLinkOrder updatedSocialLinks (setSocialLinks updatedSocialLinks st)
  else st.

Definition has_url (objects : nat -> CustomLink) (u : string) (link : nat) : bool :=
  String.eqb (url (objects link)) u.

(** [[...value]]: the elements of an array, the characters of a string; any
    other parsed value is not iterable. *)
Definition spread (value : json) : option (list json) :=
  match value with
  | JArr elements => Some elements
  | JStr text => Some (map (fun c => JStr (String c EmptyString)) (Str.chars text))
  | _ => None
  end.

(** The first half of [removeLink]: a custom link is deleted, any other
    link is added to the hidden links in storage. *)
Definition forget (customLinks : list nat) (u : string) (st : State) : Outcome unit * State :=
  if existsb (has_url (objects st) u) customLinks then
    let updatedLinks := List.filter (fun link => negb (has_url (objects st) u link)) customLinks in
    (Returned tt,
     setItem "customLinks" (stringify_links (map (objects st) updatedLinks))
       (setCustomLinks updatedLinks st))
  else
    match JSON_parse (default "[]" (if truthy (storage st !! "hiddenLinks")
                                    then storage st !! "hiddenLinks" else None)) with
    | None => (Thrown (SyntaxError "Unexpected token in JSON"), st)
    | Some hiddenLinks =>
        match spread hiddenLinks with
        | None => (Thrown (TypeError "hiddenLinks is not iterable"), st)
        | Some elements =>
            (Returned tt,
             setItem "hiddenLinks" (JSON_stringify (JArr (elements ++ [JStr u]))) st)
        end
    end.

Definition removeLink (socialLinks customLinks : list nat) (u : string) (st : State)
    : Outcome unit * State :=
  match forget customLinks u st with
  | (Returned _, st) =>
      let updatedSocialLinks :=
        List.filter (fun link => negb (has_url (objects st) u link)) socialLinks in
      (Returned tt, saveLinkOrder updatedSocialLinks (setSocialLinks updatedSocialLinks st))
  | failure => failure
  end.
End Component.

End Sidebar.

(** ** Observations on a world, and concrete scenarios *)

Module Observe.

(** The credential [getGitHubToken] yields in a world. *)
Definition token_of (w : World) : option string :=
  if truthy (env_token w) then env_token w else localStorage w !! "github_token".

(** The Authorization field [createHeaders] produces in a world. *)
Definition bearer (w : World) : option string :=
  if truthy (token_of w) then token_of w else None.

(** The Authorization field [getAuthHeaders] produces in a world. *)
Definition stored_bearer (w : World) : option string :=
  if truthy (localStorage w !! "github_token") then localStorage w !! "github_token" else None.

Definition request (url accept : string) (authorization : option string) : Request :=
  {| req_url := url; req_accept := accept; req_authorization := authorization |}.

(** The world once one more request has been issued. *)
Definition issued (req : Request) (w : World) : World :=
  set_requests (requests w ++ [req]) w.

(** What the provider answers to the request a world issues next. *)
Definition answer {A} (provider : Provider A) (w : World) (req : Request) : FetchResult A :=
  provider (length (requests w)) req.

(** The address of the repository listing. *)
Definition repos_url (username : string) : string :=
  GitHub.GITHUB_API_BASE +:+ "/users/" +:+ username +:+ "/repos?sort=updated&per_page=100".

(** The addresses of the content requests of [services/github.ts]. *)
Definition index_url (username repoName : string) : string :=
  GitHub.GITHUB_API_BASE +:+ "/repos/" +:+ username +:+ "/" +:+ repoName +:+ "/contents/index.html".

Definition root_url (username repoName : string) : string :=
  GitHub.GITHUB_API_BASE +:+ "/repos/" +:+ username +:+ "/" +:+ repoName +:+ "/contents".

Definition contents_url (username repoName path : string) : string :=
  GitHub.GITHUB_API_BASE +:+ "/repos/" +:+ username +:+ "/" +:+ repoName +:+ "/contents/" +:+ path.

Definition branches_url (username repoName : string) : string :=
  GitHub.GITHUB_API_BASE +:+ "/repos/" +:+ username +:+ "/" +:+ repoName +:+ "/branches".

Definition package_url (username repoName ref : string) : string :=
  GitHub.GITHUB_API_BASE +:+ "/repos/" +:+ username +:+ "/" +:+ repoName
    +:+ "/contents/package.json?ref=" +:+ ref.

(** A file-typed entry whose name ends in .html, compared in lower case. *)
Definition html_file (item : RepoContentItem) : bool :=
  GitHub.is_file item && Str.endsWith ".html" (Str.toLowerCase (item_name item)).

(** An entry of any type whose name ends in .html, compared in lower case. *)
Definition html_name (item : RepoContentItem) : bool :=
  Str.endsWith ".html" (Str.toLowerCase (item_name item)).

(** The address of the viewer's listing request. *)
Definition viewer_contents_url (username repoName path ref : string) : string :=
  "https://api.github.com/repos/" +:+ username +:+ "/" +:+ repoName +:+ "/contents/"
    +:+ path +:+ "?ref=" +:+ ref.

Definition viewer_branches_url (username repoName : string) : string :=
  "https://api.github.com/repos/" +:+ username +:+ "/" +:+ repoName +:+ "/branches".

(** [Array.isArray(contents) ? contents : [contents]] *)
Definition as_sequence {A} (contents : Contents A) : list A :=
  match contents with
  | IsArray items => items
  | IsObject item => [item]
  end.

(** A computation that leaves the listing shown by the viewer as it is. *)
Definition keeps_contents {A} (m : M A) : Prop :=
  forall w, contents (viewer (snd (m w))) = contents (viewer w).

(** The homepage a manifest answer carries: the answer is ok and parses as
    file metadata, its content decodes from base64 to a JSON document, and
    that document is an object whose homepage field is a non-empty string. *)
Definition manifest_homepage (JSON_parse : string -> option json)
    (a : FetchResult RepoContent) : option string :=
  match a with
  | NetworkFailure => None
  | Responded response =>
      if ok response then
        match json_body response with
        | None => None
        | Some data =>
            match Base64.atob (default "undefined" (rc_content data)) with
            | None => None
            | Some decoded =>
                match JSON_parse decoded with
                | Some (JObj fields) =>
                    match GitHub.assoc "homepage" fields with
                    | Some (JStr h) => if Str.nonempty h then Some h else None
                    | _ => None
                    end
                | _ => None
                end
            end
        end
      else None
  end.

(** [homepage.trim().replace(/`/g, '')] *)
Definition clean_homepage (h : string) : string :=
  Str.remove_char "`"%char (Str.trim h).

(** The request for the manifest of a branch. *)
Definition package_request (username repoName : string) (w : World) (b : Branch) : Request :=
  request (package_url username repoName (branch_name b)) GitHub.v3_json (bearer w).

(** The labels of the file-typed entries whose suffix is in the table, in
    listing order. *)
Definition known_labels (contents : list RepoContentItem) : list string :=
  omap (fun ext => GitHub.assoc ext GitHub.languageMap) (GitHub.fileExtensions contents).

(** How often a label occurs. *)
Definition occurrences (label : string) (labels : list string) : nat :=
  length (List.filter (String.eqb label) labels).

(** The distinct labels in the order in which they are first met. *)
Fixpoint first_met (labels : list string) : list string :=
  match labels with
  | [] => []
  | x :: rest => x :: List.filter (fun y => negb (String.eqb y x)) (first_met rest)
  end.

(** The tally the loop over the extensions builds from a list of labels. *)
Definition tally (labels : list string) (counts : list (string * nat)) : list (string * nat) :=
  fold_left (fun counts language => GitHub.increment language counts) labels counts.

(** The markdown text of an image reference. *)
Definition image (alt destination : string) : string :=
  "![" +:+ alt +:+ "](" +:+ destination +:+ ")".

(** The raw-content address of a path of a repository at a ref. *)
Definition raw_url (username repoName ref path : string) : string :=
  "https://raw.githubusercontent.com/" +:+ username +:+ "/" +:+ repoName
    +:+ "/" +:+ ref +:+ "/" +:+ path.

(** The character does not occur in the string. *)
Fixpoint free_of (c : ascii) (s : string) : bool :=
  match s with
  | EmptyString => true
  | String d s' => negb (Ascii.eqb d c) && free_of c s'
  end.

(** A markdown body seen as a sequence of plain text and image references,
    the latter relative or http-prefixed. *)
Inductive segment :=
  | Plain (text : string)
  | Relative (alt path : string)
  | Absolute (alt url : string).

Definition segment_text (seg : segment) : string :=
  match seg with
  | Plain text => text
  | Relative alt path => image alt path
  | Absolute alt url => image alt url
  end.

Definition body_of (segments : list segment) : string :=
  fold_right (fun seg rest => segment_text seg +:+ rest) "" segments.

(** Plain text holds no exclamation mark; the alternative text of a
    reference holds no closing bracket and a relative path no closing
    parenthesis; a relative path does not start with http, an absolute
    address does, and no exclamation mark occurs inside an absolute
    reference. *)
Definition well_formed (seg : segment) : bool :=
  match seg with
  | Plain text => free_of "!"%char text
  | Relative alt path =>
      free_of "]"%char alt && free_of ")"%char path && negb (Str.startsWith "http" path)
  | Absolute alt url =>
      free_of "]"%char alt && free_of "!"%char alt && free_of "!"%char url
        && Str.startsWith "http" url
  end.

(** What the normalization is to make of a segment. *)
Definition normalized (username repoName ref : string) (seg : segment) : segment :=
  match seg with
  | Relative alt path => Absolute alt (raw_url username repoName ref path)
  | _ => seg
  end.

Definition is_rejection {A} (response : Response A) : bool :=
  (status response =? 401) || (status response =? 403).

(** The persisted store after the error handler has run on a response. *)
Definition store_after_rejection (w : World) : gmap string string :=
  let cleared :=
    if truthy (token_of w) then delete "github_token" (localStorage w)
    else localStorage w in
  if truthy (env_token w) then cleared
  else
    match prompt_answers w with
    | Some token :: _ =>
        if Str.nonempty token then <["github_token" := token]> cleared else cleared
    | _ => cleared
    end.

Definition world_after_rejection (w : World) : World :=
  {| env_token := env_token w;
     localStorage := store_after_rejection w;
     prompt_answers := if truthy (env_token w) then prompt_answers w else tail (prompt_answers w);
     requests := requests w;
     viewer := viewer w;
     readme_view := readme_view w |}.


(** The payload of a service answer: the parsed body of an ok response. *)
Definition payload {A} (a : FetchResult A) : option A :=
  match a with
  | NetworkFailure => None
  | Responded response => if ok response then json_body response else None
  end.

(** The exception a service fetch ends with when its answer has no payload. *)
Definition service_failure {A} (a : FetchResult A) : exn :=
  match a with
  | NetworkFailure => TypeError "Failed to fetch"
  | Responded response =>
      if ok response then SyntaxError "Unexpected token in JSON"
      else GitHub.api_error response
  end.

(** The world a service fetch leaves: the request is issued, and on a 401
    or 403 the error handler has run. *)
Definition after_service_fetch {A} (a : FetchResult A) (req : Request) (w : World) : World :=
  match a with
  | NetworkFailure => issued req w
  | Responded response =>
      if ok response then issued req w
      else if is_rejection response then world_after_rejection (issued req w)
      else issued req w
  end.

(** The request [fetchFileContent] makes for a file, twice when the first
    answer cannot be used. *)
Definition file_request (file : RepoContent) (w : World) : Request :=
  request (default "undefined" (rc_url file)) Viewer.v3_json (stored_bearer w).

(** What the first attempt of [fetchFileContent] makes of an answer: the
    text to show, or nothing when the attempt ends with an exception (no
    answer, an answer that is not ok or not JSON, or a base64 payload that
    does not decode). *)
Definition decoded_body (file : RepoContent) (a : FetchResult RepoContent) : option string :=
  match a with
  | NetworkFailure => None
  | Responded response =>
      if ok response then
        match json_body response with
        | None => None
        | Some data =>
            if bool_decide (rc_encoding data = Some "base64") && truthy (rc_content data) then
              Base64.atob (Str.remove_char "010"%char (default "" (rc_content data)))
            else
              Some match rc_content data with
                   | Some content => content
                   | None => "Could not decode or retrieve content for " +:+ rc_name file
                   end
        end
      else None
  end.

(** The viewer once a file is shown, and once an operation has failed. *)
Definition opened (file : RepoContent) (content : string) (w : World) : World :=
  set_viewer (fun st =>
    {| contents := contents st; currentPath := currentPath st; loading := false; error := error st;
       selectedFile := Some file; fileContent := content; isSidebarCollapsed := isSidebarCollapsed st;
       branches := branches st; currentBranch := currentBranch st;
       showBranchSelector := showBranchSelector st |}) w.

Definition failed (message : string) (w : World) : World :=
  set_viewer (fun st =>
    {| contents := contents st; currentPath := currentPath st; loading := false;
       error := Some message;
       selectedFile := None; fileContent := fileContent st; isSidebarCollapsed := isSidebarCollapsed st;
       branches := branches st; currentBranch := currentBranch st;
       showBranchSelector := showBranchSelector st |}) w.

(** The outcome of [fetchFileContent] as a function of the two answers. *)
Definition file_shown (provider : Provider RepoContent) (file : RepoContent) (w : World) : World :=
  let req := file_request file w in
  match decoded_body file (answer provider w req) with
  | Some content => opened file content (issued req w)
  | None =>
      match answer provider (issued req w) req with
      | NetworkFailure => failed "Failed to fetch" (issued req (issued req w))
      | Responded textResponse =>
          if ok textResponse then opened file (text_body textResponse) (issued req (issued req w))
          else failed ("Failed to fetch plain text content for " +:+ rc_name file)
                      (issued req (issued req w))
      end
  end.

(** The request of the viewer's listing. *)
Definition listing_request (username repoName : string) (captured : ViewerState) (w : World) : Request :=
  request (viewer_contents_url username repoName (currentPath captured) (currentBranch captured))
          Viewer.v3_json (stored_bearer w).

(** The message the viewer shows when its listing answer has no payload. *)
Definition listing_failure (a : FetchResult (Contents RepoContent)) : string :=
  match a with
  | NetworkFailure => "Failed to fetch"
  | Responded response =>
      if ok response then "Unexpected token in JSON"
      else "Failed to fetch repository contents"
  end.

(** The viewer when a listing starts: loading, selection cleared. *)
Definition listing_started (w : World) : World :=
  set_viewer (fun st =>
    {| contents := contents st; currentPath := currentPath st; loading := true; error := error st;
       selectedFile := None; fileContent := ""; isSidebarCollapsed := isSidebarCollapsed st;
       branches := branches st; currentBranch := currentBranch st;
       showBranchSelector := showBranchSelector st |}) w.

Definition with_contents (items : list RepoContent) (w : World) : World :=
  set_viewer (fun st =>
    {| contents := items; currentPath := currentPath st; loading := loading st; error := error st;
       selectedFile := selectedFile st; fileContent := fileContent st;
       isSidebarCollapsed := isSidebarCollapsed st;
       branches := branches st; currentBranch := currentBranch st;
       showBranchSelector := showBranchSelector st |}) w.

Definition loaded (w : World) : World :=
  set_viewer (fun st =>
    {| contents := contents st; currentPath := currentPath st; loading := false; error := error st;
       selectedFile := selectedFile st; fileContent := fileContent st;
       isSidebarCollapsed := isSidebarCollapsed st;
       branches := branches st; currentBranch := currentBranch st;
       showBranchSelector := showBranchSelector st |}) w.

(** Whether a listing goes on to open a README: at the root, with no file
    selected in the render the callback comes from, and with a file-typed
    entry whose name starts with readme in lower case. *)
Definition readme_to_open (captured : ViewerState) (items : list RepoContent) : option RepoContent :=
  if String.eqb (currentPath captured) "" && negb (bool_decide (is_Some (selectedFile captured)))
  then List.find Viewer.is_readme items
  else None.

(** The outcome of the viewer's [fetchRepoContents] as a function of the
    answers. *)
Definition listing_shown (username repoName : string)
    (contents_provider : Provider (Contents RepoContent)) (file_provider : Provider RepoContent)
    (captured : ViewerState) (w : World) : World :=
  let req := listing_request username repoName captured w in
  let started := issued req (listing_started w) in
  match payload (answer contents_provider w req) with
  | Some data =>
      match readme_to_open captured (as_sequence data) with
      | Some readmeFile => file_shown file_provider readmeFile (with_contents (as_sequence data) started)
      | None => loaded (with_contents (as_sequence data) started)
      end
  | None => failed (listing_failure (answer contents_provider w req)) started
  end.

(** Rendered HTML seen as a sequence of text and tags. *)
Inductive html_segment :=
  | Text (text : string)
  | Tag (body : string).

Definition html_text (seg : html_segment) : string :=
  match seg with
  | Text text => text
  | Tag body => "<" +:+ body +:+ ">"
  end.

Definition html_of (segments : list html_segment) : string :=
  fold_right (fun seg rest => html_text seg +:+ rest) "" segments.

(** Text holds no opening angle bracket, and the body of a tag no angle
    bracket at all. *)
Definition html_well_formed (seg : html_segment) : bool :=
  match seg with
  | Text text => free_of "<"%char text
  | Tag body => free_of "<"%char body && free_of ">"%char body
  end.

Definition on_tag (f : string -> string) (seg : html_segment) : html_segment :=
  match seg with
  | Text text => Text text
  | Tag body => Tag (f body)
  end.

(** What the rewrites are to make of the body of a tag.  An anchor, written
    with a lower-case a and followed by white space, whose attributes do not
    already ask for a new tab, gets the two attributes in front of its
    own. *)
Definition new_tab (body : string) : string :=
  match body with
  | String c1 (String c2 attributes) =>
      if Ascii.eqb c1 "a"%char && Str.is_js_space c2 && negb (Readme.lookahead c2 attributes)
      then Readme.anchor_attributes +:+ attributes
      else body
  | _ => body
  end.

(** An image, in any letter case and followed by white space, gets the
    class in front of its attributes. *)
Definition with_image_class (body : string) : string :=
  match Readme.ci_prefix "img" body with
  | Some (String c attributes) =>
      if Str.is_js_space c then Readme.img_attributes +:+ attributes else body
  | _ => body
  end.

(** A preformatted block without attributes, in any letter case, gets the
    class. *)
Definition with_code_class (body : string) : string :=
  match Readme.ci_prefix "pre" body with
  | Some EmptyString => Readme.pre_attributes
  | _ => body
  end.

Definition enhanced_tag (body : string) : string :=
  with_code_class (with_image_class (new_tab body)).




(** A matcher that can only match at an opening angle bracket. *)
Definition starts_at_bracket (matcher : string -> option (string * nat)) : Prop :=
  forall c s, Ascii.eqb c "<"%char = false -> matcher (String c s) = None.

(** A matcher that acts on well-formed tags as [f] does on their bodies:
    at a tag it either does not match, and [f] leaves the body as it is, or
    matches a first part of the tag, and what it puts in its place, followed
    by the rest of the tag, is the tag [f] gives. *)
Definition acts_on_tags (matcher : string -> option (string * nat)) (f : string -> string) : Prop :=
  forall body s,
    free_of "<"%char body = true -> free_of ">"%char body = true ->
    (matcher ("<" +:+ body +:+ ">" +:+ s) = None /\ f body = body)
    \/ exists c matched remainder replacement,
         "<" +:+ body +:+ ">" = String c matched +:+ remainder
         /\ matcher ("<" +:+ body +:+ ">" +:+ s)
            = Some (replacement, String.length (String c matched))
         /\ replacement +:+ remainder = "<" +:+ f body +:+ ">".

End Observe.

Module Scenario.

Definition viewer0 : ViewerState :=
  {| contents := []; currentPath := ""; loading := true; error := None;
     selectedFile := None; fileContent := ""; isSidebarCollapsed := false;
     branches := []; currentBranch := "main"; showBranchSelector := false |}.

Definition readme0 : ReadmeState :=
  {| readme := ""; readme_loading := true; readme_error := None |}.

(** A fresh session with the given environment token, persisted token and
    prompt answers. *)
Definition session (env stored : option string) (answers : list (option string)) : World :=
  {| env_token := env;
     localStorage := match stored with
                     | Some t => {[ "github_token" := t ]}
                     | None => ∅
                     end;
     prompt_answers := answers;
     requests := [];
     viewer := viewer0;
     readme_view := readme0 |}.

Definition respond {A} (code : nat) (text : string) (body : option A) : Response A :=
  {| status := code; statusText := text; json_body := body; text_body := "" |}.

(** A provider that gives the same answer to every request. *)
Definition always {A} (r : Response A) : Provider A := fun _ _ => Responded r.

Definition forbidden {A} : Response A := respond 403 "Forbidden" None.
Definition missing {A} : Response A := respond 404 "Not Found" None.

(** A repository without index.html, whose root listing is [listing]. *)
Definition without_index (listing : list RepoContentItem) : Provider (list RepoContentItem) :=
  fun _ req =>
    if Str.endsWith "/index.html" (req_url req) then Responded missing
    else Responded (respond 200 "OK" (Some listing)).

(** A repository without branches. *)
Definition empty_repository : Provider (list Branch) :=
  always (respond 200 "OK" (Some [])).

(** The base64 text of "hello", wrapped the way the provider wraps long
    payloads: a line feed inside and one at the end. *)
Definition wrapped_hello : string :=
  "aGVs" +:+ String "010"%char ("bG8=" +:+ String "010"%char EmptyString).

(** A manifest, its only reader, and a repository whose branches are dev and
    main, with the manifest on main alone. *)
Definition manifest_text : string :=
  "{" +:+ Readme.dquote +:+ "homepage" +:+ Readme.dquote +:+ ": "
      +:+ Readme.dquote +:+ " `https://alice.dev` " +:+ Readme.dquote +:+ "}".

Definition manifest_parser (text : string) : option json :=
  if String.eqb text manifest_text
  then Some (JObj [("homepage", JStr " `https://alice.dev` ")])
  else None.

Definition manifest_on_main : Provider RepoContent := fun _ req =>
  if Str.endsWith "?ref=main" (req_url req) then
    Responded (respond 200 "OK"
      (Some {| rc_type := "file"; rc_name := "package.json"; rc_path := "package.json";
               rc_sha := "0000000";
               rc_content := Some (Base64.encode (list_byte_of_string manifest_text));
               rc_encoding := Some "base64"; rc_size := None; rc_url := None |}))
  else Responded missing.

Definition entry (name : string) (type : ItemType) : RepoContentItem :=
  {| item_name := name; item_path := name; item_type := type; item_size := 0;
     item_download_url := None |}.

Definition branch (name : string) : Branch :=
  {| branch_name := name; branch_commit_sha := "0000000" |}.

Definition dev_and_main : Provider (list Branch) :=
  always (respond 200 "OK" (Some [branch "dev"; branch "main"])).

Definition file_data (encoding content : option string) : RepoContent :=
  {| rc_type := "file"; rc_name := "README.md"; rc_path := "README.md"; rc_sha := "0000000";
     rc_content := content; rc_encoding := encoding; rc_size := None;
     rc_url := Some "https://api.github.com/repos/alice/repo/contents/README.md?ref=main" |}.

(** An ok answer whose body is not JSON. *)
Definition plain_text {A} (text : string) : Response A :=
  {| status := 200; statusText := "OK"; json_body := None; text_body := text |}.

(** A directory entry of the viewer. *)
Definition folder (path : string) : RepoContent :=
  {| rc_type := "dir"; rc_name := path; rc_path := path; rc_sha := "0000000";
     rc_content := None; rc_encoding := None; rc_size := None;
     rc_url := None |}.

(** The viewer showing an error. *)
Definition viewer_with_error (message : string) (path : string) : ViewerState :=
  {| contents := []; currentPath := path; loading := false; error := Some message;
     selectedFile := None; fileContent := ""; isSidebarCollapsed := false;
     branches := []; currentBranch := "main"; showBranchSelector := false |}.

(** The viewer inside a folder, and with a file open. *)
Definition viewer_at (path : string) (file : option RepoContent) : ViewerState :=
  {| contents := []; currentPath := path; loading := false; error := None;
     selectedFile := file; fileContent := ""; isSidebarCollapsed := false;
     branches := []; currentBranch := "main"; showBranchSelector := false |}.

(** A sidebar with three links, the first of which is being dragged. *)
Definition link (address name : string) (position : Z) : Sidebar.CustomLink :=
  {| Sidebar.icon := Sidebar.getLinkIcon address; Sidebar.url := address;
     Sidebar.title := name; Sidebar.order := position |}.

Definition three_links (reference : nat) : Sidebar.CustomLink :=
  match reference with
  | 0 => link "https://github.com/alice" "GitHub" 0
  | 1 => link "https://twitter.com/alice" "Twitter" 1
  | _ => link "https://alice.dev" "Website" 2
  end.

Definition sidebar (item : option nat) (dragging : bool) (prompts : list (option string))
    : Sidebar.State :=
  {| Sidebar.objects := three_links; Sidebar.allocated := 3;
     Sidebar.socialLinks := [0; 1; 2]; Sidebar.customLinks := [];
     Sidebar.savedLinkOrder := []; Sidebar.dragItem := item; Sidebar.dragOverItem := None;
     Sidebar.isDragging := dragging; Sidebar.storage := ∅; Sidebar.answers := prompts |}.

(** Serializers that tell nothing apart, for runs in which the text does
    not matter. *)
Definition silent {A} (value : A) : string := "".

Definition showing (vw : ViewerState) : World :=
  {| env_token := None; localStorage := ∅; prompt_answers := []; requests := [];
     viewer := vw; readme_view := readme0 |}.

End Scenario.

(** * Properties *)

(** ** Strings *)

Module StrFacts.
Import Str.

Lemma chars_of_chars l : chars (of_chars l) = l.
Proof. apply list_ascii_of_string_of_list_ascii. Qed.

Lemma of_chars_chars s : of_chars (chars s) = s.
Proof. apply string_of_list_ascii_of_string. Qed.

Lemma chars_app s t : chars (s +:+ t) = chars s ++ chars t.
Proof. induction s as [|c s IH]; simpl; [reflexivity | now rewrite IH]. Qed.

Lemma of_chars_app l k : of_chars (l ++ k) = of_chars l +:+ of_chars k.
Proof. induction l as [|c l IH]; simpl; [reflexivity | now rewrite IH]. Qed.

Lemma chars_remove_char c s :
  chars (remove_char c s) = List.filter (fun d => negb (Ascii.eqb d c)) (chars s).
Proof.
  induction s as [|d s IH]; simpl; [reflexivity|].
  destruct (Ascii.eqb d c); simpl; now rewrite IH.
Qed.

Lemma app_cons x (a b : string) : String x a +:+ b = String x (a +:+ b).
Proof. reflexivity. Qed.

Lemma app_nil_l (b : string) : "" +:+ b = b.
Proof. reflexivity. Qed.

Lemma app_assoc (a b c : string) : (a +:+ b) +:+ c = a +:+ (b +:+ c).
Proof.
  induction a as [|x a IH]; [reflexivity|]. rewrite !app_cons. now rewrite IH.
Qed.

Lemma length_app (a b : string) :
  String.length (a +:+ b) = String.length a + String.length b.
Proof.
  induction a as [|x a IH]; [reflexivity|]. rewrite app_cons. cbn. now rewrite IH.
Qed.

Lemma startsWith_app p : forall s t,
  startsWith p s = true -> startsWith p (s +:+ t) = true.
Proof.
  induction p as [|a p IH]; intros [|b s] t H; try reflexivity; try discriminate H.
  rewrite app_cons. cbn in H |- *. apply andb_prop in H as [Hab Hps].
  now rewrite Hab, (IH _ _ Hps).
Qed.

End StrFacts.

(** ** Base64 round trip *)

Module Base64Facts.
Import Base64.

(** Induction over a list three elements at a time, the way the encoder
    consumes its input. *)
Lemma list_ind3 {A} (P : list A -> Prop) :
  P [] -> (forall a, P [a]) -> (forall a b, P [a; b]) ->
  (forall a b c l, P l -> P (a :: b :: c :: l)) ->
  forall l, P l.
Proof.
  intros H0 H1 H2 H3. fix IH 1.
  intros [|a [|b [|c l]]]; [apply H0 | apply H1 | apply H2 | apply H3, IH].
Qed.

Ltac all_sextets s :=
  destruct s as [[[[[[] []] []] []] []] []].

Lemma sextet_of_char_of_sextet s : sextet_of_char (char_of_sextet s) = Some s.
Proof. all_sextets s; reflexivity. Qed.

Lemma char_of_sextet_not_pad s : Ascii.eqb (char_of_sextet s) "="%char = false.
Proof. all_sextets s; reflexivity. Qed.

Lemma char_of_sextet_not_space s : is_ascii_whitespace (char_of_sextet s) = false.
Proof. all_sextets s; reflexivity. Qed.

Lemma encode_chars_split bs :
  encode_chars bs = map char_of_sextet (sextets_of_octets bs) ++ padding_of bs.
Proof.
  induction bs as [|a|a b|a b c l IH] using list_ind3.
  - reflexivity.
  - destruct a; reflexivity.
  - destruct a, b; reflexivity.
  - cbn [encode_chars sextets_of_octets padding_of].
    destruct (group3 a b c) as [[[s1 s2] s3] s4]. cbn. now rewrite IH.
Qed.

Lemma encode_chars_length bs : exists k, length (encode_chars bs) = 4 * k.
Proof.
  induction bs as [|a|a b|a b c l [k IH]] using list_ind3.
  - now exists 0.
  - exists 1. destruct a; reflexivity.
  - exists 1. destruct a, b; reflexivity.
  - exists (S k). cbn [encode_chars].
    destruct (group3 a b c) as [[[s1 s2] s3] s4]. cbn [length]. lia.
Qed.

Lemma padding_of_cases bs :
  padding_of bs = [] \/ padding_of bs = ["="%char] \/ padding_of bs = ["="%char; "="%char].
Proof. induction bs using list_ind3; cbn; auto. Qed.

Lemma remove_trailing_pad_body ss :
  remove_trailing_pad (map char_of_sextet ss) = map char_of_sextet ss.
Proof.
  unfold remove_trailing_pad. rewrite <- map_rev.
  destruct (rev ss) as [|s r]; [reflexivity|]. cbn [map].
  now rewrite char_of_sextet_not_pad.
Qed.

Lemma remove_trailing_pad_snoc l : remove_trailing_pad (l ++ ["="%char]) = l.
Proof.
  unfold remove_trailing_pad. rewrite rev_app_distr. cbn.
  apply rev_involutive.
Qed.

Lemma strip_padding_encode bs :
  strip_padding (encode_chars bs) = map char_of_sextet (sextets_of_octets bs).
Proof.
  unfold strip_padding. destruct (encode_chars_length bs) as [k Hk].
  rewrite Hk. replace (4 * k mod 4) with 0
    by (symmetry; rewrite Nat.mul_comm; apply Nat.Div0.mod_mul).
  cbn [Nat.eqb]. rewrite encode_chars_split.
  destruct (padding_of_cases bs) as [-> | [-> | ->]].
  - rewrite app_nil_r. now rewrite !remove_trailing_pad_body.
  - now rewrite remove_trailing_pad_snoc, remove_trailing_pad_body.
  - change ["="%char; "="%char] with (["="%char] ++ ["="%char]).
    now rewrite app_assoc, !remove_trailing_pad_snoc.
Qed.

Lemma filter_whitespace_encode bs :
  List.filter (fun c => negb (is_ascii_whitespace c)) (encode_chars bs) = encode_chars bs.
Proof.
  induction bs as [|a|a b|a b c l IH] using list_ind3.
  - reflexivity.
  - cbn [encode_chars]. destruct (group3 a zero zero) as [[[s1 s2] s3] s4].
    cbn [List.filter]. now rewrite !char_of_sextet_not_space.
  - cbn [encode_chars]. destruct (group3 a b zero) as [[[s1 s2] s3] s4].
    cbn [List.filter]. now rewrite !char_of_sextet_not_space.
  - cbn [encode_chars]. destruct (group3 a b c) as [[[s1 s2] s3] s4].
    cbn [List.filter]. rewrite !char_of_sextet_not_space. cbn. now rewrite IH.
Qed.

Lemma sextets_of_chars_body ss :
  sextets_of_chars (map char_of_sextet ss) = Some ss.
Proof.
  induction ss as [|s ss IH]; [reflexivity|].
  cbn [map sextets_of_chars]. now rewrite sextet_of_char_of_sextet, IH.
Qed.

Lemma decode_sextets_of_octets bs :
  decode_sextets (sextets_of_octets bs) = Some bs.
Proof.
  induction bs as [|a|a b|a b c l IH] using list_ind3.
  - reflexivity.
  - destruct a; reflexivity.
  - destruct a, b; reflexivity.
  - cbn [sextets_of_octets]. destruct a, b, c. cbn. now rewrite IH.
Qed.

Lemma forgiving_decode_encode bs : forgiving_decode (encode_chars bs) = Some bs.
Proof.
  unfold forgiving_decode.
  rewrite filter_whitespace_encode, strip_padding_encode, sextets_of_chars_body.
  apply decode_sextets_of_octets.
Qed.

Lemma atob_encode (bs : list byte) : atob (encode bs) = Some (string_of_list_byte bs).
Proof.
  unfold atob, encode. rewrite StrFacts.chars_of_chars, forgiving_decode_encode.
  reflexivity.
Qed.

Example atob_hello : atob "aGVsbG8=" = Some "hello".
Proof. reflexivity. Qed.

End Base64Facts.



(** ** The token store and the error handler *)

Module TokenFacts.
Import GitHub Observe.

Ltac unfold_monad :=
  unfold getItem, setItem, removeItem, prompt, diverge, json_of,
    try_catch, try_finally, modify, get_world in *;
  unfold mbind, M_bind, mret, M_ret, mthrow, M_throw in *.

(** Case analysis on what a [match] or [if] of the goal inspects, innermost
    first. *)
Ltac split_match :=
  match goal with
  | |- context [match ?x with _ => _ end] => is_var x; destruct x
  | |- context [match ?x with _ => _ end] =>
      lazymatch x with
      | context [match _ with _ => _ end] => fail
      | _ => let E := fresh "E" in destruct x eqn:E
      end
  end.

Lemma envToken_run w :
  envToken w = (Returned (if truthy (env_token w) then env_token w else None), w).
Proof. reflexivity. Qed.

Lemma getGitHubToken_run w : getGitHubToken w = (Returned (token_of w), w).
Proof.
  unfold getGitHubToken, token_of, envToken. unfold_monad. unfold truthy.
  destruct (env_token w) as [t|] eqn:E; [|reflexivity].
  destruct (Str.nonempty t) eqn:Ht; cbn; rewrite ?Ht; reflexivity.
Qed.

Lemma createHeaders_run w : createHeaders w = (Returned (bearer w), w).
Proof.
  unfold createHeaders. unfold mbind, M_bind. now rewrite getGitHubToken_run.
Qed.

(** The handler never returns: whatever the response and the world, it
    throws the API error, leaving the world described by
    [world_after_rejection] on a 401 or 403 and the same world otherwise. *)
Lemma handleApiError_run {A} (response : Response A) w :
  handleApiError response w =
  (Thrown (api_error response),
   if is_rejection response then world_after_rejection w else w).
Proof.
  unfold handleApiError, is_rejection.
  destruct ((status response =? 401) || (status response =? 403)); [|reflexivity].
  unfold world_after_rejection, store_after_rejection, token_of.
  unfold getGitHubToken, envToken, setGitHubToken. unfold_monad.
  unfold set_localStorage, set_prompt_answers, truthy.
  destruct w as [env ls answers reqs vw rd]; cbn.
  repeat (split_match; cbn in *; try congruence; try reflexivity).
Qed.

Lemma fetch_run {A} (provider : Provider A) url accept authorization w :
  fetch provider url accept authorization w =
  match answer provider w (request url accept authorization) with
  | NetworkFailure => (Thrown (TypeError "Failed to fetch"), issued (request url accept authorization) w)
  | Responded r => (Returned r, issued (request url accept authorization) w)
  end.
Proof. reflexivity. Qed.

Lemma bearer_issued req w : bearer (issued req w) = bearer w.
Proof. reflexivity. Qed.

(** One call of the repository listing on a response that is not ok: the
    handler's exception leaves the function at once. *)
Lemma fetchUserRepositories_not_ok provider fuel username w response :
  answer provider w (request (repos_url username) v3_json (bearer w)) = Responded response ->
  ok response = false ->
  fetchUserRepositories provider (S fuel) username w =
  let w1 := issued (request (repos_url username) v3_json (bearer w)) w in
  (Thrown (api_error response), if is_rejection response then world_after_rejection w1 else w1).
Proof.
  intros Hanswer Hok. cbn [fetchUserRepositories].
  unfold try_catch, mbind, M_bind.
  rewrite createHeaders_run, fetch_run. fold (repos_url username).
  rewrite Hanswer, Hok. cbn [negb].
  rewrite handleApiError_run. reflexivity.
Qed.

(** C10. For every response that is not ok, the shared error handler throws
    the API error, whose message carries the numeric status and the status
    text; this holds on a 401 or 403 too, after the stored credential has
    been cleared and a newly prompted token saved (the world it leaves is
    [world_after_rejection]).  So the repository listing fetch, whatever the
    fuel for its recursive retry, issues its one request and ends with that
    exception: the retry after the handler call is never executed. *)
Theorem rejected_response_always_throws
    provider fuel username w (response : Response (list Repository)) :
  answer provider w (request (repos_url username) v3_json (bearer w)) = Responded response ->
  ok response = false ->
  let w1 := issued (request (repos_url username) v3_json (bearer w)) w in
  let w2 := if is_rejection response then world_after_rejection w1 else w1 in
  (forall w0, handleApiError response w0
              = (Thrown (api_error response),
                 if is_rejection response then world_after_rejection w0 else w0))
  /\ fetchUserRepositories provider (S fuel) username w = (Thrown (api_error response), w2)
  /\ requests w2 = requests w ++ [request (repos_url username) v3_json (bearer w)]
  /\ exn_message (api_error response)
     = "GitHub API error: " +:+ pretty (status response) +:+ " " +:+ statusText response.
Proof.
  intros Hanswer Hok w1 w2. split; [intros w0; apply handleApiError_run|].
  split; [|split; [|reflexivity]].
  - apply (fetchUserRepositories_not_ok _ _ _ _ _ Hanswer Hok).
  - subst w2 w1. destruct (is_rejection response); reflexivity.
Qed.

Lemma rejected_response_always_throws_witness :
  fetchUserRepositories (Scenario.always Scenario.forbidden) 1 "alice"
    (Scenario.session None (Some "stale") [Some "fresh"])
  = (Thrown (Error "GitHub API error: 403 Forbidden"),
     world_after_rejection
       (issued (request (repos_url "alice") v3_json (Some "stale"))
          (Scenario.session None (Some "stale") [Some "fresh"]))).
Proof.
  exact (proj1 (proj2 (rejected_response_always_throws
           (Scenario.always Scenario.forbidden) 0 "alice"
           (Scenario.session None (Some "stale") [Some "fresh"]) Scenario.forbidden
           eq_refl eq_refl))).
Defined.

(** The handler also throws on a response it was not meant for. *)
Lemma handleApiError_never_returns {A} (response : Response A) w :
  fst (handleApiError response w) = Thrown (api_error response).
Proof. now rewrite handleApiError_run. Qed.

(** C7, at a stored credential rejected with 403.  The repository listing
    clears the credential, stores the token the user enters, and throws
    without a single retry: one request in all.  The README fetch does not
    retry either when the user answers the handler's prompt, and shows an
    authentication error; it retries as often as the user dismisses that
    prompt and answers the next one: here three retries on four consecutive
    403 answers. *)
Theorem stored_credential_rejected_retries :
  fst (fetchUserRepositories (Scenario.always Scenario.forbidden) 5 "alice"
         (Scenario.session None (Some "stale") [Some "fresh"]))
  = Thrown (Error "GitHub API error: 403 Forbidden")
  /\ length (requests
               (snd (fetchUserRepositories (Scenario.always Scenario.forbidden) 5 "alice"
                       (Scenario.session None (Some "stale") [Some "fresh"])))) = 1
  /\ localStorage
       (snd (fetchUserRepositories (Scenario.always Scenario.forbidden) 5 "alice"
               (Scenario.session None (Some "stale") [Some "fresh"])))
       !! "github_token" = Some "fresh"
  /\ length (requests
               (snd (Readme.fetchReadme "alice" (Scenario.always Scenario.forbidden)
                       (fun html => html) 9
                       (Scenario.session None (Some "stale") [Some "fresh"])))) = 1
  /\ readme_error
       (readme_view
          (snd (Readme.fetchReadme "alice" (Scenario.always Scenario.forbidden)
                  (fun html => html) 9
                  (Scenario.session None (Some "stale") [Some "fresh"]))))
     = Some "Authentication error. Please try logging in with a GitHub token."
  /\ fst (Readme.fetchReadme "alice" (Scenario.always Scenario.forbidden) (fun html => html) 9
            (Scenario.session None (Some "stale")
               [None; Some "t1"; None; Some "t2"; None; Some "t3"; None; None]))
     = Returned tt
  /\ length (requests
               (snd (Readme.fetchReadme "alice" (Scenario.always Scenario.forbidden)
                       (fun html => html) 9
                       (Scenario.session None (Some "stale")
                          [None; Some "t1"; None; Some "t2"; None; Some "t3"; None; None]))))
     = 4.
Proof. vm_compute. repeat split. Qed.

(** C8, as stated, fails: with an environment override present, a 403
    still clears the persisted credential. *)
Lemma persisted_cleared_despite_environment_override :
  truthy (env_token (Scenario.session (Some "from-env") (Some "persisted") [])) = true
  /\ localStorage (Scenario.session (Some "from-env") (Some "persisted") []) !! "github_token"
     = Some "persisted"
  /\ localStorage
       (snd (handleApiError (Scenario.forbidden (A := unit))
               (Scenario.session (Some "from-env") (Some "persisted") [])))
       !! "github_token" = None.
Proof. vm_compute. repeat split. Qed.

(** C8, amended.  The environment value is never changed by the handler or
    by [setGitHubToken], and [getGitHubToken] prefers it to the persisted
    one.  On a 401 or 403 the persisted credential is cleared whenever
    [getGitHubToken] yields a non-empty credential, be it the environment's
    or the persisted one: with an environment override nothing is left under
    the key; without one, only a token newly entered at the prompt is.  No
    other key of the store is touched, and on any other status the store is
    left as it is. *)
Theorem credential_lifecycle {A} (response : Response A) (w : World) (token : string) :
  let w' := snd (handleApiError response w) in
  let kept := if truthy (localStorage w !! "github_token") then None
              else localStorage w !! "github_token" in
  env_token w' = env_token w
  /\ env_token (snd (setGitHubToken token w)) = env_token w
  /\ fst (getGitHubToken w)
     = Returned (if truthy (env_token w) then env_token w
                 else localStorage w !! "github_token")
  /\ localStorage w' !! "github_token"
     = (if is_rejection response then
          if truthy (env_token w) then None
          else match prompt_answers w with
               | Some entered :: _ => if Str.nonempty entered then Some entered else kept
               | _ => kept
               end
        else localStorage w !! "github_token")
  /\ forall key, key <> "github_token" -> localStorage w' !! key = localStorage w !! key.
Proof.
  intros w' kept. subst w' kept. rewrite handleApiError_run, getGitHubToken_run.
  repeat split.
  - destruct (is_rejection response); reflexivity.
  - destruct (is_rejection response); [|reflexivity].
    cbn. unfold store_after_rejection, token_of.
    destruct (truthy (env_token w)) eqn:Henv; rewrite ?Henv.
    + now rewrite lookup_delete_eq.
    + destruct (truthy (localStorage w !! "github_token")) eqn:Hst;
        destruct (prompt_answers w) as [|[entered|] rest];
        try destruct (Str.nonempty entered);
        rewrite ?lookup_insert_eq, ?lookup_delete_eq; reflexivity.
  - intros key Hkey. destruct (is_rejection response); [|reflexivity].
    cbn. unfold store_after_rejection.
    destruct (truthy (token_of w)); destruct (truthy (env_token w));
      try (destruct (prompt_answers w) as [|[entered|] rest]);
      try destruct (Str.nonempty entered);
      rewrite ?lookup_insert_ne, ?lookup_delete_ne by congruence; reflexivity.
Qed.

Lemma credential_lifecycle_witness :
  localStorage
    (snd (handleApiError (Scenario.forbidden (A := unit))
            (Scenario.session None (Some "stale") [Some "fresh"])))
    !! "theme"
  = localStorage (Scenario.session None (Some "stale") [Some "fresh"]) !! "theme".
Proof.
  refine (proj2 (proj2 (proj2 (proj2
    (credential_lifecycle (Scenario.forbidden (A := unit))
       (Scenario.session None (Some "stale") [Some "fresh"]) "unused")))) "theme" _).
  discriminate.
Defined.

End TokenFacts.

(** ** Live page detection *)

Module LivePageFacts.
Import GitHub Observe TokenFacts.

(** C9, as stated, fails: a root directory named docs.html is an entry whose
    name ends in .html, yet without an index.html the answer is false. *)
Lemma directory_named_html_is_no_page :
  existsb html_name [Scenario.entry "docs.html" TDir] = true
  /\ fst (checkRepoContents (Scenario.without_index [Scenario.entry "docs.html" TDir])
            "alice" "repo" (Scenario.session None None []))
     = Returned false.
Proof. vm_compute. split; reflexivity. Qed.

(** C9, amended.  [checkRepoContents] always returns: true when the request
    for index.html at the root is answered ok; otherwise true exactly when
    the root listing is answered ok, parses, and has a file-typed entry
    whose name ends in .html compared in lower case; false otherwise, a
    failed request included. *)
Theorem checkRepoContents_spec provider username repoName w :
  let root_request := request (index_url username repoName) v3_json (bearer w) in
  let listing_request := request (root_url username repoName) v3_json (bearer w) in
  fst (checkRepoContents provider username repoName w) =
  Returned
    match answer provider w root_request with
    | NetworkFailure => false
    | Responded rootResponse =>
        if ok rootResponse then true
        else
          match answer provider (issued root_request w) listing_request with
          | NetworkFailure => false
          | Responded contentsResponse =>
              ok contentsResponse &&
              match json_body contentsResponse with
              | Some entries => existsb html_file entries
              | None => false
              end
          end
    end.
Proof.
  intros root_request listing_request.
  unfold checkRepoContents, try_catch, mbind, M_bind.
  rewrite createHeaders_run, fetch_run.
  fold (index_url username repoName). fold root_request.
  destruct (answer provider w root_request) as [|rootResponse]; [reflexivity|].
  destruct (ok rootResponse); [reflexivity|].
  rewrite createHeaders_run, bearer_issued, fetch_run.
  fold (root_url username repoName). fold listing_request.
  destruct (answer provider (issued root_request w) listing_request)
    as [|contentsResponse]; [reflexivity|].
  destruct (ok contentsResponse); [|reflexivity]. cbn [negb andb].
  unfold json_of. destruct (json_body contentsResponse); reflexivity.
Qed.

End LivePageFacts.

(** ** Directory listings *)

Module ListingFacts.
Import Observe TokenFacts.

Lemma getAuthHeaders_run w : Viewer.getAuthHeaders w = (Returned (stored_bearer w), w).
Proof. reflexivity. Qed.

Lemma keeps_ret {A} (a : A) : keeps_contents (mret a).
Proof. intros w. reflexivity. Qed.

Lemma keeps_throw {A} (e : exn) : keeps_contents (mthrow (A := A) e).
Proof. intros w. reflexivity. Qed.

Lemma keeps_bind {A B} (m : M A) (f : A -> M B) :
  keeps_contents m -> (forall a, keeps_contents (f a)) -> keeps_contents (m ≫= f).
Proof.
  intros Hm Hf w. unfold mbind, M_bind. specialize (Hm w).
  destruct (m w) as [[a|e|] w1]; cbn in *; [|assumption|assumption].
  now rewrite Hf.
Qed.

Lemma keeps_try_catch {A} (m : M A) (h : exn -> M A) :
  keeps_contents m -> (forall e, keeps_contents (h e)) -> keeps_contents (try_catch m h).
Proof.
  intros Hm Hh w. unfold try_catch. specialize (Hm w).
  destruct (m w) as [[a|e|] w1]; cbn in *; [assumption| |assumption].
  now rewrite Hh.
Qed.

Lemma keeps_try_finally {A} (m : M A) (final : M unit) :
  keeps_contents m -> keeps_contents final -> keeps_contents (try_finally m final).
Proof.
  intros Hm Hf w. unfold try_finally. specialize (Hm w).
  destruct (m w) as [[a|e|] w1]; [| |exact Hm]; specialize (Hf w1);
    destruct (final w1) as [[[]|e'|] w2]; cbn in *; congruence.
Qed.

Lemma keeps_fetch {A} (provider : Provider A) url accept authorization :
  keeps_contents (fetch provider url accept authorization).
Proof. intros w. rewrite fetch_run. now destruct (answer _ _ _). Qed.

Lemma keeps_decodeContent file data : keeps_contents (Viewer.decodeContent file data).
Proof.
  intros w. unfold Viewer.decodeContent, Viewer.atob_js.
  repeat (split_match; try reflexivity).
Qed.

Lemma keeps_json_of {A} (r : Response A) : keeps_contents (json_of r).
Proof. intros w. unfold json_of. now destruct (json_body r). Qed.

Ltac keeps_step :=
  first
    [ apply keeps_try_finally | apply keeps_try_catch | apply keeps_bind
    | apply keeps_fetch | apply keeps_decodeContent | apply keeps_json_of
    | apply keeps_ret | apply keeps_throw
    | match goal with
      | |- forall _, keeps_contents _ => intro
      | |- keeps_contents (if ?b then _ else _) => destruct b
      | |- keeps_contents _ => intros ?; reflexivity
      end ].

Lemma keeps_fetchFileContent provider file :
  keeps_contents (Viewer.fetchFileContent provider file).
Proof. unfold Viewer.fetchFileContent. repeat keeps_step. Qed.

(** The service function on an ok answer: the payload as a sequence. *)
Lemma service_listing provider username repoName path w response data :
  answer provider w (request (contents_url username repoName path) GitHub.v3_json (bearer w))
    = Responded response ->
  ok response = true ->
  json_body response = Some data ->
  GitHub.fetchRepoContents provider username repoName path w
  = (Returned (as_sequence data),
     issued (request (contents_url username repoName path) GitHub.v3_json (bearer w)) w).
Proof.
  intros Hanswer Hok Hdata.
  unfold GitHub.fetchRepoContents, try_catch, mbind, M_bind.
  rewrite createHeaders_run, fetch_run.
  fold (contents_url username repoName path).
  rewrite Hanswer, Hok. cbn [negb]. unfold json_of. rewrite Hdata.
  now destruct data.
Qed.

(** The viewer's function on an ok answer: the payload as a sequence is the
    listing shown, whether or not a README is then opened. *)
Lemma viewer_listing username repoName contents_provider file_provider captured w response data :
  answer contents_provider w
    (request (viewer_contents_url username repoName (currentPath captured) (currentBranch captured))
             Viewer.v3_json (stored_bearer w))
    = Responded response ->
  ok response = true ->
  json_body response = Some data ->
  contents (viewer (snd (Viewer.fetchRepoContents username repoName
                           contents_provider file_provider captured w)))
  = as_sequence data.
Proof.
  intros Hanswer Hok Hdata.
  unfold Viewer.fetchRepoContents, try_finally, try_catch.
  unfold mbind at 1 2 3 4 5. unfold M_bind at 1 2 3 4 5.
  cbn [Viewer.setLoading Viewer.setSelectedFile Viewer.setFileContent modify].
  rewrite getAuthHeaders_run, fetch_run.
  fold (viewer_contents_url username repoName (currentPath captured) (currentBranch captured)).
  change (answer contents_provider ?w' ?req) with (answer contents_provider w req).
  change (stored_bearer _) with (stored_bearer w).
  rewrite Hanswer, Hok. cbn [negb].
  unfold mbind at 1. unfold M_bind at 1. unfold json_of. rewrite Hdata.
  unfold mret at 1. unfold M_ret at 1.
  unfold mbind at 1. unfold M_bind at 1.
  cbn [Viewer.setContents modify].
  fold (as_sequence data).
  match goal with
  | |- context [if ?b then _ else _] => destruct b
  end; [|reflexivity].
  destruct (List.find Viewer.is_readme (as_sequence data)) as [readmeFile|];
    [|reflexivity].
  match goal with
  | |- context [Viewer.fetchFileContent ?p ?f ?w0] =>
      pose proof (keeps_fetchFileContent p f w0) as Hkeep;
      destruct (Viewer.fetchFileContent p f w0) as [[[]|e|] w1]
  end; cbn in Hkeep |- *; exact Hkeep.
Qed.

(** C1. When the provider answers a listing request ok with a single object
    (a file addressed directly), [fetchRepoContents] yields the one-element
    sequence holding that object; when it answers with an array, it yields
    the array as it is, in the same order.  This holds for the service
    function, which returns the sequence, and for the viewer's, which
    stores it as its listing. *)
Theorem listing_is_normalized :
  (forall (provider : Provider (Contents RepoContentItem)) username repoName path w response,
     answer provider w (request (contents_url username repoName path) GitHub.v3_json (bearer w))
       = Responded response ->
     ok response = true ->
     (forall item, json_body response = Some (IsObject item) ->
        fst (GitHub.fetchRepoContents provider username repoName path w) = Returned [item])
     /\ (forall items, json_body response = Some (IsArray items) ->
           fst (GitHub.fetchRepoContents provider username repoName path w) = Returned items))
  /\ (forall username repoName (contents_provider : Provider (Contents RepoContent))
             file_provider captured w response,
        answer contents_provider w
          (request (viewer_contents_url username repoName
                      (currentPath captured) (currentBranch captured))
                   Viewer.v3_json (stored_bearer w))
          = Responded response ->
        ok response = true ->
        (forall item, json_body response = Some (IsObject item) ->
           contents (viewer (snd (Viewer.fetchRepoContents username repoName
                                    contents_provider file_provider captured w))) = [item])
        /\ (forall items, json_body response = Some (IsArray items) ->
              contents (viewer (snd (Viewer.fetchRepoContents username repoName
                                       contents_provider file_provider captured w))) = items)).
Proof.
  split.
  - intros provider username repoName path w response Hanswer Hok.
    split; intros payload Hbody;
      now rewrite (service_listing _ _ _ _ _ _ _ Hanswer Hok Hbody).
  - intros username repoName contents_provider file_provider captured w response Hanswer Hok.
    split; intros payload Hbody;
      now rewrite (viewer_listing _ _ _ file_provider _ _ _ _ Hanswer Hok Hbody).
Qed.

Lemma listing_is_normalized_witness :
  fst (GitHub.fetchRepoContents
         (Scenario.always (Scenario.respond 200 "OK"
            (Some (IsObject (Scenario.entry "LICENSE" TFile)))))
         "alice" "repo" "LICENSE" (Scenario.session None None []))
  = Returned [Scenario.entry "LICENSE" TFile]
  /\ contents (viewer (snd (Viewer.fetchRepoContents "alice" "repo"
                             (Scenario.always (Scenario.respond 200 "OK"
                                (Some (IsArray [Scenario.file_data None None;
                                                Scenario.file_data None (Some "text")]))))
                             (Scenario.always Scenario.missing)
                             Scenario.viewer0 (Scenario.session None None []))))
     = [Scenario.file_data None None; Scenario.file_data None (Some "text")].
Proof.
  split.
  - refine (proj1 (proj1 listing_is_normalized
                     (Scenario.always (Scenario.respond 200 "OK"
                        (Some (IsObject (Scenario.entry "LICENSE" TFile)))))
                     "alice" "repo" "LICENSE" (Scenario.session None None [])
                     (Scenario.respond 200 "OK"
                        (Some (IsObject (Scenario.entry "LICENSE" TFile))))
                     eq_refl eq_refl) _ eq_refl).
  - refine (proj2 (proj2 listing_is_normalized "alice" "repo"
                     (Scenario.always (Scenario.respond 200 "OK"
                        (Some (IsArray [Scenario.file_data None None;
                                        Scenario.file_data None (Some "text")]))))
                     (Scenario.always Scenario.missing)
                     Scenario.viewer0 (Scenario.session None None [])
                     (Scenario.respond 200 "OK"
                        (Some (IsArray [Scenario.file_data None None;
                                        Scenario.file_data None (Some "text")])))
                     eq_refl eq_refl) _ eq_refl).
Defined.

End ListingFacts.

(** ** Default branch *)

Module BranchFacts.
Import Observe TokenFacts ListingFacts.

Lemma find_named n data :
  option_map branch_name (List.find (Viewer.named n) data)
  = if existsb (Viewer.named n) data then Some n else None.
Proof.
  induction data as [|b data IH]; [reflexivity|]. cbn.
  destruct (Viewer.named n b) eqn:Hb; [|exact IH].
  cbn. f_equal. now apply String.eqb_eq.
Qed.

(** The name of the selected branch: "main" when a branch of that name is
    listed, wherever it stands; else "master" when listed; else the name of
    the first branch; nothing on the empty list. *)
Lemma defaultBranch_name data :
  option_map branch_name (Viewer.defaultBranch data)
  = if existsb (Viewer.named "main") data then Some "main"
    else if existsb (Viewer.named "master") data then Some "master"
    else option_map branch_name (head data).
Proof.
  unfold Viewer.defaultBranch.
  pose proof (find_named "main" data) as Hmain.
  pose proof (find_named "master" data) as Hmaster.
  destruct (List.find (Viewer.named "main") data) as [b|];
    destruct (existsb (Viewer.named "main") data); try discriminate Hmain;
    [exact Hmain|].
  destruct (List.find (Viewer.named "master") data) as [b|];
    destruct (existsb (Viewer.named "master") data); try discriminate Hmaster;
    [exact Hmaster|reflexivity].
Qed.

(** C2, as stated, fails on the empty sequence: no failure is raised; the
    fetch returns normally, with the current branch as it was and no error
    shown. *)
Lemma empty_branch_list_is_not_a_failure :
  Viewer.defaultBranch [] = None
  /\ fst (Viewer.fetchBranches "alice" "repo" Scenario.empty_repository
            Scenario.viewer0 (Scenario.session None None []))
     = Returned tt
  /\ currentBranch (viewer (snd (Viewer.fetchBranches "alice" "repo" Scenario.empty_repository
                                   Scenario.viewer0 (Scenario.session None None []))))
     = "main"
  /\ error (viewer (snd (Viewer.fetchBranches "alice" "repo" Scenario.empty_repository
                           Scenario.viewer0 (Scenario.session None None []))))
     = None.
Proof. vm_compute. repeat split. Qed.

(** C2, amended.  On an ok answer listing the branches [data],
    [fetchBranches] returns normally and stores the list.  When the current
    branch it captured is still "main" and the list is not empty, the
    current branch becomes "main" if a branch of that name is listed,
    whatever its position; otherwise "master" if listed; otherwise the name
    of the first branch.  On an empty list, and when another branch was
    selected before, the current branch is left as it is; nothing fails. *)
Theorem default_branch_selection username repoName provider captured w response data :
  answer provider w (request (viewer_branches_url username repoName) Viewer.v3_json (stored_bearer w))
    = Responded response ->
  ok response = true ->
  json_body response = Some data ->
  fst (Viewer.fetchBranches username repoName provider captured w) = Returned tt
  /\ branches (viewer (snd (Viewer.fetchBranches username repoName provider captured w))) = data
  /\ currentBranch (viewer (snd (Viewer.fetchBranches username repoName provider captured w)))
     = if String.eqb (currentBranch captured) "main" then
         if existsb (Viewer.named "main") data then "main"
         else if existsb (Viewer.named "master") data then "master"
         else match data with
              | first :: _ => branch_name first
              | [] => currentBranch (viewer w)
              end
       else currentBranch (viewer w).
Proof.
  intros Hanswer Hok Hdata.
  unfold Viewer.fetchBranches, try_catch, mbind, M_bind.
  rewrite getAuthHeaders_run, fetch_run.
  fold (viewer_branches_url username repoName).
  rewrite Hanswer, Hok. cbn [negb]. unfold json_of. rewrite Hdata.
  unfold mret, M_ret. cbn [Viewer.setBranches modify].
  destruct (String.eqb (currentBranch captured) "main"); cbn [andb];
    [|repeat split].
  pose proof (defaultBranch_name data) as Hname.
  destruct data as [|first rest]; [repeat split|].
  cbn [length Nat.ltb Nat.leb].
  destruct (Viewer.defaultBranch (first :: rest)) as [b|].
  - cbn in Hname. cbn [Viewer.setCurrentBranch modify].
    repeat split. cbn.
    destruct (Viewer.named "main" first || existsb (Viewer.named "main") rest);
      [congruence|].
    destruct (Viewer.named "master" first || existsb (Viewer.named "master") rest);
      congruence.
  - exfalso. cbn in Hname.
    destruct (Viewer.named "main" first || existsb (Viewer.named "main") rest);
      [discriminate|].
    destruct (Viewer.named "master" first || existsb (Viewer.named "master") rest);
      discriminate.
Qed.

Lemma default_branch_selection_witness :
  currentBranch
    (viewer (snd (Viewer.fetchBranches "alice" "repo"
                    (Scenario.always (Scenario.respond 200 "OK"
                       (Some [Scenario.branch "dev"; Scenario.branch "master";
                              Scenario.branch "main"])))
                    Scenario.viewer0 (Scenario.session None None []))))
  = "main".
Proof.
  exact (proj2 (proj2 (default_branch_selection "alice" "repo"
           (Scenario.always (Scenario.respond 200 "OK"
              (Some [Scenario.branch "dev"; Scenario.branch "master"; Scenario.branch "main"])))
           Scenario.viewer0 (Scenario.session None None [])
           (Scenario.respond 200 "OK"
              (Some [Scenario.branch "dev"; Scenario.branch "master"; Scenario.branch "main"]))
           [Scenario.branch "dev"; Scenario.branch "master"; Scenario.branch "main"]
           eq_refl eq_refl eq_refl))).
Defined.

End BranchFacts.

(** ** File bodies *)

Module FileFacts.
Import Observe TokenFacts ListingFacts.

Lemma encode_empty bs : Base64.encode bs = "" -> bs = [].
Proof.
  destruct bs as [|a [|b [|c rest]]]; [reflexivity|..]; intros H; exfalso;
    unfold Base64.encode in H; cbn [map Base64.encode_chars] in H.
  - destruct (Base64.group3 _ _ _) as [[[s1 s2] s3] s4]. discriminate H.
  - destruct (Base64.group3 _ _ _) as [[[s1 s2] s3] s4]. discriminate H.
  - destruct (Base64.group3 _ _ _) as [[[s1 s2] s3] s4]. discriminate H.
Qed.

(** The decode step on a base64 payload with line feeds: the result is the
    binary string of the encoded bytes. *)
Lemma decodeContent_base64 (bs : list byte) (payload : string) file data w :
  Str.remove_char "010"%char payload = Base64.encode bs ->
  rc_encoding data = Some "base64" ->
  rc_content data = Some payload ->
  Viewer.decodeContent file data w = (Returned (string_of_list_byte bs), w).
Proof.
  intros Hpayload Hencoding Hcontent.
  unfold Viewer.decodeContent. rewrite Hencoding, Hcontent.
  rewrite bool_decide_eq_true_2 by reflexivity. cbn [andb truthy].
  change (default "" (Some payload)) with payload.
  destruct payload as [|c payload'] eqn:Hp.
  - cbn in Hpayload. symmetry in Hpayload. now rewrite (encode_empty _ Hpayload).
  - cbn [Str.nonempty]. rewrite Hpayload.
    unfold Viewer.atob_js. now rewrite Base64Facts.atob_encode.
Qed.

(** C3. Whatever the bytes, when the metadata says base64 and its content is
    their RFC 4648 encoding with line feeds put in anywhere, the decode step
    of [fetchFileContent] returns, without touching the world, the string
    whose bytes are exactly the original ones: the line feeds are removed
    before decoding and contribute nothing to the result. *)
Theorem base64_round_trip (bs : list byte) (payload : string) file data w :
  Str.remove_char "010"%char payload = Base64.encode bs ->
  rc_encoding data = Some "base64" ->
  rc_content data = Some payload ->
  exists decoded,
    Viewer.decodeContent file data w = (Returned decoded, w)
    /\ list_byte_of_string decoded = bs
    /\ String.length decoded = length bs.
Proof.
  intros Hpayload Hencoding Hcontent.
  exists (string_of_list_byte bs). split; [|split].
  - now apply decodeContent_base64 with (payload := payload).
  - apply list_byte_of_string_of_list_byte.
  - unfold string_of_list_byte. clear. induction bs as [|b bs IH]; cbn; congruence.
Qed.

Lemma base64_round_trip_witness :
  exists decoded,
    Viewer.decodeContent
      (Scenario.file_data None None)
      (Scenario.file_data (Some "base64") (Some Scenario.wrapped_hello))
      (Scenario.session None None [])
    = (Returned decoded, Scenario.session None None [])
    /\ list_byte_of_string decoded = list_byte_of_string "hello"
    /\ String.length decoded = 5.
Proof.
  apply (base64_round_trip (list_byte_of_string "hello") Scenario.wrapped_hello);
    reflexivity.
Defined.

(** The whole of [fetchFileContent] on such an answer: the decoded bytes are
    what the viewer shows, for the file selected. *)
Lemma fetchFileContent_shows_decoded provider file w response data (bs : list byte) payload :
  answer provider w (request (default "undefined" (rc_url file)) Viewer.v3_json (stored_bearer w))
    = Responded response ->
  ok response = true ->
  json_body response = Some data ->
  Str.remove_char "010"%char payload = Base64.encode bs ->
  rc_encoding data = Some "base64" ->
  rc_content data = Some payload ->
  list_byte_of_string
    (fileContent (viewer (snd (Viewer.fetchFileContent provider file w)))) = bs
  /\ selectedFile (viewer (snd (Viewer.fetchFileContent provider file w))) = Some file
  /\ length (requests (snd (Viewer.fetchFileContent provider file w))) = S (length (requests w)).
Proof.
  intros Hanswer Hok Hdata Hpayload Hencoding Hcontent.
  assert (Hrun : exists w',
            Viewer.fetchFileContent provider file w = (Returned tt, w')
            /\ list_byte_of_string (fileContent (viewer w')) = bs
            /\ selectedFile (viewer w') = Some file
            /\ length (requests w') = S (length (requests w))).
  { unfold Viewer.fetchFileContent, try_finally, try_catch, mbind, M_bind.
    cbn [Viewer.setLoading modify].
    rewrite getAuthHeaders_run, fetch_run.
    change (answer provider ?w' ?req) with (answer provider w req).
    change (stored_bearer _) with (stored_bearer w).
    rewrite Hanswer, Hok. cbn [negb].
    unfold json_of at 1. rewrite Hdata.
    unfold mret at 1. unfold M_ret at 1.
    match goal with
    | |- context [Viewer.decodeContent file data ?w0] =>
        rewrite (decodeContent_base64 bs payload file data w0 Hpayload Hencoding Hcontent)
    end.
    eexists. split; [reflexivity|]. cbn -[list_byte_of_string string_of_list_byte].
    repeat split; [apply list_byte_of_string_of_list_byte|].
    rewrite length_app. cbn. lia. }
  destruct Hrun as (w' & -> & Hbytes & Hfile & Hreqs). now repeat split.
Qed.

End FileFacts.

(** ** The package manifest probe *)

Module ManifestFacts.
Import GitHub Observe TokenFacts.

Section Probe.
Variable JSON_parse : string -> option json.
Variable branches_provider : Provider (list Branch).
Variable package_provider : Provider RepoContent.
Variables username repoName : string.

(** One round of the loop: whatever happens to the request and to the
    decoding, the guarded body ends normally, with the cleaned homepage when
    the manifest carries one; one request has been issued. *)
Lemma checkBranch_guarded branch w :
  try_catch (checkBranch JSON_parse package_provider username repoName branch)
            (fun branchError => mret None) w
  = (Returned (option_map clean_homepage
                 (manifest_homepage JSON_parse
                    (answer package_provider w (package_request username repoName w branch)))),
     issued (package_request username repoName w branch) w).
Proof.
  unfold checkBranch, try_catch, mbind, M_bind.
  rewrite createHeaders_run, fetch_run.
  fold (package_url username repoName (branch_name branch)).
  fold (package_request username repoName w branch).
  unfold manifest_homepage.
  destruct (answer package_provider w _) as [|response]; [reflexivity|].
  destruct (ok response); [|reflexivity].
  unfold json_of. destruct (json_body response) as [data|]; [|reflexivity].
  unfold mret at 1. unfold M_ret at 1.
  unfold atob_js. destruct (Base64.atob _) as [decoded|]; [|reflexivity].
  unfold mret at 1. unfold M_ret at 1.
  unfold JSON_parse_js. destruct (JSON_parse decoded) as [content|]; [|reflexivity].
  unfold mret at 1. unfold M_ret at 1.
  destruct content as [|flag|n|text|elements|fields]; try reflexivity.
  cbn [get_homepage]. unfold mret at 1. unfold M_ret at 1.
  destruct (assoc "homepage" fields) as [[|flag|n|h|elements|fields']|];
    cbn [json_truthy]; try reflexivity.
  - now destruct flag.
  - now destruct (negb (n =? 0)%Z).
  - now destruct (Str.nonempty h).
Qed.

Lemma package_request_issued req w branch :
  package_request username repoName (issued req w) branch
  = package_request username repoName w branch.
Proof. reflexivity. Qed.

(** The loop stops at the first branch whose manifest carries a homepage. *)
Lemma checkBranches_found pre : forall branch post h w,
  (forall k b, pre !! k = Some b ->
     manifest_homepage JSON_parse
       (package_provider (length (requests w) + k) (package_request username repoName w b)) = None) ->
  manifest_homepage JSON_parse
    (package_provider (length (requests w) + length pre)
       (package_request username repoName w branch)) = Some h ->
  exists w',
    checkBranches JSON_parse package_provider username repoName (pre ++ branch :: post) w
    = (Returned {| hasPackageJson := true; packageJsonHomepage := Some (clean_homepage h) |}, w')
    /\ requests w' = requests w ++ map (package_request username repoName w) (pre ++ [branch]).
Proof.
  induction pre as [|b0 pre IH]; intros branch post h w Hpre Hhit.
  - cbn [app checkBranches]. unfold mbind, M_bind. rewrite checkBranch_guarded.
    unfold answer. cbn [length] in Hhit. rewrite Nat.add_0_r in Hhit. rewrite Hhit.
    cbn [option_map]. eexists. split; reflexivity.
  - cbn [app checkBranches]. unfold mbind, M_bind. rewrite checkBranch_guarded.
    unfold answer. specialize (Hpre 0 b0 eq_refl) as Hmiss.
    rewrite Nat.add_0_r in Hmiss. rewrite Hmiss. cbn [option_map].
    destruct (IH branch post h (issued (package_request username repoName w b0) w))
      as (w' & Hrun & Hreqs).
    + intros k b Hk. rewrite package_request_issued.
      cbn [issued set_requests requests]. rewrite length_app. cbn [length].
      replace (length (requests w) + 1 + k) with (length (requests w) + S k) by lia.
      now apply Hpre.
    + rewrite package_request_issued.
      cbn [issued set_requests requests]. rewrite length_app. cbn [length].
      replace (length (requests w) + 1 + length pre)
        with (length (requests w) + S (length pre)) by lia.
      exact Hhit.
    + exists w'. split; [exact Hrun|]. rewrite Hreqs.
      cbn [issued set_requests requests map app]. now rewrite <- app_assoc.
Qed.

(** Without such a branch the loop visits every branch and finds nothing. *)
Lemma checkBranches_exhausted branches : forall w,
  (forall k b, branches !! k = Some b ->
     manifest_homepage JSON_parse
       (package_provider (length (requests w) + k) (package_request username repoName w b)) = None) ->
  exists w',
    checkBranches JSON_parse package_provider username repoName branches w
    = (Returned not_found, w')
    /\ requests w' = requests w ++ map (package_request username repoName w) branches.
Proof.
  induction branches as [|b0 branches IH]; intros w Hall.
  - exists w. split; [reflexivity|]. cbn. now rewrite app_nil_r.
  - cbn [checkBranches]. unfold mbind, M_bind. rewrite checkBranch_guarded.
    unfold answer. specialize (Hall 0 b0 eq_refl) as Hmiss.
    rewrite Nat.add_0_r in Hmiss. rewrite Hmiss. cbn [option_map].
    destruct (IH (issued (package_request username repoName w b0) w)) as (w' & Hrun & Hreqs).
    + intros k b Hk. rewrite package_request_issued.
      cbn [issued set_requests requests]. rewrite length_app. cbn [length].
      replace (length (requests w) + 1 + k) with (length (requests w) + S k) by lia.
      now apply Hall.
    + exists w'. split; [exact Hrun|]. rewrite Hreqs.
      cbn [issued set_requests requests map app]. now rewrite <- app_assoc.
Qed.

(** The loop always returns. *)
Lemma checkBranches_returns branches : forall w,
  exists info w',
    checkBranches JSON_parse package_provider username repoName branches w = (Returned info, w').
Proof.
  induction branches as [|b0 branches IH]; intros w.
  - now exists not_found, w.
  - cbn [checkBranches]. unfold mbind, M_bind. rewrite checkBranch_guarded.
    destruct (option_map _ _) as [h|]; [now eexists _, _|]. apply IH.
Qed.

End Probe.

(** C6. [checkForPackageJson] never fails: it always returns.  When the
    branches are listed, it asks for the manifest of each branch in the
    listed order; at the first branch whose manifest decodes and carries a
    non-empty homepage it returns that homepage, trimmed and without
    backticks, having issued no request for a later branch; a branch whose
    manifest cannot be fetched, decoded or parsed, or carries no homepage, is
    passed over; when no branch is left it returns not-found. *)
Theorem manifest_probe JSON_parse branches_provider package_provider username repoName w :
  (exists info w',
     checkForPackageJson JSON_parse branches_provider package_provider username repoName w
     = (Returned info, w'))
  /\ forall response branches,
       answer branches_provider w (request (branches_url username repoName) v3_json (bearer w))
         = Responded response ->
       ok response = true ->
       json_body response = Some branches ->
       let w1 := issued (request (branches_url username repoName) v3_json (bearer w)) w in
       let manifest k b :=
         manifest_homepage JSON_parse
           (package_provider (length (requests w1) + k) (package_request username repoName w b)) in
       (forall pre branch post h,
          branches = pre ++ branch :: post ->
          (forall k b, pre !! k = Some b -> manifest k b = None) ->
          manifest (length pre) branch = Some h ->
          exists w',
            checkForPackageJson JSON_parse branches_provider package_provider username repoName w
            = (Returned {| hasPackageJson := true;
                           packageJsonHomepage := Some (clean_homepage h) |}, w')
            /\ requests w'
               = requests w1 ++ map (package_request username repoName w) (pre ++ [branch]))
       /\ ((forall k b, branches !! k = Some b -> manifest k b = None) ->
           exists w',
             checkForPackageJson JSON_parse branches_provider package_provider username repoName w
             = (Returned not_found, w')
             /\ requests w'
                = requests w1 ++ map (package_request username repoName w) branches).
Proof.
  split.
  - unfold checkForPackageJson, try_catch, mbind, M_bind.
    rewrite createHeaders_run, fetch_run.
    destruct (answer _ _ _) as [|response]; [now eexists _, _|].
    destruct (ok response); cbn [negb]; [|now eexists _, _].
    unfold json_of. destruct (json_body response) as [branches|]; [|now eexists _, _].
    unfold mret at 1. unfold M_ret at 1.
    destruct (checkBranches_returns JSON_parse package_provider username repoName branches
                (issued (request (GITHUB_API_BASE +:+ "/repos/" +:+ username +:+ "/" +:+ repoName
                                    +:+ "/branches") v3_json (bearer w)) w))
      as (info & w' & ->).
    now exists info, w'.
  - intros response branches Hanswer Hok Hbody w1 manifest.
    assert (Hrun : checkForPackageJson JSON_parse branches_provider package_provider
                     username repoName w
                   = match checkBranches JSON_parse package_provider username repoName branches w1 with
                     | (Thrown e, w') => (Returned not_found, w')
                     | r => r
                     end).
    { unfold checkForPackageJson, try_catch, mbind, M_bind.
      rewrite createHeaders_run, fetch_run.
      fold (branches_url username repoName). rewrite Hanswer, Hok. cbn [negb].
      unfold json_of. rewrite Hbody. reflexivity. }
    split.
    + intros pre branch post h -> Hpre Hhit.
      destruct (checkBranches_found JSON_parse package_provider username repoName
                  pre branch post h w1 Hpre Hhit) as (w' & Hloop & Hreqs).
      exists w'. rewrite Hrun, Hloop. split; [reflexivity|exact Hreqs].
    + intros Hall.
      destruct (checkBranches_exhausted JSON_parse package_provider username repoName
                  branches w1 Hall) as (w' & Hloop & Hreqs).
      exists w'. rewrite Hrun, Hloop. split; [reflexivity|exact Hreqs].
Qed.

Lemma manifest_probe_witness :
  exists w',
    checkForPackageJson Scenario.manifest_parser Scenario.dev_and_main Scenario.manifest_on_main
      "alice" "repo" (Scenario.session None None [])
    = (Returned {| hasPackageJson := true; packageJsonHomepage := Some "https://alice.dev" |}, w')
    /\ length (requests w') = 3.
Proof.
  edestruct (proj2 (manifest_probe Scenario.manifest_parser Scenario.dev_and_main
                      Scenario.manifest_on_main "alice" "repo"
                      (Scenario.session None None [])))
    as [Hfound _]; [reflexivity | reflexivity | reflexivity |].
  edestruct (Hfound [Scenario.branch "dev"] (Scenario.branch "main") []
               " `https://alice.dev` ")
    as (w' & Hrun & Hreqs); [reflexivity | | vm_compute; reflexivity |].
  - intros [|k] b H; cbn in H; [|discriminate H].
    injection H as <-. vm_compute. reflexivity.
  - exists w'. split; [exact Hrun|]. now rewrite Hreqs.
Defined.

End ManifestFacts.

(** ** Language detection *)

Module LanguageFacts.
Import GitHub Observe TokenFacts.

(** The examples of the specification. *)
Example python_wins :
  primaryLanguageOf [Scenario.entry "a.py" TFile; Scenario.entry "b.py" TFile;
                     Scenario.entry "c.js" TFile] = "Python".
Proof. reflexivity. Qed.

Example unknown_suffix : primaryLanguageOf [Scenario.entry "a.xyz" TFile] = "".
Proof. reflexivity. Qed.

Example empty_listing : primaryLanguageOf [] = "".
Proof. reflexivity. Qed.

Example tie_goes_to_first_met :
  primaryLanguageOf [Scenario.entry "a.js" TFile; Scenario.entry "b.py" TFile;
                     Scenario.entry "c.py" TFile; Scenario.entry "d.ts" TFile;
                     Scenario.entry "e.js" TFile] = "JavaScript".
Proof. reflexivity. Qed.

(** C4 at a listing none of whose files has a suffix of the table: a file
    whose suffix is the name of a member of [Object.prototype] is tallied,
    under the text of that member, and that text is the answer instead of
    the empty label. *)
Theorem inherited_member_is_tallied :
  known_labels [Scenario.entry "notes.constructor" TFile] = []
  /\ primaryLanguageOf [Scenario.entry "notes.constructor" TFile]
     = "function Object() { [native code] }"
  /\ known_labels [Scenario.entry "a.__proto__" TFile] = []
  /\ primaryLanguageOf [Scenario.entry "a.__proto__" TFile] = "[object Object]"
  /\ fst (detectProgrammingLanguages
            (Scenario.always (Scenario.respond 200 "OK"
               (Some (IsArray [Scenario.entry "a.__proto__" TFile]))))
            "alice" "repo" (Scenario.session None None []))
     = Returned "[object Object]".
Proof. vm_compute. repeat split. Qed.

(** *** The tally *)

Lemma omap_cons {A B} (f : A -> option B) x l :
  omap f (x :: l) = match f x with Some y => y :: omap f l | None => omap f l end.
Proof. reflexivity. Qed.

Lemma languageCounts_known exts :
  (forall ext, In ext exts -> Object_prototype_key ext = None) ->
  languageCounts exts = tally (omap (fun ext => assoc ext languageMap) exts) [].
Proof.
  unfold languageCounts, tally. generalize (@nil (string * nat)).
  induction exts as [|ext exts IH]; intros counts Hknown; [reflexivity|].
  assert (Hget : languageMap_get ext = assoc ext languageMap).
  { unfold languageMap_get. destruct (assoc ext languageMap); [reflexivity|].
    apply Hknown. now left. }
  cbn [fold_left]. rewrite omap_cons, Hget.
  rewrite IH by (intros e He; apply Hknown; now right).
  now destruct (assoc ext languageMap).
Qed.

Lemma occurrences_snoc l labels x :
  occurrences l (labels ++ [x])
  = occurrences l labels + (if String.eqb l x then 1 else 0).
Proof.
  unfold occurrences. rewrite List.filter_app, length_app. cbn.
  now destruct (String.eqb l x).
Qed.

Lemma occurrences_absent l labels : ~ In l labels -> occurrences l labels = 0.
Proof.
  unfold occurrences. induction labels as [|x labels IH]; intros Hin; [reflexivity|].
  cbn. destruct (String.eqb_spec l x) as [->|Hne].
  - exfalso. apply Hin. now left.
  - apply IH. intros H. apply Hin. now right.
Qed.

Lemma occurrences_present l labels : In l labels -> 0 < occurrences l labels.
Proof.
  unfold occurrences. induction labels as [|x labels IH]; intros Hin; [destruct Hin|].
  cbn. destruct (String.eqb_spec l x) as [->|Hne]; cbn; [lia|].
  destruct Hin as [->|Hin]; [congruence|]. now apply IH.
Qed.

Lemma first_met_In l labels : In l (first_met labels) <-> In l labels.
Proof.
  induction labels as [|x labels IH]; [reflexivity|]. cbn [first_met In].
  rewrite List.filter_In, IH, negb_true_iff.
  destruct (String.eqb_spec l x) as [->|Hne]; intuition congruence.
Qed.

Lemma first_met_NoDup labels : List.NoDup (first_met labels).
Proof.
  induction labels as [|x labels IH]; cbn [first_met]; constructor.
  - rewrite List.filter_In, String.eqb_refl. intros [_ H]. discriminate H.
  - now apply List.NoDup_filter.
Qed.

Lemma mentions_In x labels : existsb (String.eqb x) labels = true <-> In x labels.
Proof.
  rewrite existsb_exists. split.
  - intros (y & Hy & Heq). apply String.eqb_eq in Heq. now subst.
  - intros H. exists x. split; [exact H|apply String.eqb_refl].
Qed.

Lemma first_met_snoc labels x :
  first_met (labels ++ [x])
  = if existsb (String.eqb x) labels then first_met labels else first_met labels ++ [x].
Proof.
  induction labels as [|y labels IH]; [reflexivity|].
  cbn [app first_met existsb]. rewrite IH.
  destruct (String.eqb_spec x y) as [->|Hne]; cbn [orb].
  - destruct (existsb (String.eqb y) labels); [reflexivity|].
    rewrite List.filter_app. cbn. rewrite String.eqb_refl. cbn. now rewrite app_nil_r.
  - destruct (existsb (String.eqb x) labels); [reflexivity|].
    rewrite List.filter_app. cbn.
    destruct (String.eqb_spec x y) as [->|_]; [congruence|]. reflexivity.
Qed.

Lemma increment_present (c : string -> nat) x keys :
  List.NoDup keys -> In x keys ->
  increment x (map (fun l => (l, c l)) keys)
  = map (fun l => (l, c l + (if String.eqb l x then 1 else 0))) keys.
Proof.
  induction keys as [|y keys IH]; intros Hnodup Hin; [destruct Hin|].
  inversion Hnodup as [|? ? Hy Hkeys]; subst. cbn [map increment].
  destruct (String.eqb_spec y x) as [->|Hne].
  - f_equal. apply map_ext_in. intros l Hl.
    destruct (String.eqb_spec l x) as [->|_]; [contradiction|].
    now rewrite Nat.add_0_r.
  - rewrite Nat.add_0_r. f_equal. apply IH; [exact Hkeys|].
    destruct Hin as [->|Hin]; [congruence|exact Hin].
Qed.

Lemma increment_absent (c : string -> nat) x keys :
  ~ In x keys ->
  increment x (map (fun l => (l, c l)) keys) = map (fun l => (l, c l)) keys ++ [(x, 1)].
Proof.
  induction keys as [|y keys IH]; intros Hin; [reflexivity|].
  cbn [map increment app].
  destruct (String.eqb_spec y x) as [->|Hne].
  - exfalso. apply Hin. now left.
  - f_equal. apply IH. intros H. apply Hin. now right.
Qed.

(** The tally lists the labels in the order in which they are first met,
    each with the number of its occurrences. *)
Lemma tally_spec labels :
  tally labels [] = map (fun l => (l, occurrences l labels)) (first_met labels).
Proof.
  induction labels as [|x labels IH] using rev_ind; [reflexivity|].
  unfold tally in *. rewrite fold_left_app. cbn [fold_left]. rewrite IH.
  rewrite first_met_snoc.
  destruct (existsb (String.eqb x) labels) eqn:Hx.
  - apply mentions_In in Hx.
    rewrite increment_present by (auto using first_met_NoDup; now apply first_met_In).
    apply map_ext. intros l. now rewrite occurrences_snoc.
  - assert (Hnot : ~ In x labels).
    { intros H. apply mentions_In in H. congruence. }
    rewrite increment_absent by now rewrite first_met_In.
    rewrite map_app. cbn [map]. f_equal.
    + apply map_ext_in. intros l Hl. rewrite occurrences_snoc.
      destruct (String.eqb_spec l x) as [Heq|_]; [|now rewrite Nat.add_0_r].
      exfalso. apply Hnot. rewrite <- Heq. now apply first_met_In.
    + rewrite occurrences_snoc, String.eqb_refl, (occurrences_absent x labels Hnot).
      reflexivity.
Qed.

(** *** The choice of the most common label *)

Lemma mostCommon_snoc entries language count :
  mostCommon (entries ++ [(language, count)])
  = if snd (mostCommon entries) <? count then (language, count) else mostCommon entries.
Proof.
  unfold mostCommon. rewrite fold_left_app. cbn [fold_left].
  now destruct (fold_left _ entries _) as [p m].
Qed.

(** The loop keeps the first of the entries with the highest count. *)
Lemma mostCommon_spec entries :
  (forall e, In e entries -> 0 < snd e) ->
  (entries = [] /\ mostCommon entries = ("", 0))
  \/ exists before language count after,
       entries = before ++ (language, count) :: after
       /\ mostCommon entries = (language, count)
       /\ (forall e, In e before -> snd e < count)
       /\ (forall e, In e after -> snd e <= count).
Proof.
  induction entries as [|[l n] entries IH] using rev_ind; intros Hpos; [now left|].
  right. rewrite mostCommon_snoc.
  assert (Hn : 0 < n) by (apply (Hpos (l, n)), in_or_app; right; now left).
  destruct IH as [[-> Hres] | (before & l0 & n0 & after & -> & Hres & Hbefore & Hafter)].
  - intros e He. apply Hpos, in_or_app. now left.
  - rewrite Hres. cbn [snd]. destruct (Nat.ltb_spec 0 n); [|lia].
    exists [], l, n, []. repeat split; intros e [].
  - rewrite Hres. cbn [snd]. destruct (Nat.ltb_spec n0 n) as [Hlt|Hge].
    + exists (before ++ (l0, n0) :: after), l, n, []. repeat split.
      * intros e He. apply in_app_or in He as [He|[<-|He]].
        -- specialize (Hbefore e He). lia.
        -- exact Hlt.
        -- specialize (Hafter e He). lia.
      * intros e [].
    + exists before, l0, n0, (after ++ [(l, n)]). repeat split.
      * now rewrite <- app_assoc.
      * exact Hbefore.
      * intros e He. apply in_app_or in He as [He|[<-|[]]]; [now apply Hafter|exact Hge].
Qed.

(** Away from the suffixes that name a member of [Object.prototype] the
    detection is the one specified: no file with a known suffix gives the
    empty label; otherwise the answer is, among the labels in the order in
    which the listing first meets them, the first one with the highest
    number of occurrences: every label met before it occurs strictly less
    often, every label met after it at most as often. *)
Theorem primaryLanguage_spec contents :
  (forall ext, In ext (fileExtensions contents) -> Object_prototype_key ext = None) ->
  let labels := known_labels contents in
  (labels = [] /\ primaryLanguageOf contents = "")
  \/ exists before after,
       first_met labels = before ++ primaryLanguageOf contents :: after
       /\ In (primaryLanguageOf contents) labels
       /\ (forall l, In l before ->
             occurrences l labels < occurrences (primaryLanguageOf contents) labels)
       /\ (forall l, In l after ->
             occurrences l labels <= occurrences (primaryLanguageOf contents) labels).
Proof.
  intros Hknown labels. unfold primaryLanguageOf.
  rewrite (languageCounts_known _ Hknown). fold (known_labels contents). fold labels.
  rewrite tally_spec.
  destruct (mostCommon_spec (map (fun l => (l, occurrences l labels)) (first_met labels)))
    as [[Hnil Hres] | (before & l & n & after & Hsplit & Hres & Hbefore & Hafter)].
  - intros e He. apply in_map_iff in He as (l & <- & Hl). cbn.
    apply occurrences_present. now apply first_met_In.
  - left. split; [|now rewrite Hres].
    apply map_eq_nil in Hnil. destruct labels; [reflexivity|discriminate Hnil].
  - right. rewrite Hres. cbn [fst].
    apply map_eq_app in Hsplit as (ks1 & ks2 & Hks & Hk1 & Hk2).
    apply map_eq_cons in Hk2 as (k & ks3 & -> & Hk & Hk3).
    injection Hk as -> <-. subst before after.
    exists ks1, ks3. repeat split.
    + exact Hks.
    + apply first_met_In. rewrite Hks. apply in_or_app. right. now left.
    + intros l' Hl'. apply (Hbefore (l', occurrences l' labels)).
      apply in_map_iff. now exists l'.
    + intros l' Hl'. apply (Hafter (l', occurrences l' labels)).
      apply in_map_iff. now exists l'.
Qed.

End LanguageFacts.

(** ** Markdown image references *)

Module MarkdownFacts.
Import Viewer Observe.

(** The examples of the specification. *)
Example relative_image :
  processMarkdownContent "alice" "repo" "main" "![x](img/a.png)"
  = "![x](https://raw.githubusercontent.com/alice/repo/main/img/a.png)".
Proof. reflexivity. Qed.

Example absolute_image :
  processMarkdownContent "alice" "repo" "main" "![x](https://ext.com/a.png)"
  = "![x](https://ext.com/a.png)".
Proof. reflexivity. Qed.

(** C5 at a ref with a dollar sign: the ref is pasted into the replacement
    text, where a dollar sign followed by a digit stands for a capture, so
    the address written for the image is not the one of that ref. *)
Theorem dollar_in_ref_is_a_replacement_pattern :
  processMarkdownContent "alice" "repo" "v$1" "![x](img/a.png)"
  = "![x](https://raw.githubusercontent.com/alice/repo/vx/img/a.png)"
  /\ processMarkdownContent "alice" "repo" "v$1" "![x](img/a.png)"
     <> image "x" (raw_url "alice" "repo" "v$1" "img/a.png").
Proof. split; [reflexivity | vm_compute; discriminate]. Qed.

Lemma span_not_stop c a rest :
  free_of c a = true ->
  span_not c (a +:+ String c rest) = (a, String c rest).
Proof.
  induction a as [|d a IH]; intros Hfree.
  - rewrite StrFacts.app_nil_l. cbn. now rewrite Ascii.eqb_refl.
  - cbn in Hfree. apply andb_prop in Hfree as [Hd Ha]. apply negb_true_iff in Hd.
    rewrite StrFacts.app_cons. cbn [span_not]. rewrite Hd, (IH Ha). reflexivity.
Qed.

Lemma startsWith_http_before_paren path rest :
  Str.startsWith "http" (path +:+ String ")"%char rest) = Str.startsWith "http" path.
Proof.
  destruct path as [|c1 [|c2 [|c3 [|c4 path]]]];
    rewrite ?StrFacts.app_cons, ?StrFacts.app_nil_l; cbn;
    repeat match goal with
           | |- context [Ascii.eqb ?a ?b] => destruct (Ascii.eqb a b); cbn
           end; reflexivity.
Qed.

(** The pattern matches an image reference whose destination is not
    http-prefixed, and captures its two parts. *)
Lemma match_image_relative alt path rest :
  free_of "]"%char alt = true ->
  free_of ")"%char path = true ->
  Str.startsWith "http" path = false ->
  match_image (image alt path +:+ rest) = Some (alt, path, rest).
Proof.
  intros Halt Hpath Hhttp. unfold image.
  rewrite !StrFacts.app_assoc, !StrFacts.app_cons, !StrFacts.app_nil_l.
  cbn [match_image Ascii.eqb Bool.eqb andb].
  rewrite (span_not_stop _ _ _ Halt). cbn [Ascii.eqb Bool.eqb andb].
  rewrite startsWith_http_before_paren, Hhttp.
  rewrite (span_not_stop _ _ _ Hpath). cbn [Ascii.eqb Bool.eqb andb]. reflexivity.
Qed.

Lemma expand_literal text template captures matched before after :
  free_of "$"%char text = true ->
  expand (text +:+ template) captures matched before after
  = text +:+ expand template captures matched before after.
Proof.
  induction text as [|c text IH]; intros Hfree; [reflexivity|].
  cbn in Hfree. apply andb_prop in Hfree as [Hc Htext].
  rewrite !StrFacts.app_cons. cbn [expand]. rewrite Hc, (IH Htext). reflexivity.
Qed.

(** With no dollar sign in the coordinate and the ref, the replacement text
    of a match is the reference to the raw-content address. *)
Lemma expand_image_template username repoName ref alt path matched before after :
  free_of "$"%char username = true ->
  free_of "$"%char repoName = true ->
  free_of "$"%char ref = true ->
  expand (image_template username repoName ref) [alt; path] matched before after
  = image alt (raw_url username repoName ref path).
Proof.
  intros Hu Hr Href. unfold image_template, image, raw_url.
  rewrite ?StrFacts.app_cons, ?StrFacts.app_nil_l. cbn.
  rewrite (expand_literal _ _ _ _ _ _ Hu).
  rewrite ?StrFacts.app_cons, ?StrFacts.app_nil_l. cbn.
  rewrite (expand_literal _ _ _ _ _ _ Hr).
  rewrite ?StrFacts.app_cons, ?StrFacts.app_nil_l. cbn.
  rewrite (expand_literal _ _ _ _ _ _ Href).
  rewrite ?StrFacts.app_cons, ?StrFacts.app_nil_l. cbn.
  repeat first [rewrite StrFacts.app_assoc | rewrite StrFacts.app_cons
               | rewrite StrFacts.app_nil_l].
  reflexivity.
Qed.

Lemma replace_images_match template before c s alt path rest :
  match_image (String c s) = Some (alt, path, rest) ->
  replace_images template before 0 (String c s)
  = expand template [alt; path] (image alt path) (Str.of_chars (rev before)) rest
      +:+ replace_images template (c :: before) (String.length (image alt path) - 1) s.
Proof. intros H. cbn [replace_images]. now rewrite H. Qed.

Lemma replace_images_no_match template before c s :
  match_image (String c s) = None ->
  replace_images template before 0 (String c s)
  = String c (replace_images template (c :: before) 0 s).
Proof. intros H. cbn [replace_images]. now rewrite H. Qed.

(** The characters of a match are passed over. *)
Lemma replace_images_skip template matched : forall before rest,
  replace_images template before (String.length matched) (matched +:+ rest)
  = replace_images template (rev (Str.chars matched) ++ before) 0 rest.
Proof.
  induction matched as [|c matched IH]; intros before rest.
  - rewrite StrFacts.app_nil_l. cbn [String.length]. destruct rest; reflexivity.
  - rewrite StrFacts.app_cons. cbn [String.length replace_images]. rewrite IH.
    unfold Str.chars. cbn [list_ascii_of_string rev]. now rewrite <- app_assoc.
Qed.

(** Text without an exclamation mark is copied. *)
Lemma replace_images_plain template text : forall before rest,
  free_of "!"%char text = true ->
  replace_images template before 0 (text +:+ rest)
  = text +:+ replace_images template (rev (Str.chars text) ++ before) 0 rest.
Proof.
  induction text as [|c text IH]; intros before rest Hfree; [reflexivity|].
  cbn in Hfree. apply andb_prop in Hfree as [Hc Htext]. apply negb_true_iff in Hc.
  rewrite !StrFacts.app_cons. rewrite replace_images_no_match.
  - rewrite (IH _ _ Htext). unfold Str.chars. cbn [list_ascii_of_string rev].
    now rewrite <- app_assoc.
  - unfold match_image. destruct (text +:+ rest); [reflexivity|]. now rewrite Hc.
Qed.

(** A relative image reference is replaced by the reference to the
    raw-content address of its path. *)
Lemma replace_images_relative username repoName ref alt path before rest :
  free_of "$"%char username = true ->
  free_of "$"%char repoName = true ->
  free_of "$"%char ref = true ->
  free_of "]"%char alt = true ->
  free_of ")"%char path = true ->
  Str.startsWith "http" path = false ->
  replace_images (image_template username repoName ref) before 0 (image alt path +:+ rest)
  = image alt (raw_url username repoName ref path)
      +:+ replace_images (image_template username repoName ref)
            (rev (Str.chars (image alt path)) ++ before) 0 rest.
Proof.
  intros Hu Hr Href Halt Hpath Hhttp.
  pose proof (match_image_relative alt path rest Halt Hpath Hhttp) as Hmatch.
  rewrite <- (expand_image_template username repoName ref alt path
                (image alt path) (Str.of_chars (rev before)) rest Hu Hr Href).
  set (replacement := expand _ _ _ _ _).
  set (tail := "[" +:+ alt +:+ "](" +:+ path +:+ ")").
  change (image alt path) with (String "!"%char tail) in *.
  rewrite StrFacts.app_cons in Hmatch |- *.
  rewrite (replace_images_match _ _ _ _ _ _ _ Hmatch).
  change (image alt path) with (String "!"%char tail).
  fold replacement. f_equal.
  cbn [String.length]. rewrite Nat.sub_1_r. cbn [Nat.pred].
  rewrite replace_images_skip.
  unfold Str.chars. cbn [list_ascii_of_string rev]. now rewrite <- app_assoc.
Qed.

(** An http-prefixed image reference is copied. *)
Lemma replace_images_absolute template alt url before rest :
  free_of "]"%char alt = true ->
  free_of "!"%char alt = true ->
  free_of "!"%char url = true ->
  Str.startsWith "http" url = true ->
  replace_images template before 0 (image alt url +:+ rest)
  = image alt url
      +:+ replace_images template (rev (Str.chars (image alt url)) ++ before) 0 rest.
Proof.
  intros Hbracket Halt Hurl Hhttp.
  assert (Himage : image alt url
                   = String "!"%char ("[" +:+ alt +:+ "](" +:+ url +:+ ")")) by reflexivity.
  rewrite Himage. rewrite StrFacts.app_cons. rewrite replace_images_no_match.
  - rewrite replace_images_plain.
    + unfold Str.chars. cbn [list_ascii_of_string rev]. now rewrite <- app_assoc.
    + clear -Halt Hurl.
      assert (Happ : forall a b, free_of "!"%char a = true -> free_of "!"%char b = true ->
                       free_of "!"%char (a +:+ b) = true).
      { induction a as [|c a IH]; intros b Ha Hb; [exact Hb|].
        cbn in Ha. apply andb_prop in Ha as [Hc Ha].
        rewrite StrFacts.app_cons. cbn. now rewrite Hc, IH. }
      repeat apply Happ; auto.
  - rewrite !StrFacts.app_assoc, !StrFacts.app_cons, !StrFacts.app_nil_l.
    cbn [match_image Ascii.eqb Bool.eqb andb].
    rewrite (span_not_stop _ _ _ Hbracket). cbn [Ascii.eqb Bool.eqb andb].
    assert (Hprefix : forall t, Str.startsWith "http" (url +:+ t) = true)
      by (intros t; now apply StrFacts.startsWith_app).
    now rewrite Hprefix.
Qed.

(** With no dollar sign in the coordinate and the ref the normalization is
    the one specified: in a body made of plain text and image references,
    each relative reference is replaced by the reference to the raw-content
    address of its path under the owner, the repository and the ref, and
    each http-prefixed reference, like the text around, is left as it is. *)
Theorem normalize_rewrites_relative_images username repoName ref segments :
  free_of "$"%char username = true ->
  free_of "$"%char repoName = true ->
  free_of "$"%char ref = true ->
  forallb well_formed segments = true ->
  processMarkdownContent username repoName ref (body_of segments)
  = body_of (map (normalized username repoName ref) segments).
Proof.
  intros Hu Hr Href. unfold processMarkdownContent. generalize (@nil ascii).
  induction segments as [|seg segments IH]; intros before Hwf; [reflexivity|].
  cbn in Hwf. apply andb_prop in Hwf as [Hseg Hrest].
  cbn [body_of fold_right map]. fold (body_of segments).
  fold (body_of (map (normalized username repoName ref) segments)).
  destruct seg as [text|alt path|alt url]; cbn [segment_text normalized well_formed] in *.
  - rewrite replace_images_plain by exact Hseg. now rewrite IH.
  - apply andb_prop in Hseg as [Hseg Hhttp]. apply andb_prop in Hseg as [Halt Hpath].
    apply negb_true_iff in Hhttp.
    rewrite replace_images_relative by assumption. now rewrite IH.
  - apply andb_prop in Hseg as [Hseg Hhttp]. apply andb_prop in Hseg as [Hseg Hurl].
    apply andb_prop in Hseg as [Hbracket Halt].
    rewrite replace_images_absolute by assumption. now rewrite IH.
Qed.

End MarkdownFacts.

(** ** The service fetches: one request, no retry, no fallback value *)

Module ServiceFacts.
Import GitHub Observe TokenFacts.

Lemma lookup_token_saved token w :
  localStorage (snd (setGitHubToken token w)) !! "github_token" = Some token.
Proof. cbn. apply lookup_insert_eq. Qed.

(** A token saved with [setGitHubToken] is the credential from then on:
    [getGitHubToken] yields it unless a non-empty environment value
    overrides it, [createHeaders] sends what [getGitHubToken] yields when it
    is not empty, and the viewer's [getAuthHeaders], which does not look at
    the environment, sends the saved token.  No other key of the store is
    written. *)
Theorem saved_token_is_used token w :
  fst (getGitHubToken (snd (setGitHubToken token w)))
  = Returned (if truthy (env_token w) then env_token w else Some token)
  /\ fst (createHeaders (snd (setGitHubToken token w)))
     = Returned (if truthy (env_token w) then env_token w
                 else if Str.nonempty token then Some token else None)
  /\ fst (Viewer.getAuthHeaders (snd (setGitHubToken token w)))
     = Returned (if Str.nonempty token then Some token else None)
  /\ env_token (snd (setGitHubToken token w)) = env_token w
  /\ forall key, key <> "github_token" ->
       localStorage (snd (setGitHubToken token w)) !! key = localStorage w !! key.
Proof.
  rewrite getGitHubToken_run, createHeaders_run.
  unfold bearer, token_of. rewrite lookup_token_saved.
  change (env_token (snd (setGitHubToken token w))) with (env_token w).
  repeat split.
  - destruct (truthy (env_token w)) eqn:Henv; cbn; [now rewrite Henv|reflexivity].
  - rewrite ListingFacts.getAuthHeaders_run. unfold stored_bearer.
    now rewrite lookup_token_saved.
  - intros key Hkey. cbn. now apply lookup_insert_ne.
Qed.

(** The repository listing in closed form. *)
Lemma fetchUserRepositories_run provider fuel username w :
  fetchUserRepositories provider (S fuel) username w =
  (match payload (answer provider w (request (repos_url username) v3_json (bearer w))) with
   | Some repos => Returned repos
   | None => Thrown (service_failure
                       (answer provider w (request (repos_url username) v3_json (bearer w))))
   end,
   after_service_fetch (answer provider w (request (repos_url username) v3_json (bearer w)))
     (request (repos_url username) v3_json (bearer w)) w).
Proof.
  cbn [fetchUserRepositories]. unfold try_catch, mbind, M_bind.
  rewrite createHeaders_run, fetch_run. fold (repos_url username).
  unfold payload, service_failure, after_service_fetch.
  destruct (answer provider w _) as [|response]; [reflexivity|].
  destruct (ok response); cbn [negb].
  - unfold json_of. now destruct (json_body response).
  - rewrite handleApiError_run. reflexivity.
Qed.

Lemma requests_after_service_fetch {A} (a : FetchResult A) req w :
  requests (after_service_fetch a req w) = requests w ++ [req].
Proof.
  unfold after_service_fetch. destruct a as [|response]; [reflexivity|].
  destruct (ok response); [reflexivity|]. now destruct (is_rejection response).
Qed.

(** [fetchUserRepositories] makes exactly one request whatever the answer,
    and never calls itself again: with any positive amount of fuel it ends,
    and the result does not depend on the amount.  It returns a list exactly
    when the answer is ok and parses, and the list is then the provider's;
    the fallback empty list after the error handler is never returned. *)
Theorem repository_listing_is_one_shot provider fuel fuel' username w :
  fetchUserRepositories provider (S fuel) username w
  = fetchUserRepositories provider (S fuel') username w
  /\ fst (fetchUserRepositories provider (S fuel) username w) <> Diverged
  /\ requests (snd (fetchUserRepositories provider (S fuel) username w))
     = requests w ++ [request (repos_url username) v3_json (bearer w)]
  /\ forall repos,
       fst (fetchUserRepositories provider (S fuel) username w) = Returned repos
       <-> payload (answer provider w (request (repos_url username) v3_json (bearer w)))
           = Some repos.
Proof.
  rewrite !fetchUserRepositories_run. cbn [fst snd].
  split; [reflexivity|]. split; [|split].
  - now destruct (payload _).
  - apply requests_after_service_fetch.
  - intros repos. destruct (payload _) as [listed|]; split; congruence.
Qed.

(** The content listing of the service in closed form. *)
Lemma fetchRepoContents_run provider username repoName path w :
  fetchRepoContents provider username repoName path w =
  (match payload (answer provider w
                    (request (contents_url username repoName path) v3_json (bearer w))) with
   | Some data => Returned (as_sequence data)
   | None => Thrown (service_failure
                       (answer provider w
                          (request (contents_url username repoName path) v3_json (bearer w))))
   end,
   after_service_fetch
     (answer provider w (request (contents_url username repoName path) v3_json (bearer w)))
     (request (contents_url username repoName path) v3_json (bearer w)) w).
Proof.
  unfold fetchRepoContents, try_catch, mbind, M_bind.
  rewrite createHeaders_run, fetch_run. fold (contents_url username repoName path).
  unfold payload, service_failure, after_service_fetch.
  destruct (answer provider w _) as [|response]; [reflexivity|].
  destruct (ok response); cbn [negb].
  - unfold json_of. destruct (json_body response) as [[items|item]|]; reflexivity.
  - rewrite handleApiError_run. reflexivity.
Qed.



(** The language detection in closed form. *)
Lemma detectProgrammingLanguages_run provider username repoName w :
  detectProgrammingLanguages provider username repoName w =
  (Returned
     match payload (answer provider w
                      (request (contents_url username repoName "") v3_json (bearer w))) with
     | Some data => primaryLanguageOf (as_sequence data)
     | None => ""
     end,
   after_service_fetch
     (answer provider w (request (contents_url username repoName "") v3_json (bearer w)))
     (request (contents_url username repoName "") v3_json (bearer w)) w).
Proof.
  unfold detectProgrammingLanguages, try_catch, mbind, M_bind.
  rewrite fetchRepoContents_run.
  now destruct (payload (answer provider w _)).
Qed.

(** [detectProgrammingLanguages] never fails: it returns the label of the
    listing when the root listing is answered ok and parses, and the empty
    label in every other case, after one request.  The failure it hides
    still has its effect: on a 401 or 403 the error handler has cleared the
    credential and asked for a new one (the world is the one
    [world_after_rejection] describes); on any other answer nothing but the
    request log changes. *)
Theorem language_detection_hides_failures provider username repoName w :
  fst (detectProgrammingLanguages provider username repoName w)
  = Returned
      match payload (answer provider w
                       (request (contents_url username repoName "") v3_json (bearer w))) with
      | Some data => primaryLanguageOf (as_sequence data)
      | None => ""
      end
  /\ requests (snd (detectProgrammingLanguages provider username repoName w))
     = requests w ++ [request (contents_url username repoName "") v3_json (bearer w)]
  /\ forall response,
       answer provider w (request (contents_url username repoName "") v3_json (bearer w))
         = Responded response ->
       ok response = false ->
       snd (detectProgrammingLanguages provider username repoName w)
       = if is_rejection response
         then world_after_rejection
                (issued (request (contents_url username repoName "") v3_json (bearer w)) w)
         else issued (request (contents_url username repoName "") v3_json (bearer w)) w.
Proof.
  rewrite detectProgrammingLanguages_run. cbn [fst snd].
  split; [reflexivity|split].
  - apply requests_after_service_fetch.
  - intros response Hanswer Hok. rewrite Hanswer. cbn [payload after_service_fetch].
    rewrite Hok. reflexivity.
Qed.

Lemma language_detection_hides_failures_witness :
  fst (detectProgrammingLanguages (Scenario.always Scenario.forbidden) "alice" "repo"
         (Scenario.session None (Some "stale") [Some "fresh"]))
  = Returned ""
  /\ localStorage
       (snd (detectProgrammingLanguages (Scenario.always Scenario.forbidden) "alice" "repo"
               (Scenario.session None (Some "stale") [Some "fresh"])))
     !! "github_token" = Some "fresh".
Proof.
  split.
  - exact (proj1 (language_detection_hides_failures
             (Scenario.always Scenario.forbidden) "alice" "repo"
             (Scenario.session None (Some "stale") [Some "fresh"]))).
  - rewrite (proj2 (proj2 (language_detection_hides_failures
               (Scenario.always Scenario.forbidden) "alice" "repo"
               (Scenario.session None (Some "stale") [Some "fresh"])))
             Scenario.forbidden eq_refl eq_refl).
    reflexivity.
Defined.

(** *** The two probes leave the credential alone *)













End ServiceFacts.

(** ** The viewer: failures, fallbacks and navigation *)

Module ViewerFacts.
Import Observe TokenFacts ListingFacts.

(** The second attempt of [fetchFileContent], made from the handler of the
    first. *)
Ltac second_attempt w :=
  unfold mthrow, M_throw;
  rewrite getAuthHeaders_run, fetch_run;
  repeat match goal with
  | |- context [stored_bearer ?w1] =>
      lazymatch w1 with
      | w => fail
      | _ => change (stored_bearer w1) with (stored_bearer w)
      end
  end;
  repeat match goal with
  | |- context [answer ?p ?w1 ?req] =>
      lazymatch w1 with
      | issued _ w => fail
      | _ => change (answer p w1 req) with (answer p (issued req w) req)
      end
  end;
  match goal with
  | |- context [answer ?p (issued ?req w) ?req] =>
      let textResponse := fresh "textResponse" in
      destruct (answer p (issued req w) req) as [|textResponse];
      [reflexivity | now destruct (ok textResponse)]
  end.

(** [fetchFileContent] in closed form: it always returns, and the world it
    leaves is a function of the two answers. *)
Lemma fetchFileContent_run provider file w :
  Viewer.fetchFileContent provider file w = (Returned tt, file_shown provider file w).
Proof.
  unfold Viewer.fetchFileContent, file_shown, decoded_body, file_request.
  unfold try_finally, try_catch, mbind, M_bind.
  cbn [Viewer.setLoading modify].
  rewrite getAuthHeaders_run, fetch_run.
  change (answer provider ?w' ?req) with (answer provider w req) at 1.
  change (stored_bearer _) with (stored_bearer w).
  destruct (answer provider w _) as [|response]; [second_attempt w|].
  destruct (ok response); cbn [negb]; [|second_attempt w].
  unfold json_of. destruct (json_body response) as [data|]; [|second_attempt w].
  unfold mret at 1. unfold M_ret at 1. unfold Viewer.decodeContent, Viewer.atob_js.
  destruct (bool_decide (rc_encoding data = Some "base64") && truthy (rc_content data)).
  - destruct (Base64.atob _) as [decoded|]; [reflexivity|second_attempt w].
  - now destruct (rc_content data).
Qed.

Lemma loaded_file_shown provider file w :
  loaded (file_shown provider file w) = file_shown provider file w.
Proof.
  unfold file_shown.
  destruct (decoded_body file _) as [content|]; [reflexivity|].
  destruct (answer provider (issued _ w) _) as [|textResponse]; [reflexivity|].
  now destruct (ok textResponse).
Qed.

(** The viewer's [fetchRepoContents] in closed form: it always returns. *)
Lemma viewer_fetchRepoContents_run username repoName contents_provider file_provider captured w :
  Viewer.fetchRepoContents username repoName contents_provider file_provider captured w
  = (Returned tt, listing_shown username repoName contents_provider file_provider captured w).
Proof.
  unfold Viewer.fetchRepoContents, listing_shown, listing_request, payload, listing_failure.
  unfold try_finally, try_catch.
  unfold mbind at 1 2 3 4 5. unfold M_bind at 1 2 3 4 5.
  cbn [Viewer.setLoading Viewer.setSelectedFile Viewer.setFileContent modify].
  rewrite getAuthHeaders_run, fetch_run.
  fold (viewer_contents_url username repoName (currentPath captured) (currentBranch captured)).
  change (answer contents_provider ?w' ?req) with (answer contents_provider w req) at 1.
  change (stored_bearer _) with (stored_bearer w).
  destruct (answer contents_provider w _) as [|response]; [reflexivity|].
  destruct (ok response); cbn [negb]; [|reflexivity].
  unfold mbind at 1. unfold M_bind at 1. unfold json_of.
  destruct (json_body response) as [data|]; [|reflexivity].
  unfold mret at 1. unfold M_ret at 1.
  unfold mbind at 1. unfold M_bind at 1.
  cbn [Viewer.setContents modify].
  fold (as_sequence data). unfold readme_to_open.
  destruct (String.eqb (currentPath captured) "" && _); [|reflexivity].
  destruct (List.find Viewer.is_readme (as_sequence data)) as [readmeFile|]; [|reflexivity].
  rewrite fetchFileContent_run.
  cbn [Viewer.setLoading modify].
  match goal with
  | |- (_, set_viewer _ (file_shown ?p ?f ?w0)) = _ =>
      change (set_viewer _ (file_shown p f w0)) with (loaded (file_shown p f w0))
  end.
  now rewrite loaded_file_shown.
Qed.

Lemma requests_file_shown provider file w :
  requests (file_shown provider file w) = requests w ++ [file_request file w]
  \/ requests (file_shown provider file w)
     = requests w ++ [file_request file w; file_request file w].
Proof.
  unfold file_shown.
  destruct (decoded_body file _) as [content|]; [now left|]. right.
  destruct (answer provider (issued _ w) _) as [|textResponse];
    [|destruct (ok textResponse)]; cbn; now rewrite <- app_assoc.
Qed.

(** When the metadata of a file cannot be used (the request fails, the
    response is not ok or not JSON, or its base64 payload does not decode),
    [fetchFileContent] asks for the same address a second time and shows the
    body of that response as text, for the file selected; an error shown
    before is left as it is. *)
Theorem unreadable_metadata_falls_back_to_text provider file w textResponse :
  decoded_body file (answer provider w (file_request file w)) = None ->
  answer provider (issued (file_request file w) w) (file_request file w)
    = Responded textResponse ->
  ok textResponse = true ->
  fst (Viewer.fetchFileContent provider file w) = Returned tt
  /\ fileContent (viewer (snd (Viewer.fetchFileContent provider file w)))
     = text_body textResponse
  /\ selectedFile (viewer (snd (Viewer.fetchFileContent provider file w))) = Some file
  /\ loading (viewer (snd (Viewer.fetchFileContent provider file w))) = false
  /\ error (viewer (snd (Viewer.fetchFileContent provider file w))) = error (viewer w)
  /\ requests (snd (Viewer.fetchFileContent provider file w))
     = requests w ++ [file_request file w; file_request file w].
Proof.
  intros Hfirst Hsecond Hok. rewrite fetchFileContent_run. cbn [fst snd].
  unfold file_shown. rewrite Hfirst, Hsecond, Hok.
  repeat split. cbn. now rewrite <- app_assoc.
Qed.

Lemma unreadable_metadata_falls_back_to_text_witness :
  fileContent
    (viewer (snd (Viewer.fetchFileContent (Scenario.always (Scenario.plain_text "hello"))
                    (Scenario.file_data None None) (Scenario.session None None []))))
  = "hello".
Proof.
  exact (proj1 (proj2 (unreadable_metadata_falls_back_to_text
           (Scenario.always (Scenario.plain_text "hello"))
           (Scenario.file_data None None) (Scenario.session None None [])
           (Scenario.plain_text "hello") eq_refl eq_refl eq_refl))).
Defined.

(** [fetchFileContent] never fails and never leaves the viewer loading:
    whatever the two answers, it returns after one or two requests for the
    file's address with the loading flag down, the listing, the path and the
    branch as they were, and either the file selected (an error shown before
    stays) or, when both attempts failed, no file selected, an error
    message set and the text shown before still in place. *)
Theorem file_fetch_always_settles provider file w :
  fst (Viewer.fetchFileContent provider file w) = Returned tt
  /\ loading (viewer (snd (Viewer.fetchFileContent provider file w))) = false
  /\ (requests (snd (Viewer.fetchFileContent provider file w))
        = requests w ++ [file_request file w]
      \/ requests (snd (Viewer.fetchFileContent provider file w))
         = requests w ++ [file_request file w; file_request file w])
  /\ contents (viewer (snd (Viewer.fetchFileContent provider file w))) = contents (viewer w)
  /\ currentPath (viewer (snd (Viewer.fetchFileContent provider file w)))
     = currentPath (viewer w)
  /\ currentBranch (viewer (snd (Viewer.fetchFileContent provider file w)))
     = currentBranch (viewer w)
  /\ (selectedFile (viewer (snd (Viewer.fetchFileContent provider file w))) = Some file
      /\ error (viewer (snd (Viewer.fetchFileContent provider file w))) = error (viewer w)
      \/ selectedFile (viewer (snd (Viewer.fetchFileContent provider file w))) = None
         /\ truthy (error (viewer (snd (Viewer.fetchFileContent provider file w)))) = true
         /\ fileContent (viewer (snd (Viewer.fetchFileContent provider file w)))
            = fileContent (viewer w)).
Proof.
  rewrite fetchFileContent_run. cbn [fst snd].
  split; [reflexivity|]. split; [|split; [apply requests_file_shown|]];
    unfold file_shown;
    (destruct (decoded_body file _) as [content|];
     [|destruct (answer provider (issued _ w) _) as [|textResponse];
       [|destruct (ok textResponse)]]);
    try reflexivity; repeat split; try (left; now split); right; now repeat split.
Qed.



(** After a listing that is answered ok, the viewer opens a README by
    itself only at the root and only when no file was selected: the file it
    asks for is then the first file-typed entry whose name starts with
    readme in any letter case, and when its metadata decodes, its text is
    shown with that entry selected.  In a sub-folder, with a file selected
    before, or without such an entry, no further request is made and nothing
    is selected.  In both cases the listing shown is the one received. *)
Theorem readme_opens_at_root_only
    username repoName contents_provider file_provider captured w data :
  payload (answer contents_provider w (listing_request username repoName captured w))
    = Some data ->
  contents (viewer (snd (Viewer.fetchRepoContents username repoName
                           contents_provider file_provider captured w)))
  = as_sequence data
  /\ (forall readmeFile content,
        currentPath captured = "" ->
        selectedFile captured = None ->
        List.find Viewer.is_readme (as_sequence data) = Some readmeFile ->
        decoded_body readmeFile
          (answer file_provider (issued (listing_request username repoName captured w) w)
             (file_request readmeFile w)) = Some content ->
        selectedFile (viewer (snd (Viewer.fetchRepoContents username repoName
                                     contents_provider file_provider captured w)))
        = Some readmeFile
        /\ fileContent (viewer (snd (Viewer.fetchRepoContents username repoName
                                       contents_provider file_provider captured w)))
           = content
        /\ requests (snd (Viewer.fetchRepoContents username repoName
                            contents_provider file_provider captured w))
           = requests w ++ [listing_request username repoName captured w;
                            file_request readmeFile w])
  /\ (currentPath captured <> ""
      \/ is_Some (selectedFile captured)
      \/ List.find Viewer.is_readme (as_sequence data) = None ->
      selectedFile (viewer (snd (Viewer.fetchRepoContents username repoName
                                   contents_provider file_provider captured w))) = None
      /\ fileContent (viewer (snd (Viewer.fetchRepoContents username repoName
                                     contents_provider file_provider captured w))) = ""
      /\ loading (viewer (snd (Viewer.fetchRepoContents username repoName
                                 contents_provider file_provider captured w))) = false
      /\ requests (snd (Viewer.fetchRepoContents username repoName
                          contents_provider file_provider captured w))
         = requests w ++ [listing_request username repoName captured w]).
Proof.
  intros Hdata. rewrite viewer_fetchRepoContents_run. cbn [fst snd].
  unfold listing_shown. rewrite Hdata. split; [|split].
  - destruct (readme_to_open captured (as_sequence data)) as [readmeFile|]; [|reflexivity].
    unfold file_shown.
    destruct (decoded_body readmeFile _) as [content|]; [reflexivity|].
    destruct (answer file_provider _ _) as [|textResponse]; [reflexivity|].
    now destruct (ok textResponse).
  - intros readmeFile content Hroot Hnone Hfind Hdecoded.
    unfold readme_to_open. rewrite Hroot, Hnone, Hfind.
    rewrite bool_decide_eq_false_2 by (intros [x Hx]; discriminate Hx).
    cbn [String.eqb andb negb]. unfold file_shown.
    match goal with
    | |- context [decoded_body readmeFile (answer file_provider ?w1 ?req)] =>
        assert (Hd : decoded_body readmeFile (answer file_provider w1 req) = Some content)
          by exact Hdecoded;
        rewrite Hd
    end.
    repeat split. cbn. now rewrite <- app_assoc.
  - intros Hcase.
    assert (Hno : readme_to_open captured (as_sequence data) = None).
    { unfold readme_to_open. destruct Hcase as [Hpath|[Hselected|Hfind]].
      - apply String.eqb_neq in Hpath. now rewrite Hpath.
      - rewrite (bool_decide_eq_true_2 _ Hselected). now rewrite andb_false_r.
      - rewrite Hfind. now destruct (_ && _). }
    rewrite Hno. now repeat split.
Qed.

Lemma readme_opens_at_root_only_witness :
  selectedFile
    (viewer (snd (Viewer.fetchRepoContents "alice" "repo"
                    (Scenario.always (Scenario.respond 200 "OK"
                       (Some (IsArray [Scenario.folder "src"; Scenario.file_data None None]))))
                    (Scenario.always (Scenario.respond 200 "OK"
                       (Some (Scenario.file_data (Some "base64") (Some Scenario.wrapped_hello)))))
                    Scenario.viewer0 (Scenario.session None None []))))
  = Some (Scenario.file_data None None).
Proof.
  exact (proj1 (proj1 (proj2 (readme_opens_at_root_only "alice" "repo"
           (Scenario.always (Scenario.respond 200 "OK"
              (Some (IsArray [Scenario.folder "src"; Scenario.file_data None None]))))
           (Scenario.always (Scenario.respond 200 "OK"
              (Some (Scenario.file_data (Some "base64") (Some Scenario.wrapped_hello)))))
           Scenario.viewer0 (Scenario.session None None [])
           (IsArray [Scenario.folder "src"; Scenario.file_data None None]) eq_refl))
           (Scenario.file_data None None) "hello" eq_refl eq_refl eq_refl eq_refl)).
Defined.

(** *** The error message *)

Lemma listing_failure_nonempty a : Str.nonempty (listing_failure a) = true.
Proof.
  destruct a as [|response]; [reflexivity|]. unfold listing_failure.
  destruct (ok response); reflexivity.
Qed.

Lemma error_file_shown provider file w :
  truthy (error (viewer w)) = true ->
  truthy (error (viewer (file_shown provider file w))) = true.
Proof.
  intros H. unfold file_shown.
  destruct (decoded_body file _) as [content|]; [exact H|].
  destruct (answer provider (issued _ w) _) as [|textResponse]; [reflexivity|].
  destruct (ok textResponse); [exact H|reflexivity].
Qed.

(** No fetch of the viewer ever clears the error it shows: when an error
    message is set, it is still set (the same or a newer one) after
    [fetchRepoContents], [fetchFileContent] and [fetchBranches], also when
    they succeed.  The viewer renders the message in place of the listing
    for as long as it is set. *)
Theorem an_error_outlives_every_fetch
    username repoName branches_provider contents_provider file_provider captured file w :
  truthy (error (viewer w)) = true ->
  truthy (error (viewer (snd (Viewer.fetchRepoContents username repoName
                                contents_provider file_provider captured w)))) = true
  /\ truthy (error (viewer (snd (Viewer.fetchFileContent file_provider file w)))) = true
  /\ error (viewer (snd (Viewer.fetchBranches username repoName branches_provider captured w)))
     = error (viewer w).
Proof.
  intros Herror. split; [|split].
  - rewrite viewer_fetchRepoContents_run. cbn [snd]. unfold listing_shown.
    destruct (payload _) as [data|]; [|apply listing_failure_nonempty].
    destruct (readme_to_open captured (as_sequence data)) as [readmeFile|]; [|exact Herror].
    now apply error_file_shown.
  - rewrite fetchFileContent_run. now apply error_file_shown.
  - unfold Viewer.fetchBranches, try_catch, mbind, M_bind.
    rewrite getAuthHeaders_run, fetch_run.
    destruct (answer branches_provider w _) as [|response]; [reflexivity|].
    destruct (ok response); cbn [negb]; [|reflexivity].
    unfold json_of. destruct (json_body response) as [data|]; [|reflexivity].
    unfold mret, M_ret. cbn [Viewer.setBranches modify].
    destruct (String.eqb (currentBranch captured) "main" && (0 <? length data));
      [|reflexivity].
    now destruct (Viewer.defaultBranch data).
Qed.

Lemma an_error_outlives_every_fetch_witness :
  truthy (error (viewer (snd (Viewer.fetchRepoContents "alice" "repo"
                                (Scenario.always (Scenario.respond 200 "OK"
                                   (Some (IsArray [Scenario.folder "src"]))))
                                (Scenario.always Scenario.missing)
                                (Scenario.viewer_with_error "Failed to fetch repository contents" "")
                                (Scenario.showing
                                   (Scenario.viewer_with_error
                                      "Failed to fetch repository contents" "")))))) = true.
Proof.
  exact (proj1 (an_error_outlives_every_fetch "alice" "repo"
           (Scenario.always Scenario.missing)
           (Scenario.always (Scenario.respond 200 "OK" (Some (IsArray [Scenario.folder "src"]))))
           (Scenario.always Scenario.missing)
           (Scenario.viewer_with_error "Failed to fetch repository contents" "")
           (Scenario.folder "src")
           (Scenario.showing (Scenario.viewer_with_error "Failed to fetch repository contents" ""))
           eq_refl)).
Defined.

(** *** The branch list *)

Lemma defaultBranch_some first rest : Viewer.defaultBranch (first :: rest) <> None.
Proof.
  unfold Viewer.defaultBranch.
  destruct (List.find (Viewer.named "main") (first :: rest)); [discriminate|].
  destruct (List.find (Viewer.named "master") (first :: rest)); discriminate.
Qed.

(** [fetchBranches] never fails and never gets in the way of the content:
    whatever the answer it returns normally after one request, and it
    touches neither the error, the loading flag, the listing, the path nor
    the selection.  When the branch list cannot be had (the request fails,
    or the response is not ok or not JSON) the whole state of the viewer is
    as before, the branch list and the current branch included. *)
Theorem branch_fetch_never_blocks username repoName provider captured w :
  fst (Viewer.fetchBranches username repoName provider captured w) = Returned tt
  /\ requests (snd (Viewer.fetchBranches username repoName provider captured w))
     = requests w
       ++ [request (viewer_branches_url username repoName) Viewer.v3_json (stored_bearer w)]
  /\ error (viewer (snd (Viewer.fetchBranches username repoName provider captured w)))
     = error (viewer w)
  /\ loading (viewer (snd (Viewer.fetchBranches username repoName provider captured w)))
     = loading (viewer w)
  /\ contents (viewer (snd (Viewer.fetchBranches username repoName provider captured w)))
     = contents (viewer w)
  /\ currentPath (viewer (snd (Viewer.fetchBranches username repoName provider captured w)))
     = currentPath (viewer w)
  /\ selectedFile (viewer (snd (Viewer.fetchBranches username repoName provider captured w)))
     = selectedFile (viewer w)
  /\ (payload (answer provider w
                 (request (viewer_branches_url username repoName) Viewer.v3_json
                    (stored_bearer w))) = None ->
      viewer (snd (Viewer.fetchBranches username repoName provider captured w)) = viewer w).
Proof.
  unfold Viewer.fetchBranches, try_catch, mbind, M_bind.
  rewrite getAuthHeaders_run, fetch_run.
  fold (viewer_branches_url username repoName). unfold payload.
  destruct (answer provider w _) as [|response]; [now repeat split|].
  destruct (ok response); cbn [negb]; [|now repeat split].
  unfold json_of. destruct (json_body response) as [data|]; [|now repeat split].
  unfold mret, M_ret. cbn [Viewer.setBranches modify].
  destruct (String.eqb (currentBranch captured) "main"); cbn [andb];
    [|repeat split; discriminate].
  destruct data as [|first rest]; [repeat split; discriminate|].
  cbn [length Nat.ltb Nat.leb].
  pose proof (defaultBranch_some first rest) as Hsome.
  destruct (Viewer.defaultBranch (first :: rest)) as [b|]; [|now contradiction Hsome].
  repeat split; discriminate.
Qed.


End ViewerFacts.

(** ** Navigation in the viewer *)

Module NavigationFacts.
Import Observe TokenFacts ListingFacts ViewerFacts.

Lemma split_nonempty sep s : Str.split sep s <> [].
Proof.
  destruct s as [|c s]; cbn; [discriminate|].
  destruct (Ascii.eqb c sep); [discriminate|].
  destruct (Str.split sep s); discriminate.
Qed.

(** Splitting at a separator splits on both sides of it. *)
Lemma split_app sep a b :
  Str.split sep (a +:+ String sep b) = Str.split sep a ++ Str.split sep b.
Proof.
  induction a as [|c a IH].
  - rewrite StrFacts.app_nil_l. cbn [Str.split app]. now rewrite Ascii.eqb_refl.
  - rewrite StrFacts.app_cons. cbn [Str.split]. rewrite IH.
    destruct (Ascii.eqb c sep); [reflexivity|].
    pose proof (split_nonempty sep a) as Hne.
    destruct (Str.split sep a) as [|p ps]; [contradiction|reflexivity].
Qed.

Lemma split_free sep s : free_of sep s = true -> Str.split sep s = [s].
Proof.
  induction s as [|c s IH]; [reflexivity|]. cbn. intros H.
  apply andb_prop in H as [Hc Hs]. apply negb_true_iff in Hc. rewrite Hc.
  now rewrite (IH Hs).
Qed.

(** Joining the pieces with the separator gives the string back. *)
Lemma join_split sep s : Str.join (String sep EmptyString) (Str.split sep s) = s.
Proof.
  induction s as [|c s IH]; [reflexivity|]. cbn [Str.split].
  pose proof (split_nonempty sep s) as Hne.
  destruct (Ascii.eqb c sep) eqn:Hc.
  - apply Ascii.eqb_eq in Hc. subst c.
    destruct (Str.split sep s) as [|p ps]; [contradiction|].
    cbn [Str.join]. cbn [Str.join] in IH. now rewrite IH.
  - destruct (Str.split sep s) as [|p ps]; [contradiction|].
    cbn [Str.join] in IH |- *. destruct ps as [|q ps]; [now rewrite IH|].
    rewrite StrFacts.app_cons. now rewrite IH.
Qed.

(** The parent of a path whose last segment is [name]. *)
Lemma parentPath_child folder name :
  free_of "/"%char name = true ->
  Viewer.parentPath (folder +:+ "/" +:+ name) = folder.
Proof.
  intros Hname. unfold Viewer.parentPath.
  change ("/" +:+ name) with (String "/"%char name).
  rewrite split_app, (split_free _ _ Hname), removelast_last.
  apply (join_split "/"%char).
Qed.

Lemma parentPath_top name :
  free_of "/"%char name = true -> Viewer.parentPath name = "".
Proof.
  intros Hname. unfold Viewer.parentPath. now rewrite (split_free _ _ Hname).
Qed.

(** Opening a folder and going back is a round trip.  A click on a
    directory entry makes its path the current path without any request;
    pressed in the state that follows (no error shown, no file open),
    [goBack] makes the current path the folder the entry was listed in: the
    entry's path without its last segment, and the root for an entry of the
    root.  It makes no request either; the listing is fetched by the effect
    that follows the change of path. *)
Theorem going_back_returns_to_the_parent_folder
    username repoName contents_provider file_provider folder name item captured memo w :
  free_of "/"%char name = true ->
  rc_type item = "dir" ->
  rc_path item = (if Str.nonempty folder then folder +:+ "/" +:+ name else name) ->
  truthy (error captured) = false ->
  selectedFile captured = None ->
  currentPath captured = rc_path item ->
  Viewer.handleItemClick file_provider item w
  = Viewer.navigateToFolder (rc_path item) w
  /\ currentPath (viewer (snd (Viewer.handleItemClick file_provider item w))) = rc_path item
  /\ requests (snd (Viewer.handleItemClick file_provider item w)) = requests w
  /\ fst (Viewer.goBack username repoName contents_provider file_provider captured memo w)
     = Returned tt
  /\ currentPath
       (viewer (snd (Viewer.goBack username repoName contents_provider file_provider
                       captured memo w)))
     = folder
  /\ requests (snd (Viewer.goBack username repoName contents_provider file_provider
                      captured memo w))
     = requests w.
Proof.
  intros Hname Hdir Hpath Herror Hfile Hcurrent.
  unfold Viewer.handleItemClick, Viewer.goBack.
  rewrite Hdir, Herror, Hfile, Hcurrent, Hpath.
  rewrite bool_decide_eq_false_2 by (intros [x Hx]; discriminate Hx).
  cbn [String.eqb Ascii.eqb Bool.eqb andb].
  repeat split. cbn.
  destruct folder as [|c folder']; cbn [Str.nonempty].
  - now apply parentPath_top.
  - now apply parentPath_child.
Qed.

Lemma going_back_returns_to_the_parent_folder_witness :
  currentPath
    (viewer (snd (Viewer.goBack "alice" "repo"
                    (Scenario.always Scenario.missing) (Scenario.always Scenario.missing)
                    (Scenario.viewer_at "src/components" None) Scenario.viewer0
                    (Scenario.showing (Scenario.viewer_at "src/components" None)))))
  = "src".
Proof.
  exact (proj1 (proj2 (proj2 (proj2 (proj2
    (going_back_returns_to_the_parent_folder "alice" "repo"
       (Scenario.always Scenario.missing) (Scenario.always Scenario.missing)
       "src" "components" (Scenario.folder "src/components")
       (Scenario.viewer_at "src/components" None) Scenario.viewer0
       (Scenario.showing (Scenario.viewer_at "src/components" None))
       eq_refl eq_refl eq_refl eq_refl eq_refl eq_refl)))))).
Defined.

(** With a file open, [goBack] only closes it: the selection and the text
    are cleared, and the path, the listing and the branch stay; no request
    is made.  An error shown at that moment is cleared as well; when none is
    shown the error state is not written. *)
Theorem going_back_closes_the_open_file
    username repoName contents_provider file_provider captured memo w :
  is_Some (selectedFile captured) ->
  fst (Viewer.goBack username repoName contents_provider file_provider captured memo w)
  = Returned tt
  /\ selectedFile (viewer (snd (Viewer.goBack username repoName contents_provider file_provider
                                  captured memo w))) = None
  /\ fileContent (viewer (snd (Viewer.goBack username repoName contents_provider file_provider
                                 captured memo w))) = ""
  /\ currentPath (viewer (snd (Viewer.goBack username repoName contents_provider file_provider
                                 captured memo w))) = currentPath (viewer w)
  /\ contents (viewer (snd (Viewer.goBack username repoName contents_provider file_provider
                              captured memo w))) = contents (viewer w)
  /\ currentBranch (viewer (snd (Viewer.goBack username repoName contents_provider file_provider
                                   captured memo w))) = currentBranch (viewer w)
  /\ error (viewer (snd (Viewer.goBack username repoName contents_provider file_provider
                           captured memo w)))
     = (if truthy (error captured) then None else error (viewer w))
  /\ requests (snd (Viewer.goBack username repoName contents_provider file_provider
                      captured memo w)) = requests w.
Proof.
  intros Hfile. unfold Viewer.goBack.
  rewrite (bool_decide_eq_true_2 _ Hfile).
  destruct (truthy (error captured)); now repeat split.
Qed.

Lemma going_back_closes_the_open_file_witness :
  currentPath
    (viewer (snd (Viewer.goBack "alice" "repo"
                    (Scenario.always Scenario.missing) (Scenario.always Scenario.missing)
                    (Scenario.viewer_at "src" (Some (Scenario.file_data None None)))
                    Scenario.viewer0
                    (Scenario.showing
                       (Scenario.viewer_at "src" (Some (Scenario.file_data None None)))))))
  = "src".
Proof.
  exact (proj1 (proj2 (proj2 (proj2
    (going_back_closes_the_open_file "alice" "repo"
       (Scenario.always Scenario.missing) (Scenario.always Scenario.missing)
       (Scenario.viewer_at "src" (Some (Scenario.file_data None None))) Scenario.viewer0
       (Scenario.showing (Scenario.viewer_at "src" (Some (Scenario.file_data None None))))
       (ex_intro _ (Scenario.file_data None None) eq_refl)))))).
Defined.



(** Changing the branch starts over at the root of the new branch: no
    request is made by [changeBranch] itself, the path is the root, nothing
    is selected and the branch menu is closed; the listing fetched from the
    render that follows asks for the root at the new ref, and since the path
    is the root and no file is selected, it goes on to open the README of
    that branch, if it has one. *)
Theorem changing_branch_starts_over_at_the_root
    username repoName contents_provider file_provider branchName w :
  fst (Viewer.changeBranch branchName w) = Returned tt
  /\ requests (snd (Viewer.changeBranch branchName w)) = requests w
  /\ currentBranch (viewer (snd (Viewer.changeBranch branchName w))) = branchName
  /\ currentPath (viewer (snd (Viewer.changeBranch branchName w))) = ""
  /\ selectedFile (viewer (snd (Viewer.changeBranch branchName w))) = None
  /\ fileContent (viewer (snd (Viewer.changeBranch branchName w))) = ""
  /\ showBranchSelector (viewer (snd (Viewer.changeBranch branchName w))) = false
  /\ contents (viewer (snd (Viewer.changeBranch branchName w))) = contents (viewer w)
  /\ listing_request username repoName (viewer (snd (Viewer.changeBranch branchName w)))
       (snd (Viewer.changeBranch branchName w))
     = request (viewer_contents_url username repoName "" branchName) Viewer.v3_json
         (stored_bearer w)
  /\ (forall items,
        readme_to_open (viewer (snd (Viewer.changeBranch branchName w))) items
        = List.find Viewer.is_readme items)
  /\ (forall data,
        payload (answer contents_provider w
                   (request (viewer_contents_url username repoName "" branchName)
                      Viewer.v3_json (stored_bearer w))) = Some data ->
        snd (Viewer.fetchRepoContents username repoName contents_provider file_provider
               (viewer (snd (Viewer.changeBranch branchName w)))
               (snd (Viewer.changeBranch branchName w)))
        = match List.find Viewer.is_readme (as_sequence data) with
          | Some readmeFile =>
              snd (Viewer.fetchFileContent file_provider readmeFile
                     (with_contents (as_sequence data)
                        (issued (request (viewer_contents_url username repoName "" branchName)
                                   Viewer.v3_json (stored_bearer w))
                           (listing_started (snd (Viewer.changeBranch branchName w))))))
          | None =>
              loaded (with_contents (as_sequence data)
                        (issued (request (viewer_contents_url username repoName "" branchName)
                                   Viewer.v3_json (stored_bearer w))
                           (listing_started (snd (Viewer.changeBranch branchName w)))))
          end).
Proof.
  repeat split.
  intros data Hdata. rewrite viewer_fetchRepoContents_run. cbn [snd].
  unfold listing_shown.
  match goal with
  | |- context [payload ?a] =>
      assert (Hd : payload a = Some data) by exact Hdata; rewrite Hd
  end.
  change (readme_to_open _ (as_sequence data))
    with (List.find Viewer.is_readme (as_sequence data)).
  destruct (List.find Viewer.is_readme (as_sequence data)) as [readmeFile|]; [|reflexivity].
  now rewrite fetchFileContent_run.
Qed.

End NavigationFacts.

(** ** File name suffixes *)

Module SuffixFacts.
Import Observe NavigationFacts.

Lemma last_split_free sep s parts :
  free_of sep s = true -> List.last (parts ++ Str.split sep s) "" = s.
Proof. intros H. rewrite (split_free _ _ H). apply last_last. Qed.


End SuffixFacts.

(** ** The project list: filter buttons and search *)

Module ProjectListFacts.
Import ProjectList.

Lemma add_In y x langSet : In y (add x langSet) <-> In y langSet \/ y = x.
Proof.
  unfold add. destruct (existsb (String.eqb x) langSet) eqn:E.
  - split; [now left|]. intros [H| ->]; [exact H|].
    apply existsb_exists in E as (z & Hz & Heq).
    apply String.eqb_eq in Heq. now subst z.
  - rewrite in_app_iff. cbn. intuition.
Qed.

Lemma truthy_Some (o : option string) :
  truthy o = true -> exists x, o = Some x /\ Str.nonempty x = true.
Proof. destruct o as [x|]; [|discriminate]. intros H. now exists x. Qed.

Lemma collect_In y langSet project :
  In y (collect langSet project) <-> In y langSet \/ speaks project y.
Proof.
  unfold collect, speaks.
  destruct (truthy (language project)) eqn:HL;
    destruct (truthy (primaryLanguage project)) eqn:HP; cbn [andb].
  - apply truthy_Some in HL as (l & HL & Hl). apply truthy_Some in HP as (p & HP & Hp).
    rewrite HL, HP. cbn [default]. case_bool_decide as Heq; cbn [negb].
    + injection Heq as ->. rewrite add_In. split.
      * intros [H| ->]; [now left|]. right. split; [exact Hl|now left].
      * intros [H|[_ [H|H]]]; [now left| |]; injection H as ->; now right.
    + rewrite !add_In. split.
      * intros [[H| ->]| ->]; [now left| |]; right; (split; [assumption|]);
          [now left|now right].
      * intros [H|[_ [H|H]]]; [now left; left| |]; injection H as ->;
          [left; now right|now right].
  - apply truthy_Some in HL as (l & HL & Hl). rewrite HL. cbn [default].
    rewrite add_In. split.
    + intros [H| ->]; [now left|]. right. split; [exact Hl|now left].
    + intros [H|[Hy [H|H]]]; [now left| |].
      * injection H as ->. now right.
      * exfalso. rewrite H in HP. cbn in HP. congruence.
  - apply truthy_Some in HP as (p & HP & Hp). rewrite HP. cbn [default].
    case_bool_decide as Heq; cbn [negb].
    + exfalso. rewrite <- Heq in HL. cbn in HL. congruence.
    + rewrite add_In. split.
      * intros [H| ->]; [now left|]. right. split; [exact Hp|now right].
      * intros [H|[Hy [H|H]]]; [now left| |].
        -- exfalso. rewrite H in HL. cbn in HL. congruence.
        -- injection H as ->. now right.
  - split; [now left|]. intros [H|[Hy [H|H]]]; [exact H| |]; exfalso.
    + rewrite H in HL. cbn in HL. congruence.
    + rewrite H in HP. cbn in HP. congruence.
Qed.

Lemma fold_collect_In y projects : forall langSet,
  In y (fold_left collect projects langSet)
  <-> In y langSet \/ exists project, In project projects /\ speaks project y.
Proof.
  induction projects as [|p projects IH]; intros langSet; cbn [fold_left].
  - split; [now left|]. intros [H|(p & [] & _)]. exact H.
  - rewrite IH, collect_In. split.
    + intros [[H|H]|(q & Hq & Hs)]; [now left| |].
      * right. exists p. split; [now left|exact H].
      * right. exists q. split; [now right|exact Hs].
    + intros [H|(q & [->|Hq] & Hs)]; [now left; left| |].
      * left. now right.
      * right. now exists q.
Qed.

(** The filter buttons are "all" and exactly the languages in use: a name
    is offered when it is the non-empty language the provider reports for
    some project or the non-empty primary language found for one.  So every
    button shows at least one project (with the search box empty): "all"
    whenever there is a project, and any other button always. *)
Theorem language_buttons_are_the_languages_in_use projects lang :
  (In lang (languages projects)
   <-> lang = "all" \/ exists project, In project projects /\ speaks project lang)
  /\ (In lang (languages projects) -> projects <> [] ->
      exists project,
        In project (filteredProjects lang "" projects)
        /\ (lang = "all" \/ language project = Some lang \/ primaryLanguage project = Some lang)).
Proof.
  assert (Hiff : In lang (languages projects)
                 <-> lang = "all" \/ exists project, In project projects /\ speaks project lang).
  { unfold languages. rewrite filter_In. cbn [In]. rewrite fold_collect_In. cbn [In].
    split.
    - intros [[<-|[[]|H]] Hne]; [now left|now right].
    - intros [->|(p & Hp & Hs)]; [split; [now left|reflexivity]|].
      split; [|exact (proj1 Hs)]. right. right. now exists p. }
  split; [exact Hiff|]. intros Hin Hne. apply Hiff in Hin as [->|(p & Hp & Hne' & Hs)].
  - destruct projects as [|p projects]; [contradiction|].
    exists p. split; [now left|now left].
  - exists p. split; [|right; exact Hs].
    unfold filteredProjects. apply filter_In. split; [exact Hp|].
    unfold matchesLanguage, matchesSearch. cbn [Str.nonempty negb orb andb].
    rewrite andb_true_r. destruct Hs as [Hs|Hs].
    + rewrite (bool_decide_eq_true_2 _ Hs). now rewrite orb_true_r.
    + rewrite (bool_decide_eq_true_2 _ Hs). now rewrite orb_true_r.
Qed.

(** The language named on a project's card is always one of the filter
    buttons, and pressing that button shows the project.  This rests on the
    primary language being set, which [loadProjects] ensures for every
    project it builds: the detected label, else the provider's language,
    else "Unknown". *)
Theorem the_language_on_a_card_is_a_filter_button :
  (forall repo hasHtml detected packageJsonInfo,
     truthy (primaryLanguage (enhanced repo hasHtml detected packageJsonInfo)) = true)
  /\ (forall repo, truthy (primaryLanguage (unprobed repo)) = true)
  /\ (forall projects project,
        In project projects ->
        truthy (primaryLanguage project) = true ->
        In (cardLanguage project) (languages projects)
        /\ In project (filteredProjects (cardLanguage project) "" projects)).
Proof.
  split; [|split].
  - intros repo hasHtml detected info. cbn. unfold or_else. cbn [truthy].
    destruct (Str.nonempty detected) eqn:Hd; [exact Hd|].
    destruct (truthy (repo_language repo)) eqn:Hl; [exact Hl|reflexivity].
  - intros repo. cbn. unfold or_else.
    destruct (truthy (repo_language repo)) eqn:Hl; [exact Hl|reflexivity].
  - intros projects project Hin Hprimary.
    assert (Hspeaks : speaks project (cardLanguage project)
                      /\ matchesLanguage (cardLanguage project) project = true).
    { unfold speaks, cardLanguage, matchesLanguage, or_else. rewrite Hprimary.
      destruct (truthy (language project)) eqn:HL.
      - apply truthy_Some in HL as (l & HL & Hl). rewrite HL. cbn [default].
        split; [split; [exact Hl|now left]|].
        rewrite (bool_decide_eq_true_2 (Some l = Some l) eq_refl). now rewrite orb_true_r.
      - apply truthy_Some in Hprimary as (q & HP & Hq). rewrite HP. cbn [default].
        split; [split; [exact Hq|now right]|].
        rewrite (bool_decide_eq_true_2 (Some q = Some q) eq_refl). now rewrite orb_true_r. }
    destruct Hspeaks as [Hspeaks Hmatch]. split.
    + unfold languages. apply filter_In. split; [|exact (proj1 Hspeaks)].
      right. apply fold_collect_In. right. now exists project.
    + unfold filteredProjects. apply filter_In. split; [exact Hin|].
      now rewrite Hmatch.
Qed.






End ProjectListFacts.

(** ** The live link of a project card *)

Module ProjectCardFacts.
Import ProjectCard Observe.



End ProjectCardFacts.

(** ** The rewrites of the README's HTML *)

Module HtmlFacts.
Import Readme Observe.

Ltac normalize_app :=
  repeat first [rewrite StrFacts.app_assoc | rewrite StrFacts.app_cons | rewrite StrFacts.app_nil_l].

Ltac normalize_app_in H :=
  repeat first [rewrite StrFacts.app_assoc in H | rewrite StrFacts.app_cons in H
               | rewrite StrFacts.app_nil_l in H].

Lemma append_nil_r (s : string) : s +:+ "" = s.
Proof. induction s as [|c s IH]; [reflexivity|]. rewrite StrFacts.app_cons. now rewrite IH. Qed.

Lemma free_of_app c a b : free_of c (a +:+ b) = free_of c a && free_of c b.
Proof.
  induction a as [|d a IH]; [reflexivity|]. rewrite StrFacts.app_cons. cbn.
  now rewrite IH, andb_assoc.
Qed.

Lemma gsub_text matcher text s :
  starts_at_bracket matcher ->
  free_of "<"%char text = true ->
  gsub matcher 0 (text +:+ s) = text +:+ gsub matcher 0 s.
Proof.
  intros Hm. induction text as [|c text IH]; intros Hfree; [reflexivity|].
  cbn in Hfree. apply andb_prop in Hfree as [Hc Htext]. apply negb_true_iff in Hc.
  rewrite !StrFacts.app_cons. cbn [gsub]. rewrite (Hm _ _ Hc). now rewrite (IH Htext).
Qed.

Lemma gsub_skip matcher t s :
  gsub matcher (String.length t) (t +:+ s) = gsub matcher 0 s.
Proof.
  induction t as [|c t IH]; [reflexivity|]. rewrite StrFacts.app_cons. exact IH.
Qed.

(** A global replacement acts on well-formed HTML tag by tag. *)
Lemma gsub_segments matcher f :
  starts_at_bracket matcher ->
  acts_on_tags matcher f ->
  forall segments,
    forallb html_well_formed segments = true ->
    gsub matcher 0 (html_of segments) = html_of (map (on_tag f) segments).
Proof.
  intros Hstart Hacts. induction segments as [|seg segments IH]; intros Hwf; [reflexivity|].
  cbn [forallb] in Hwf. apply andb_prop in Hwf as [Hseg Hrest].
  cbn [html_of fold_right map]. fold (html_of segments). fold (html_of (map (on_tag f) segments)).
  destruct seg as [text|body]; cbn [html_text on_tag].
  - rewrite (gsub_text _ _ _ Hstart Hseg). now rewrite (IH Hrest).
  - cbn in Hseg. apply andb_prop in Hseg as [Hlt Hgt].
    rewrite <- (IH Hrest).
    destruct (Hacts body (html_of segments) Hlt Hgt)
      as [[Hnone Hsame]|(c & matched & remainder & replacement & Htag & Hsome & Hnew)].
    + rewrite Hsame. normalize_app. normalize_app_in Hnone. cbn [gsub]. rewrite Hnone.
      f_equal.
      change (String ">"%char (html_of segments)) with (">" +:+ html_of segments).
      rewrite <- StrFacts.app_assoc.
      rewrite gsub_text; [now rewrite StrFacts.app_assoc|exact Hstart|].
      rewrite free_of_app, Hlt. reflexivity.
    + assert (Hfree : free_of "<"%char remainder = true).
      { assert (H : free_of "<"%char (matched +:+ remainder) = true).
        { normalize_app_in Htag. injection Htag as _ <-.
          rewrite free_of_app, Hlt. reflexivity. }
        rewrite free_of_app in H. now apply andb_prop in H as [_ H]. }
      assert (Heq : "<" +:+ body +:+ ">" +:+ html_of segments
                    = String c (matched +:+ remainder +:+ html_of segments)).
      { transitivity (("<" +:+ body +:+ ">") +:+ html_of segments);
          [now normalize_app | rewrite Htag; now normalize_app]. }
      rewrite Heq in Hsome. rewrite Htag, <- Hnew.
      rewrite !StrFacts.app_assoc, StrFacts.app_cons. cbn [gsub]. rewrite Hsome.
      f_equal. cbn [String.length Nat.sub]. rewrite Nat.sub_0_r.
      rewrite gsub_skip. now apply gsub_text.
Qed.

(** *** Characters *)

Ltac each_ascii c :=
  let b0 := fresh in let b1 := fresh in let b2 := fresh in let b3 := fresh in
  let b4 := fresh in let b5 := fresh in let b6 := fresh in let b7 := fresh in
  destruct c as [b0 b1 b2 b3 b4 b5 b6 b7];
  destruct b0, b1, b2, b3, b4, b5, b6, b7.

Lemma space_is_no_letter c :
  Str.is_js_space c = true ->
  ci "t" c = false /\ Ascii.eqb c ">"%char = false.
Proof. each_ascii c; intros H; try discriminate H; split; reflexivity. Qed.

Lemma ci_closing c : Ascii.eqb c ">"%char = false -> ci ">" c = false.
Proof. each_ascii c; intros H; try discriminate H; reflexivity. Qed.

Lemma closing_ci x : Ascii.eqb x ">"%char = false -> ci x ">" = false.
Proof.
  intros H. unfold ci. change (Str.lower_char ">") with ">"%char.
  now rewrite Ascii.eqb_sym.
Qed.

Lemma lower_a_ci c : Ascii.eqb c "a"%char = true -> ci "a" c = true.
Proof. intros H. apply Ascii.eqb_eq in H. now subst c. Qed.

Lemma quote_is_not_closing q : is_quote q = true -> Ascii.eqb ">"%char q = false.
Proof.
  unfold is_quote. intros H. apply orb_prop in H as [H|H];
    apply Ascii.eqb_eq in H; now subst q.
Qed.

(** *** Patterns inside a tag *)

Lemma ci_prefix_tag p : forall body s,
  free_of ">"%char p = true ->
  ci_prefix p (body +:+ String ">"%char s)
  = option_map (fun r => r +:+ String ">"%char s) (ci_prefix p body).
Proof.
  induction p as [|x p IH]; intros body s Hp; [reflexivity|].
  cbn in Hp. apply andb_prop in Hp as [Hx Hp]. apply negb_true_iff in Hx.
  destruct body as [|c body].
  - rewrite StrFacts.app_nil_l. cbn [ci_prefix]. now rewrite (closing_ci _ Hx).
  - rewrite StrFacts.app_cons. cbn [ci_prefix]. destruct (ci x c); [now apply IH|reflexivity].
Qed.

Lemma ci_prefix_app p q : forall s,
  ci_prefix (p +:+ q) s
  = match ci_prefix p s with
    | Some r => ci_prefix q r
    | None => None
    end.
Proof.
  induction p as [|x p IH]; intros s; [reflexivity|].
  rewrite StrFacts.app_cons. cbn [ci_prefix]. destruct s as [|c s]; [reflexivity|].
  destruct (ci x c); [apply IH|reflexivity].
Qed.

Lemma ci_prefix_split p : forall body r,
  ci_prefix p body = Some r ->
  exists matched, body = matched +:+ r /\ String.length matched = String.length p.
Proof.
  induction p as [|x p IH]; intros body r H.
  - injection H as <-. now exists "".
  - destruct body as [|c body]; [discriminate H|]. cbn [ci_prefix] in H.
    destruct (ci x c); [|discriminate H].
    destruct (IH _ _ H) as (matched & -> & Hlen).
    exists (String c matched). split; [reflexivity|]. cbn. now rewrite Hlen.
Qed.

Lemma ci_prefix_free p c body r :
  ci_prefix p body = Some r -> free_of c body = true -> free_of c r = true.
Proof.
  intros H Hfree. destruct (ci_prefix_split _ _ _ H) as (matched & -> & _).
  rewrite free_of_app in Hfree. now apply andb_prop in Hfree as [_ Hr].
Qed.

Lemma target_blank_here_tag r s :
  target_blank_here (r +:+ String ">"%char s) = target_blank_here r.
Proof.
  unfold target_blank_here. rewrite ci_prefix_tag by reflexivity.
  destruct (ci_prefix "target=" r) as [[|q r1]|]; cbn [option_map]; try reflexivity.
  rewrite StrFacts.app_cons. rewrite ci_prefix_tag by reflexivity.
  destruct (ci_prefix "_blank" r1) as [[|q' r2]|]; cbn [option_map]; try reflexivity.
  rewrite StrFacts.app_nil_l.
  destruct (is_quote q) eqn:Hq; [|reflexivity]. cbn [andb].
  now apply quote_is_not_closing.
Qed.

Lemma lookahead_tag attributes : forall prev s,
  free_of ">"%char attributes = true ->
  lookahead prev (attributes +:+ String ">"%char s) = lookahead prev attributes.
Proof.
  induction attributes as [|c attributes IH]; intros prev s Hfree.
  - rewrite StrFacts.app_nil_l. cbn [lookahead].
    change (String ">"%char s) with ("" +:+ String ">"%char s) at 1.
    rewrite target_blank_here_tag. now rewrite Ascii.eqb_refl.
  - cbn in Hfree. apply andb_prop in Hfree as [Hc Hfree]. apply negb_true_iff in Hc.
    rewrite StrFacts.app_cons. cbn [lookahead]. rewrite Hc, (IH _ _ Hfree).
    rewrite <- StrFacts.app_cons. now rewrite target_blank_here_tag.
Qed.

(** However much of the white space is taken, the lookahead gives the same
    answer. *)
Lemma some_attempt_passes_spec s : forall prev,
  some_attempt_passes prev s = negb (lookahead prev s).
Proof.
  induction s as [|c s IH]; intros prev; [reflexivity|].
  cbn [some_attempt_passes]. destruct (Str.is_js_space c) eqn:Hc; [|reflexivity].
  rewrite IH. cbn [andb lookahead].
  destruct (space_is_no_letter c Hc) as [Ht Hgt]. rewrite Hgt.
  assert (Hhere : target_blank_here (String c s) = false).
  { unfold target_blank_here. cbn [ci_prefix]. now rewrite Ht. }
  rewrite Hhere, andb_false_r. cbn [orb]. now destruct (lookahead c s).
Qed.

Lemma add_target_cons c0 c1 c2 rest :
  add_target (String c0 (String c1 (String c2 rest)))
  = if Ascii.eqb c0 "<"%char && Ascii.eqb c1 "a"%char && Str.is_js_space c2
    then "<" +:+ anchor_attributes +:+ rest
    else String c0 (add_target (String c1 (String c2 rest))).
Proof. reflexivity. Qed.

Lemma add_target_free text : free_of "<"%char text = true -> add_target text = text.
Proof.
  induction text as [|c0 text IH]; [reflexivity|]. intros Hfree.
  cbn in Hfree. apply andb_prop in Hfree as [Hc Hfree]. apply negb_true_iff in Hc.
  cbn [add_target]. destruct text as [|c1 [|c2 rest]]; try reflexivity.
  rewrite Hc. cbn [andb]. now rewrite (IH Hfree).
Qed.

(** *** The three matchers on a tag *)

Lemma anchor_starts_at_bracket : starts_at_bracket match_anchor.
Proof.
  intros c s Hc. unfold match_anchor. destruct s as [|c1 [|c2 rest]]; try reflexivity.
  now rewrite Hc.
Qed.

Lemma img_starts_at_bracket : starts_at_bracket match_img.
Proof. intros c s Hc. unfold match_img. now rewrite Hc. Qed.

Lemma pre_starts_at_bracket : starts_at_bracket match_pre.
Proof. intros c s Hc. unfold match_pre. now rewrite Hc. Qed.

Lemma pre_acts_on_tags : acts_on_tags match_pre with_code_class.
Proof.
  intros body s Hlt Hgt. normalize_app. unfold match_pre, with_code_class.
  rewrite Ascii.eqb_refl.
  change "pre>" with ("pre" +:+ ">").
  rewrite ci_prefix_app, ci_prefix_tag by reflexivity.
  destruct (ci_prefix "pre" body) as [[|c r]|] eqn:Hbody; cbn [option_map].
  - right. destruct (ci_prefix_split _ _ _ Hbody) as (matched & -> & Hlen).
    exists "<"%char, (matched +:+ ">"), "", ("<" +:+ pre_attributes +:+ ">").
    rewrite StrFacts.app_nil_l. cbn [ci_prefix]. change (ci ">" ">") with true.
    cbn iota. repeat split.
    + now rewrite !append_nil_r.
    + f_equal. f_equal. cbn [String.length]. rewrite StrFacts.length_app, Hlen. reflexivity.
  - left. split; [|reflexivity]. rewrite StrFacts.app_cons. cbn [ci_prefix].
    assert (Hc : Ascii.eqb c ">"%char = false).
    { pose proof (ci_prefix_free _ ">"%char _ _ Hbody Hgt) as H. cbn in H.
      apply andb_prop in H as [H _]. now apply negb_true_iff in H. }
    now rewrite (ci_closing c Hc).
  - now left.
Qed.

Lemma img_acts_on_tags : acts_on_tags match_img with_image_class.
Proof.
  intros body s Hlt Hgt. normalize_app. unfold match_img, with_image_class.
  rewrite Ascii.eqb_refl. rewrite ci_prefix_tag by reflexivity.
  destruct (ci_prefix "img" body) as [[|c r]|] eqn:Hbody; cbn [option_map].
  - left. rewrite StrFacts.app_nil_l. now split.
  - rewrite StrFacts.app_cons. destruct (Str.is_js_space c) eqn:Hc; [|now left].
    right. destruct (ci_prefix_split _ _ _ Hbody) as (matched & -> & Hlen).
    exists "<"%char, (matched +:+ String c ""), (r +:+ ">"), ("<" +:+ img_attributes).
    repeat split.
    + normalize_app. reflexivity.
    + f_equal. f_equal. cbn [String.length]. rewrite StrFacts.length_app, Hlen. reflexivity.
  - now left.
Qed.

Lemma anchor_acts_on_tags : acts_on_tags match_anchor new_tab.
Proof.
  intros body s Hlt Hgt. normalize_app. unfold match_anchor, new_tab.
  destruct body as [|c1 [|c2 attributes]].
  - left. rewrite StrFacts.app_nil_l. destruct s; now split.
  - left. normalize_app. rewrite Ascii.eqb_refl. cbn [andb].
    change (Str.is_js_space ">") with false. now rewrite andb_false_r.
  - normalize_app. rewrite Ascii.eqb_refl. cbn [andb].
    destruct (Str.is_js_space c2) eqn:Hspace;
      [|left; rewrite !andb_false_r; now split].
    rewrite !andb_true_r.
    destruct (ci "a" c1) eqn:Hci.
    2:{ left. split; [reflexivity|].
        destruct (Ascii.eqb c1 "a") eqn:Ha; [|reflexivity].
        rewrite (lower_a_ci _ Ha) in Hci. discriminate Hci. }
    assert (Hattributes : free_of ">"%char (String c2 attributes) = true).
    { cbn in Hgt. now apply andb_prop in Hgt as [_ Hgt]. }
    rewrite <- StrFacts.app_cons.
    rewrite (MarkdownFacts.span_not_stop _ _ _ Hattributes).
    rewrite some_attempt_passes_spec.
    assert (Hrest : free_of ">"%char attributes = true).
    { cbn in Hattributes. now apply andb_prop in Hattributes as [_ H]. }
    rewrite (lookahead_tag _ _ _ Hrest).
    destruct (lookahead c2 attributes); cbn [negb];
      [left; split; [reflexivity|now rewrite andb_false_r]|].
    right. rewrite andb_true_r.
    exists "<"%char, (String c1 (String c2 attributes) +:+ ">"), "",
      (add_target (String "<" (String c1 (String c2 attributes)) +:+ ">")).
    repeat split.
    + now rewrite append_nil_r.
    + rewrite append_nil_r. normalize_app. rewrite add_target_cons, Hspace, Ascii.eqb_refl.
      destruct (Ascii.eqb c1 "a") eqn:Ha; cbn [andb].
      * now normalize_app.
      * f_equal. apply add_target_free. now rewrite free_of_app, Hlt.
Qed.

(** *** Well-formed tags stay well-formed *)

Lemma new_tab_well_formed body :
  free_of "<"%char body && free_of ">"%char body = true ->
  free_of "<"%char (new_tab body) && free_of ">"%char (new_tab body) = true.
Proof.
  intros H. unfold new_tab. destruct body as [|c1 [|c2 attributes]]; try exact H.
  destruct (_ && _ && _); [|exact H].
  apply andb_prop in H as [Hlt Hgt]. cbn in Hlt, Hgt.
  apply andb_prop in Hlt as [_ Hlt]. apply andb_prop in Hlt as [_ Hlt].
  apply andb_prop in Hgt as [_ Hgt]. apply andb_prop in Hgt as [_ Hgt].
  rewrite !free_of_app, Hlt, Hgt. reflexivity.
Qed.

Lemma with_image_class_well_formed body :
  free_of "<"%char body && free_of ">"%char body = true ->
  free_of "<"%char (with_image_class body) && free_of ">"%char (with_image_class body) = true.
Proof.
  intros H. unfold with_image_class.
  destruct (ci_prefix "img" body) as [[|c r]|] eqn:Hbody; try exact H.
  destruct (Str.is_js_space c); [|exact H].
  apply andb_prop in H as [Hlt Hgt].
  pose proof (ci_prefix_free _ _ _ _ Hbody Hlt) as Hlt'.
  pose proof (ci_prefix_free _ _ _ _ Hbody Hgt) as Hgt'.
  cbn in Hlt', Hgt'. apply andb_prop in Hlt' as [_ Hlt']. apply andb_prop in Hgt' as [_ Hgt'].
  rewrite !free_of_app, Hlt', Hgt'. reflexivity.
Qed.

Lemma on_tag_well_formed f segments :
  (forall body, free_of "<"%char body && free_of ">"%char body = true ->
                free_of "<"%char (f body) && free_of ">"%char (f body) = true) ->
  forallb html_well_formed segments = true ->
  forallb html_well_formed (map (on_tag f) segments) = true.
Proof.
  intros Hf. induction segments as [|seg segments IH]; [reflexivity|].
  cbn [forallb map]. intros H. apply andb_prop in H as [Hseg Hrest].
  rewrite (IH Hrest), andb_true_r.
  destruct seg as [text|body]; [exact Hseg|]. now apply Hf.
Qed.

(** On a README made of text without opening angle brackets and of tags
    without angle brackets inside, the three rewrites act on each tag by
    itself and leave the text and every other tag as they are.  An anchor
    written with a lower-case a gets target=_blank and rel=noopener
    noreferrer in front of its own attributes, unless these already hold
    target=_blank in quotes at a word boundary; an upper-case anchor is left
    alone.  An image tag, in any letter case, gets the class readme-img, and
    a bare preformatted block the class code-block. *)
Theorem readme_html_is_rewritten_tag_by_tag segments :
  forallb html_well_formed segments = true ->
  processHtml (html_of segments) = html_of (map (on_tag enhanced_tag) segments).
Proof.
  intros Hwf. unfold processHtml.
  rewrite (gsub_segments _ _ anchor_starts_at_bracket anchor_acts_on_tags _ Hwf).
  pose proof (on_tag_well_formed _ _ new_tab_well_formed Hwf) as Hwf1.
  rewrite (gsub_segments _ _ img_starts_at_bracket img_acts_on_tags _ Hwf1).
  pose proof (on_tag_well_formed _ _ with_image_class_well_formed Hwf1) as Hwf2.
  rewrite (gsub_segments _ _ pre_starts_at_bracket pre_acts_on_tags _ Hwf2).
  rewrite !map_map. f_equal. apply map_ext. now intros [text|body].
Qed.

Lemma readme_html_is_rewritten_tag_by_tag_witness :
  processHtml
    (html_of [Text "See "; Tag "a href=x"; Text "x > y"; Tag "/a";
              Tag "A HREF=y"; Tag "a rel=z target='_blank'";
              Tag "IMG src=a.png"; Tag "pre"; Tag "pre lang=c"])
  = html_of [Text "See ";
             Tag (anchor_attributes +:+ "href=x"); Text "x > y"; Tag "/a";
             Tag "A HREF=y"; Tag "a rel=z target='_blank'";
             Tag (img_attributes +:+ "src=a.png"); Tag pre_attributes; Tag "pre lang=c"].
Proof.
  exact (readme_html_is_rewritten_tag_by_tag
           [Text "See "; Tag "a href=x"; Text "x > y"; Tag "/a";
            Tag "A HREF=y"; Tag "a rel=z target='_blank'";
            Tag "IMG src=a.png"; Tag "pre"; Tag "pre lang=c"] eq_refl).
Defined.

Lemma new_tab_twice body : new_tab (new_tab body) = new_tab body.
Proof.
  destruct body as [|c1 [|c2 attributes]]; try reflexivity.
  assert (Hstep : new_tab (String c1 (String c2 attributes))
                  = if Ascii.eqb c1 "a"%char && Str.is_js_space c2
                       && negb (lookahead c2 attributes)
                    then anchor_attributes +:+ attributes
                    else String c1 (String c2 attributes)) by reflexivity.
  destruct (_ && _ && _) eqn:Hcase in Hstep; rewrite Hstep.
  - reflexivity.
  - exact Hstep.
Qed.

(** The anchor rewrite recognises its own work: on a README made of text
    and well-formed tags, an anchor it has rewritten is one its lookahead
    finds to open in a new tab already, so rewriting a second time changes
    nothing. *)
Theorem rewritten_anchors_are_left_alone segments :
  forallb html_well_formed segments = true ->
  gsub match_anchor 0 (gsub match_anchor 0 (html_of segments))
  = gsub match_anchor 0 (html_of segments).
Proof.
  intros Hwf.
  rewrite (gsub_segments _ _ anchor_starts_at_bracket anchor_acts_on_tags _ Hwf).
  pose proof (on_tag_well_formed _ _ new_tab_well_formed Hwf) as Hwf1.
  rewrite (gsub_segments _ _ anchor_starts_at_bracket anchor_acts_on_tags _ Hwf1).
  rewrite map_map. f_equal. apply map_ext. intros [text|body]; [reflexivity|].
  cbn [on_tag]. now rewrite new_tab_twice.
Qed.

Lemma rewritten_anchors_are_left_alone_witness :
  gsub match_anchor 0 (gsub match_anchor 0 "<a href=x>x</a>")
  = gsub match_anchor 0 "<a href=x>x</a>".
Proof.
  exact (rewritten_anchors_are_left_alone [Tag "a href=x"; Text "x"; Tag "/a"] eq_refl).
Defined.

End HtmlFacts.

(** ** The README viewer *)

Module ReadmeFacts.
Import Observe TokenFacts Readme.



End ReadmeFacts.

(** ** The links of the sidebar *)

Module SidebarFacts.
Import Sidebar.

Lemma splice_remove_map {A B} (f : A -> B) start array :
  splice_remove start (map f array) = map f (splice_remove start array).
Proof. unfold splice_remove. now rewrite map_app, firstn_map, skipn_map. Qed.

Lemma splice_insert_map {A B} (f : A -> B) start item array :
  splice_insert start (f item) (map f array) = map f (splice_insert start item array).
Proof. unfold splice_insert. now rewrite map_app, firstn_map, skipn_map. Qed.

Lemma omap_id_Some {A} (l : list A) : omap id (map Some l) = l.
Proof. induction l as [|x l IH]; [reflexivity|]. cbn. now rewrite IH. Qed.

Lemma lookup_map_Some {A} (l : list A) i : map Some l !! i = Some <$> l !! i.
Proof.
  revert i. induction l as [|x l IH]; intros [|i]; try reflexivity. cbn. apply IH.
Qed.

(** Removing the element at a position and inserting it again, anywhere,
    rearranges the list. *)
Lemma splice_Permutation {A} (array : list A) item over x :
  array !! item = Some x ->
  splice_insert over x (splice_remove item array) ≡ₚ array.
Proof.
  intros Hx. unfold splice_insert.
  rewrite <- Permutation_middle, take_drop.
  unfold splice_remove. rewrite <- (take_drop_middle array item x Hx) at 3.
  now rewrite <- Permutation_middle.
Qed.

Lemma splice_remove_length {A} (array : list A) item x :
  array !! item = Some x -> S (length (splice_remove item array)) = length array.
Proof.
  intros Hx. rewrite <- (take_drop_middle array item x Hx) at 2.
  unfold splice_remove. rewrite !length_app. cbn. lia.
Qed.

Lemma splice_insert_lookup {A} (array : list A) over x :
  over <= length array -> splice_insert over x array !! over = Some x.
Proof.
  intros Hover. unfold splice_insert.
  apply list_lookup_middle. rewrite length_take. lia.
Qed.

(** *** Renumbering *)

Lemma renumber_completes links : forall index objects,
  fst (renumber index (map Some links) objects) = true.
Proof. induction links as [|link links IH]; intros; [reflexivity|apply IH]. Qed.

Lemma renumber_keeps links : forall index objects r,
  url (snd (renumber index links objects) r) = url (objects r)
  /\ title (snd (renumber index links objects) r) = title (objects r)
  /\ icon (snd (renumber index links objects) r) = icon (objects r).
Proof.
  induction links as [|[link|] links IH]; intros index objects r; try now repeat split.
  cbn [renumber]. destruct (IH (S index) (set_order link index objects) r) as (-> & -> & ->).
  unfold set_order. now destruct (r =? link).
Qed.

Lemma renumber_outside links : forall index objects r,
  r ∉ links -> snd (renumber index (map Some links) objects) r = objects r.
Proof.
  induction links as [|link links IH]; intros index objects r Hr; [reflexivity|].
  cbn [map renumber]. apply not_elem_of_cons in Hr as [Hne Hr].
  rewrite (IH _ _ _ Hr). unfold set_order.
  destruct (Nat.eqb_spec r link); [contradiction|reflexivity].
Qed.

Lemma renumber_order links : forall index objects k r,
  NoDup links ->
  links !! k = Some r ->
  order (snd (renumber index (map Some links) objects) r) = Z.of_nat (index + k).
Proof.
  induction links as [|link links IH]; intros index objects k r Hnodup Hk; [discriminate Hk|].
  apply NoDup_cons in Hnodup as [Hfresh Hnodup]. cbn [map renumber].
  destruct k as [|k].
  - injection Hk as ->. rewrite (renumber_outside _ _ _ _ Hfresh).
    unfold set_order. rewrite Nat.eqb_refl. cbn. now rewrite Nat.add_0_r.
  - cbn in Hk. rewrite (IH (S index) _ k r Hnodup Hk). f_equal. lia.
Qed.

Lemma updateCustomLinks_old newLinks customLinks : forall objects allocated,
  allocated <= snd (updateCustomLinks newLinks customLinks objects allocated)
  /\ forall r, r < allocated ->
       snd (fst (updateCustomLinks newLinks customLinks objects allocated)) r = objects r.
Proof.
  induction customLinks as [|customLink rest IH]; intros objects allocated.
  - split; [reflexivity|]. now intros.
  - cbn [updateCustomLinks].
    destruct (List.find _ newLinks) as [matchingLink|].
    + match goal with
      | |- context [updateCustomLinks newLinks rest ?o ?a] =>
          specialize (IH o a); destruct (updateCustomLinks newLinks rest o a) as [[updated o2] a2]
      end.
      cbn [fst snd] in IH |- *. destruct IH as [Hle Hold]. split; [lia|].
      intros r Hr. rewrite Hold by lia.
      destruct (Nat.eqb_spec r allocated); [lia|reflexivity].
    + specialize (IH objects allocated).
      destruct (updateCustomLinks newLinks rest objects allocated) as [[updated o2] a2].
      exact IH.
Qed.

(** A drop moves the dragged link and nothing else.  With a drag in
    progress from a position of the list to another one, [handleDrop]
    returns normally and the links shown are the old ones with the dragged
    link taken out and put in again at the drop position (at the end when
    that position is beyond it): a rearrangement of the same links in which
    the others keep their order.  Every link then carries its position as
    its order, and its address, title and icon are what they were.  The
    order is saved and the gesture is over.  The links are taken to be
    distinct objects allocated by the component. *)
Theorem a_drop_moves_the_dragged_link stringify_order stringify_links st item over dragged :
  isDragging st = true ->
  dragItem st = Some item ->
  socialLinks st !! item = Some dragged ->
  item <> over ->
  NoDup (socialLinks st) ->
  (forall link, link ∈ socialLinks st -> link < allocated st) ->
  fst (handleDrop stringify_order stringify_links (socialLinks st) (customLinks st) over st)
  = Returned tt
  /\ socialLinks (snd (handleDrop stringify_order stringify_links
                         (socialLinks st) (customLinks st) over st))
     = take over (splice_remove item (socialLinks st))
       ++ dragged :: drop over (splice_remove item (socialLinks st))
  /\ socialLinks (snd (handleDrop stringify_order stringify_links
                         (socialLinks st) (customLinks st) over st))
     ≡ₚ socialLinks st
  /\ (over < length (socialLinks st) ->
      socialLinks (snd (handleDrop stringify_order stringify_links
                          (socialLinks st) (customLinks st) over st)) !! over
      = Some dragged)
  /\ (forall k link,
        socialLinks (snd (handleDrop stringify_order stringify_links
                            (socialLinks st) (customLinks st) over st)) !! k
        = Some link ->
        order (objects (snd (handleDrop stringify_order stringify_links
                               (socialLinks st) (customLinks st) over st)) link)
        = Z.of_nat k
        /\ url (objects (snd (handleDrop stringify_order stringify_links
                                (socialLinks st) (customLinks st) over st)) link)
           = url (objects st link)
        /\ title (objects (snd (handleDrop stringify_order stringify_links
                                  (socialLinks st) (customLinks st) over st)) link)
           = title (objects st link)
        /\ icon (objects (snd (handleDrop stringify_order stringify_links
                                 (socialLinks st) (customLinks st) over st)) link)
           = icon (objects st link))
  /\ storage (snd (handleDrop stringify_order stringify_links
                     (socialLinks st) (customLinks st) over st)) !! "linkOrder"
     = Some (stringify_order
               (savedLinkOrder (snd (handleDrop stringify_order stringify_links
                                       (socialLinks st) (customLinks st) over st))))
  /\ dragItem (snd (handleDrop stringify_order stringify_links
                      (socialLinks st) (customLinks st) over st)) = None
  /\ dragOverItem (snd (handleDrop stringify_order stringify_links
                          (socialLinks st) (customLinks st) over st)) = None
  /\ isDragging (snd (handleDrop stringify_order stringify_links
                        (socialLinks st) (customLinks st) over st)) = false.
Proof.
  intros Hdragging Hitem Hdragged Hne Hnodup Hlive.
  set (moved := splice_insert over dragged (splice_remove item (socialLinks st))).
  assert (Hperm : moved ≡ₚ socialLinks st) by now apply splice_Permutation.
  assert (Hnodup' : NoDup moved) by now rewrite Hperm.
  assert (Hrun : exists final,
            handleDrop stringify_order stringify_links (socialLinks st) (customLinks st) over st
            = (Returned tt, final)
            /\ socialLinks final = moved
            /\ (forall r, r < allocated st ->
                  objects final r = snd (renumber 0 (map Some moved) (objects st)) r)
            /\ storage final !! "linkOrder" = Some (stringify_order (savedLinkOrder final))
            /\ dragItem final = None /\ dragOverItem final = None /\ isDragging final = false).
  { unfold handleDrop, handleDragEnd.
    cbn [isDragging dragItem dragOverItem set_drag objects allocated]. rewrite Hdragging, Hitem.
    cbn [negb]. destruct (Nat.eqb_spec item over) as [Heq|_]; [contradiction|]. cbn [negb].
    rewrite Hdragged, splice_remove_map, splice_insert_map. fold moved.
    pose proof (renumber_completes moved 0 (objects st)) as Hcompletes.
    destruct (renumber 0 (map Some moved) (objects st)) as [completed objects1] eqn:Hrenumber.
    cbn [fst] in Hcompletes. subst completed. rewrite omap_id_Some.
    cbn [saveLinkOrder setSocialLinks set_objects setSavedLinkOrder Sidebar.setItem
         objects allocated storage socialLinks customLinks savedLinkOrder
         dragItem dragOverItem isDragging answers].
    match goal with
    | |- context [updateCustomLinks ?nl ?cl ?o ?a] =>
        pose proof (updateCustomLinks_old nl cl o a) as [_ Hold];
        destruct (updateCustomLinks nl cl o a) as [[updated objects2] allocated2]
    end.
    cbn [fst snd] in Hold.
    match goal with
    | |- context [if ?b then _ else _] => destruct b
    end; eexists; (split; [reflexivity|]); cbn; repeat split; try exact Hold;
      rewrite ?lookup_insert_ne by discriminate; now rewrite lookup_insert_eq. }
  destruct Hrun as (final & -> & Hlinks & Hobjects & Hstorage & Hd1 & Hd2 & Hd3).
  cbn [fst snd]. rewrite Hlinks.
  split; [reflexivity|]. split; [reflexivity|]. split; [exact Hperm|].
  split; [|split; [|now repeat split]].
  - intros Hover. apply splice_insert_lookup.
    pose proof (splice_remove_length _ _ _ Hdragged). lia.
  - intros k link Hk.
    assert (Hin : link ∈ socialLinks st).
    { rewrite <- Hperm. now apply list_elem_of_lookup_2 with k. }
    rewrite (Hobjects _ (Hlive _ Hin)).
    split; [now rewrite (renumber_order _ 0 _ k link Hnodup' Hk)|].
    apply renumber_keeps.
Qed.

Lemma a_drop_moves_the_dragged_link_witness :
  socialLinks (snd (handleDrop Scenario.silent Scenario.silent [0; 1; 2] [] 2
                      (Scenario.sidebar (Some 0) true [])))
  = [1; 2; 0].
Proof.
  refine (proj1 (proj2 (a_drop_moves_the_dragged_link Scenario.silent Scenario.silent
            (Scenario.sidebar (Some 0) true []) 0 2 0 eq_refl eq_refl eq_refl _ _ _))).
  - discriminate.
  - exact (bool_decide_unpack (NoDup [0; 1; 2]) I).
  - intros link Hin. cbn in Hin |- *. rewrite !elem_of_cons in Hin.
    destruct Hin as [->|[->|[->|Hin]]]; [lia|lia|lia|].
    now apply elem_of_nil in Hin.
Defined.

Lemma isDragging_after stringify_order stringify_links socialLinks customLinks st :
  isDragging (snd (handleDragEnd stringify_order stringify_links socialLinks customLinks st))
  = false.
Proof.
  unfold handleDragEnd. destruct (isDragging st) eqn:Hdragging; [|exact Hdragging].
  cbn [negb set_drag dragItem dragOverItem objects allocated].
  destruct (dragItem st) as [item|]; [|reflexivity].
  destruct (dragOverItem st) as [over|]; [|reflexivity].
  destruct (negb (item =? over)); [|reflexivity].
  destruct (renumber 0 _ (objects st)) as [[|] objects1]; [|reflexivity].
  match goal with
  | |- context [updateCustomLinks ?nl ?cl ?o ?a] =>
      destruct (updateCustomLinks nl cl o a) as [[updated objects2] allocated2]
  end.
  match goal with
  | |- context [if ?b then _ else _] => destruct b
  end; reflexivity.
Qed.

(** The browser fires dragend after every drop, so [handleDragEnd] runs
    once more after [handleDrop] has called it.  That second run changes
    nothing, whatever the first one did and whatever lists its render
    holds: the gesture was closed by the first. *)
Theorem the_dragend_after_a_drop_changes_nothing
    stringify_order stringify_links socialLinks customLinks socialLinks' customLinks' over st :
  handleDragEnd stringify_order stringify_links socialLinks' customLinks'
    (snd (handleDrop stringify_order stringify_links socialLinks customLinks over st))
  = (Returned tt,
     snd (handleDrop stringify_order stringify_links socialLinks customLinks over st)).
Proof.
  unfold handleDrop.
  pose proof (isDragging_after stringify_order stringify_links socialLinks customLinks
                (set_drag (dragItem st) (Some over) (isDragging st) st)) as Hafter.
  destruct (handleDragEnd _ _ socialLinks customLinks _) as [outcome final].
  cbn [snd] in Hafter |- *. unfold handleDragEnd. now rewrite Hafter.
Qed.

Lemma splice_remove_beyond {A} (array : list A) item :
  array !! item = None -> splice_remove item array = array.
Proof.
  intros H. apply lookup_ge_None in H. unfold splice_remove.
  rewrite take_ge, drop_ge by lia. apply app_nil_r.
Qed.

Lemma renumber_stops links : forall index rest objects,
  renumber index (map Some links ++ None :: rest) objects
  = (false, snd (renumber index (map Some links) objects)).
Proof.
  induction links as [|link links IH]; intros index rest objects; [reflexivity|].
  cbn [map app renumber]. apply IH.
Qed.

(** A drop whose drag started at a position the list no longer has (the
    list was replaced by a shorter one in between) fails: [handleDrop]
    throws a TypeError.  The links shown, the custom links, the saved order
    and the storage are as before, and no link has lost its address, title
    or icon, but the gesture is left half closed: the dragging flag is
    down while the drag position is still set, and the links before the
    drop position have already been given their positions as order. *)
Theorem a_drop_from_a_vanished_position_fails
    stringify_order stringify_links socialLinks customLinks st item over :
  isDragging st = true ->
  dragItem st = Some item ->
  socialLinks !! item = None ->
  item <> over ->
  fst (handleDrop stringify_order stringify_links socialLinks customLinks over st)
  = Thrown (TypeError "Cannot set properties of undefined (setting 'order')")
  /\ Sidebar.socialLinks
       (snd (handleDrop stringify_order stringify_links socialLinks customLinks over st))
     = Sidebar.socialLinks st
  /\ Sidebar.customLinks
       (snd (handleDrop stringify_order stringify_links socialLinks customLinks over st))
     = Sidebar.customLinks st
  /\ savedLinkOrder
       (snd (handleDrop stringify_order stringify_links socialLinks customLinks over st))
     = savedLinkOrder st
  /\ storage (snd (handleDrop stringify_order stringify_links socialLinks customLinks over st))
     = storage st
  /\ isDragging (snd (handleDrop stringify_order stringify_links socialLinks customLinks over st))
     = false
  /\ dragItem (snd (handleDrop stringify_order stringify_links socialLinks customLinks over st))
     = Some item
  /\ (forall link,
        url (objects (snd (handleDrop stringify_order stringify_links
                             socialLinks customLinks over st)) link)
        = url (objects st link)
        /\ title (objects (snd (handleDrop stringify_order stringify_links
                                  socialLinks customLinks over st)) link)
           = title (objects st link)
        /\ icon (objects (snd (handleDrop stringify_order stringify_links
                                 socialLinks customLinks over st)) link)
           = icon (objects st link))
  /\ (forall k link,
        NoDup socialLinks -> k < over -> socialLinks !! k = Some link ->
        order (objects (snd (handleDrop stringify_order stringify_links
                               socialLinks customLinks over st)) link)
        = Z.of_nat k).
Proof.
  intros Hdragging Hitem Hgone Hne.
  assert (Hrun : handleDrop stringify_order stringify_links socialLinks customLinks over st
                 = (Thrown (TypeError "Cannot set properties of undefined (setting 'order')"),
                    set_objects (snd (renumber 0 (map Some (take over socialLinks)) (objects st)))
                      (allocated st)
                      (set_drag (Some item) (Some over) false st))).
  { unfold handleDrop, handleDragEnd.
    cbn [isDragging dragItem dragOverItem set_drag objects allocated]. rewrite Hdragging, Hitem.
    cbn [negb]. destruct (Nat.eqb_spec item over) as [Heq|_]; [contradiction|]. cbn [negb].
    rewrite Hgone, splice_remove_map, (splice_remove_beyond _ _ Hgone).
    unfold splice_insert. rewrite firstn_map. now rewrite renumber_stops. }
  rewrite Hrun. cbn [fst snd]. repeat split; try apply renumber_keeps.
  intros k link Hnodup Hk Hlink. cbn.
  assert (Htake : take over socialLinks !! k = Some link) by now rewrite lookup_take_lt.
  rewrite (renumber_order _ 0 _ k link); [reflexivity| |exact Htake].
  rewrite <- (take_drop over socialLinks) in Hnodup. now apply NoDup_app in Hnodup as [H _].
Qed.

Lemma a_drop_from_a_vanished_position_fails_witness :
  fst (handleDrop Scenario.silent Scenario.silent [0; 1; 2] [] 1
         (Scenario.sidebar (Some 5) true []))
  = Thrown (TypeError "Cannot set properties of undefined (setting 'order')").
Proof.
  refine (proj1 (a_drop_from_a_vanished_position_fails Scenario.silent Scenario.silent
            [0; 1; 2] [] (Scenario.sidebar (Some 5) true []) 5 1 eq_refl eq_refl eq_refl _)).
  discriminate.
Defined.

(** A drop without a move changes nothing: when no drag is in progress,
    when no drag position is set, or when the link is dropped where it was
    picked up, [handleDrop] returns normally and leaves the links shown, the
    custom links, every link object, the saved order and the storage as they
    are; the dragging flag is down afterwards. *)
Theorem a_drop_without_a_move_changes_nothing
    stringify_order stringify_links socialLinks customLinks over st :
  isDragging st = false \/ dragItem st = None \/ dragItem st = Some over ->
  fst (handleDrop stringify_order stringify_links socialLinks customLinks over st) = Returned tt
  /\ Sidebar.socialLinks
       (snd (handleDrop stringify_order stringify_links socialLinks customLinks over st))
     = Sidebar.socialLinks st
  /\ Sidebar.customLinks
       (snd (handleDrop stringify_order stringify_links socialLinks customLinks over st))
     = Sidebar.customLinks st
  /\ (forall link,
        objects (snd (handleDrop stringify_order stringify_links socialLinks customLinks over st))
          link
        = objects st link)
  /\ savedLinkOrder
       (snd (handleDrop stringify_order stringify_links socialLinks customLinks over st))
     = savedLinkOrder st
  /\ storage (snd (handleDrop stringify_order stringify_links socialLinks customLinks over st))
     = storage st
  /\ isDragging (snd (handleDrop stringify_order stringify_links socialLinks customLinks over st))
     = false.
Proof.
  intros Hcase. unfold handleDrop, handleDragEnd.
  cbn [isDragging dragItem dragOverItem set_drag objects allocated].
  destruct (isDragging st) eqn:Hdragging; cbn [negb]; [|now repeat split].
  destruct Hcase as [Hcase|[Hcase|Hcase]]; [discriminate Hcase| |]; rewrite Hcase.
  - now repeat split.
  - rewrite Nat.eqb_refl. now repeat split.
Qed.

Lemma a_drop_without_a_move_changes_nothing_witness :
  Sidebar.socialLinks
    (snd (handleDrop Scenario.silent Scenario.silent [0; 1; 2] [] 1
            (Scenario.sidebar (Some 1) true [])))
  = [0; 1; 2].
Proof.
  exact (proj1 (proj2 (a_drop_without_a_move_changes_nothing Scenario.silent Scenario.silent
           [0; 1; 2] [] 1 (Scenario.sidebar (Some 1) true [])
           (or_intror (or_intror eq_refl))))).
Defined.

(** *** The saved order *)

Lemma assoc_assign key key' value orderMap :
  GitHub.assoc key (assign key' value orderMap)
  = if String.eqb key' key then Some value else GitHub.assoc key orderMap.
Proof.
  induction orderMap as [|[k v] orderMap IH]; cbn [assign GitHub.assoc].
  - reflexivity.
  - destruct (String.eqb_spec k key') as [->|Hk]; cbn [GitHub.assoc].
    + now destruct (String.eqb key' key).
    + rewrite IH. destruct (String.eqb_spec k key) as [->|Hkey]; [|reflexivity].
      destruct (String.eqb_spec key' key) as [->|_]; [contradiction|reflexivity].
Qed.

Lemma assoc_set_property key key' value orderMap :
  GitHub.assoc key (set_property key' value orderMap)
  = if String.eqb key' key && negb (String.eqb key' "__proto__") then Some value
    else GitHub.assoc key orderMap.
Proof.
  unfold set_property. destruct (String.eqb key' "__proto__"); cbn [negb].
  - now rewrite andb_false_r.
  - now rewrite andb_true_r, assoc_assign.
Qed.

Lemma orderMapOf_other objects links : forall index orderMap key,
  key ∉ map (fun link => url (objects link)) links ->
  GitHub.assoc key (orderMapOf objects index links orderMap) = GitHub.assoc key orderMap.
Proof.
  induction links as [|link links IH]; intros index orderMap key Hkey; [reflexivity|].
  cbn [map] in Hkey. apply not_elem_of_cons in Hkey as [Hne Hkey].
  cbn [orderMapOf]. rewrite (IH _ _ _ Hkey), assoc_set_property.
  destruct (String.eqb_spec (url (objects link)) key) as [Heq|_]; [|reflexivity].
  now contradiction Hne.
Qed.

Lemma orderMapOf_proto objects links : forall index orderMap,
  GitHub.assoc "__proto__" orderMap = None ->
  GitHub.assoc "__proto__" (orderMapOf objects index links orderMap) = None.
Proof.
  induction links as [|link links IH]; intros index orderMap H; [exact H|].
  cbn [orderMapOf]. apply IH. rewrite assoc_set_property.
  destruct (String.eqb (url (objects link)) "__proto__"); exact H.
Qed.

Lemma orderMapOf_position objects links : forall index orderMap k link,
  NoDup (map (fun link => url (objects link)) links) ->
  links !! k = Some link ->
  url (objects link) <> "__proto__" ->
  GitHub.assoc (url (objects link)) (orderMapOf objects index links orderMap)
  = Some (Z.of_nat (index + k)).
Proof.
  induction links as [|first links IH]; intros index orderMap k link Hnodup Hk Hproto;
    [discriminate Hk|].
  cbn [map] in Hnodup. apply NoDup_cons in Hnodup as [Hfresh Hnodup]. cbn [orderMapOf].
  destruct k as [|k].
  - injection Hk as ->. rewrite (orderMapOf_other _ _ _ _ _ Hfresh), assoc_set_property.
    rewrite String.eqb_refl. apply String.eqb_neq in Hproto. rewrite Hproto.
    cbn. now rewrite Nat.add_0_r.
  - cbn in Hk. rewrite (IH (S index) _ k link Hnodup Hk Hproto). f_equal. lia.
Qed.

(** [saveLinkOrder] records the position of every link under its address:
    for links with distinct addresses, looking an address up in the saved
    order gives the position of its link in the list, and the text put in
    storage under linkOrder is the serialization of that map.  A link whose
    address is __proto__ is never recorded: that key names the prototype of
    the order map. *)
Theorem the_saved_order_is_the_position stringify_order links st :
  (forall k link,
     NoDup (map (fun link => url (objects st link)) links) ->
     links !! k = Some link ->
     url (objects st link) <> "__proto__" ->
     GitHub.assoc (url (objects st link)) (savedLinkOrder (saveLinkOrder stringify_order links st))
     = Some (Z.of_nat k))
  /\ GitHub.assoc "__proto__" (savedLinkOrder (saveLinkOrder stringify_order links st)) = None
  /\ storage (saveLinkOrder stringify_order links st) !! "linkOrder"
     = Some (stringify_order (savedLinkOrder (saveLinkOrder stringify_order links st)))
  /\ (forall key, key <> "linkOrder" ->
        storage (saveLinkOrder stringify_order links st) !! key = storage st !! key)
  /\ socialLinks (saveLinkOrder stringify_order links st) = socialLinks st
  /\ customLinks (saveLinkOrder stringify_order links st) = customLinks st.
Proof.
  unfold saveLinkOrder. cbn. repeat split.
  - intros k link Hnodup Hk Hproto.
    now rewrite (orderMapOf_position _ _ 0 [] k link Hnodup Hk Hproto).
  - now apply orderMapOf_proto.
  - apply lookup_insert_eq.
  - intros key Hkey. now apply lookup_insert_ne.
Qed.

Lemma startsWith_http (address : string) :
  Str.startsWith "http"
    (if Str.startsWith "http" address then address else "https://" +:+ address) = true.
Proof. destruct (Str.startsWith "http" address) eqn:H; [exact H|reflexivity]. Qed.

(** Adding a custom link.  When both prompts are answered with a non-empty
    text, one new link object is made and put last in the links shown and
    last in the custom links, the same object in both; its address is the
    text entered, with https:// put in front unless it starts with http, so
    that a stored address always starts with http; its title is the second
    answer and its order the number of links shown before.  The links that
    were there are not touched, the custom links are persisted, and both
    prompts are used up. *)
Theorem a_custom_link_is_appended
    stringify_order stringify_links socialLinks customLinks st address name rest :
  answers st = Some address :: Some name :: rest ->
  Str.nonempty address = true ->
  Str.nonempty name = true ->
  Sidebar.socialLinks (addCustomLink stringify_order stringify_links socialLinks customLinks st)
  = socialLinks ++ [allocated st]
  /\ Sidebar.customLinks
       (addCustomLink stringify_order stringify_links socialLinks customLinks st)
     = customLinks ++ [allocated st]
  /\ url (objects (addCustomLink stringify_order stringify_links socialLinks customLinks st)
             (allocated st))
     = (if Str.startsWith "http" address then address else "https://" +:+ address)
  /\ Str.startsWith "http"
       (url (objects (addCustomLink stringify_order stringify_links socialLinks customLinks st)
               (allocated st))) = true
  /\ title (objects (addCustomLink stringify_order stringify_links socialLinks customLinks st)
               (allocated st)) = name
  /\ icon (objects (addCustomLink stringify_order stringify_links socialLinks customLinks st)
              (allocated st))
     = getLinkIcon (if Str.startsWith "http" address then address else "https://" +:+ address)
  /\ order (objects (addCustomLink stringify_order stringify_links socialLinks customLinks st)
               (allocated st)) = Z.of_nat (length socialLinks)
  /\ (forall link, link < allocated st ->
        objects (addCustomLink stringify_order stringify_links socialLinks customLinks st) link
        = objects st link)
  /\ storage (addCustomLink stringify_order stringify_links socialLinks customLinks st)
       !! "customLinks"
     = Some (stringify_links
               (map (objects (addCustomLink stringify_order stringify_links
                                socialLinks customLinks st))
                    (customLinks ++ [allocated st])))
  /\ answers (addCustomLink stringify_order stringify_links socialLinks customLinks st) = rest.
Proof.
  intros Hanswers Haddress Hname.
  unfold addCustomLink, prompt. rewrite Hanswers. cbn [set_answers answers].
  cbn [truthy]. rewrite Haddress, Hname. cbn [andb default id].
  cbn [saveLinkOrder setSocialLinks setCustomLinks set_objects setSavedLinkOrder Sidebar.setItem
       set_answers objects allocated storage Sidebar.socialLinks Sidebar.customLinks
       savedLinkOrder dragItem dragOverItem isDragging answers].
  rewrite Nat.eqb_refl. cbn [url title order icon].
  repeat split.
  - apply startsWith_http.
  - intros link Hlink. destruct (Nat.eqb_spec link (allocated st)); [lia|reflexivity].
  - rewrite lookup_insert_ne by discriminate. apply lookup_insert_eq.
Qed.

Lemma a_custom_link_is_appended_witness :
  url (objects (addCustomLink Scenario.silent Scenario.silent [0; 1; 2] []
                  (Scenario.sidebar None false [Some "example.org"; Some "Example"]))
         3)
  = "https://example.org".
Proof.
  exact (proj1 (proj2 (proj2 (a_custom_link_is_appended Scenario.silent Scenario.silent
           [0; 1; 2] [] (Scenario.sidebar None false [Some "example.org"; Some "Example"])
           "example.org" "Example" [] eq_refl eq_refl eq_refl)))).
Defined.

Lemma filter_without objects u links :
  Forall (fun link => url (objects link) <> u)
    (List.filter (fun link => negb (has_url objects u link)) links).
Proof.
  apply Forall_forall. intros link Hin. apply list_elem_of_In in Hin.
  apply filter_In in Hin as [_ Hlink]. apply negb_true_iff in Hlink.
  unfold has_url in Hlink. now apply String.eqb_neq in Hlink.
Qed.

(** Removing a link.  When [removeLink] returns, the links shown are the
    former ones without those at the given address, in their order, and the
    saved order is that of the new list.  When one of the custom links has
    the address, the custom links lose the links with that address and the
    hidden links are not written; otherwise the custom links stay and the
    address is added to the hidden links in storage.  When the hidden links
    in storage cannot be read, [removeLink] throws before anything is
    changed: the link stays on display. *)
Theorem a_removed_link_is_gone
    stringify_order stringify_links JSON_stringify JSON_parse socialLinks customLinks u st :
  (forall e,
     fst (removeLink stringify_order stringify_links JSON_stringify JSON_parse
            socialLinks customLinks u st) = Thrown e ->
     snd (removeLink stringify_order stringify_links JSON_stringify JSON_parse
            socialLinks customLinks u st) = st)
  /\ (fst (removeLink stringify_order stringify_links JSON_stringify JSON_parse
             socialLinks customLinks u st) = Returned tt ->
      Sidebar.socialLinks
        (snd (removeLink stringify_order stringify_links JSON_stringify JSON_parse
                socialLinks customLinks u st))
      = List.filter (fun link => negb (has_url (objects st) u link)) socialLinks
      /\ Forall (fun link => url (objects st link) <> u)
           (Sidebar.socialLinks
              (snd (removeLink stringify_order stringify_links JSON_stringify JSON_parse
                      socialLinks customLinks u st)))
      /\ savedLinkOrder
           (snd (removeLink stringify_order stringify_links JSON_stringify JSON_parse
                   socialLinks customLinks u st))
         = orderMapOf (objects st) 0
             (List.filter (fun link => negb (has_url (objects st) u link)) socialLinks) []
      /\ Sidebar.customLinks
           (snd (removeLink stringify_order stringify_links JSON_stringify JSON_parse
                   socialLinks customLinks u st))
         = (if existsb (has_url (objects st) u) customLinks
            then List.filter (fun link => negb (has_url (objects st) u link)) customLinks
            else Sidebar.customLinks st)
      /\ (existsb (has_url (objects st) u) customLinks = true ->
          storage (snd (removeLink stringify_order stringify_links JSON_stringify JSON_parse
                          socialLinks customLinks u st)) !! "hiddenLinks"
          = storage st !! "hiddenLinks")
      /\ (existsb (has_url (objects st) u) customLinks = false ->
          exists elements,
            (JSON_parse (default "[]" (if truthy (storage st !! "hiddenLinks")
                                       then storage st !! "hiddenLinks" else None))
               ≫= spread) = Some elements
            /\ storage (snd (removeLink stringify_order stringify_links JSON_stringify
                               JSON_parse socialLinks customLinks u st)) !! "hiddenLinks"
               = Some (JSON_stringify (JArr (elements ++ [JStr u])))
            /\ storage (snd (removeLink stringify_order stringify_links JSON_stringify
                               JSON_parse socialLinks customLinks u st)) !! "customLinks"
               = storage st !! "customLinks")).
Proof.
  unfold removeLink, forget.
  destruct (existsb (has_url (objects st) u) customLinks) eqn:Hcustom.
  - cbn. split; [discriminate|]. intros _. repeat split.
    + apply filter_without.
    + rewrite lookup_insert_ne by discriminate. now rewrite lookup_insert_ne by discriminate.
    + discriminate.
  - destruct (JSON_parse _) as [hiddenLinks|] eqn:Hparse; [|now split].
    destruct (spread hiddenLinks) as [elements|] eqn:Hspread; [|now split].
    cbn. split; [discriminate|]. intros _.
    split; [reflexivity|]. split; [apply filter_without|].
    split; [reflexivity|]. split; [reflexivity|]. split; [discriminate|].
    intros _. exists elements. rewrite Hspread. split; [reflexivity|].
    rewrite !lookup_insert_ne by discriminate. rewrite lookup_insert_eq.
    split; [reflexivity|]. now rewrite !lookup_insert_ne by discriminate.
Qed.

End SidebarFacts.
